(** * Scheduled Notification Engine (telegram-alarm-bot)

    A shallow embedding of [schedule.service.ts] (the revision with the
    daily summary and the [event] type) and of [schedule-storage.service.ts],
    followed by the properties of the specification that can be settled on it.
    The text helpers of the list commands ([schedule-bot.update.ts]), the
    group-chat middleware ([bot.update.ts], [group-command.middleware.ts])
    and the immediate send of [notification.service.ts] are embedded as
    well, and the last part of the file states further properties of the
    code.

    Conventions of the embedding.
    - JavaScript numbers that the service manipulates are integers
      (epoch milliseconds, calendar components, cron literals) or [NaN];
      they are modelled by [jsnum].
    - JavaScript strings are modelled by [string], holding the UTF-8 bytes
      of the text; lengths and offsets are counted in UTF-16 code units, as
      JavaScript counts them, and the white space of [trim] and of the
      regular expression [\s] is the white space of ECMAScript.
    - A [Date] read back from the store is a valid instant, modelled by its
      epoch milliseconds in [Z]; [null] is [None].
    - The service is asynchronous but single threaded; every operation and
      every callback is modelled as one atomic state transformer, and every
      [Date.now()] read inside one operation returns the same instant. *)

From Stdlib Require Import ZArith Ascii String List Bool Lia.
From Stdlib Require Import DecimalString DecimalN DecimalZ.
From Stdlib Require Import Sorted.
From stdpp Require Import base gmap strings list fin_maps.

Local Open Scope Z_scope.

(* ===================================================================== *)
(** ** JavaScript numbers *)
(* ===================================================================== *)

Inductive jsnum : Type :=
| NaN : jsnum
| Num : Z -> jsnum.

(** [a === b] on numbers: [NaN] equals nothing. *)
Definition js_eq (a b : jsnum) : bool :=
  match a, b with
  | Num x, Num y => x =? y
  | _, _ => false
  end.

Definition js_le (a b : jsnum) : bool :=
  match a, b with
  | Num x, Num y => x <=? y
  | _, _ => false
  end.

Definition js_ge (a b : jsnum) : bool := js_le b a.

Definition js_lt (a b : jsnum) : bool :=
  match a, b with
  | Num x, Num y => x <? y
  | _, _ => false
  end.

Definition js_gt (a b : jsnum) : bool := js_lt b a.

(** [a % b]: the remainder has the sign of the dividend; [x % 0] is [NaN]. *)
Definition js_rem (a b : jsnum) : jsnum :=
  match a, b with
  | Num x, Num y => if y =? 0 then NaN else Num (Z.rem x y)
  | _, _ => NaN
  end.

Definition js_sub (a b : jsnum) : jsnum :=
  match a, b with
  | Num x, Num y => Num (x - y)
  | _, _ => NaN
  end.

(* ===================================================================== *)
(** ** JavaScript string primitives *)
(* ===================================================================== *)

Module JSString.

(** Truthiness of a string: only the empty string is falsy. *)
Definition truthy (s : string) : bool :=
  match s with
  | EmptyString => false
  | String _ _ => true
  end.

(** Truthiness of an optional string ([undefined] / [null] are falsy). *)
Definition truthy_opt (o : option string) : bool :=
  match o with
  | Some s => truthy s
  | None => false
  end.

(** [a || b] on strings. *)
Definition or_else (o : option string) (d : string) : string :=
  match o with
  | Some s => if truthy s then s else d
  | None => d
  end.

(** Every character of [s] satisfies [P]. *)
Fixpoint every (P : ascii -> bool) (s : string) : bool :=
  match s with
  | EmptyString => true
  | String a s' => P a && every P s'
  end.

Definition is_digit (a : ascii) : bool :=
  match Ascii.is_nat a with
  | Some _ => true
  | None => false
  end.

(** [s.includes(c)] for a one-character needle. *)
Fixpoint includes (c : ascii) (s : string) : bool :=
  match s with
  | EmptyString => false
  | String a s' => Ascii.eqb a c || includes c s'
  end.

(** [s.split(c)] for a one-character separator. *)
Fixpoint split (sep : ascii) (s : string) : list string :=
  match s with
  | EmptyString => [EmptyString]
  | String a s' =>
      if Ascii.eqb a sep then EmptyString :: split sep s'
      else match split sep s' with
           | h :: t => String a h :: t
           | [] => [String a EmptyString]
           end
  end.

(** The white space and line terminators of ECMAScript, which [trim] and
    the regular expression [\s] share. Those of one byte are tab, line
    feed, vertical tab, form feed, carriage return and space. *)
Definition is_space (a : ascii) : bool := Ascii.is_space a.

(** U+00A0, in two bytes. *)
Definition is_space2 (a b : ascii) : bool :=
  (N_of_ascii a =? 194)%N && (N_of_ascii b =? 160)%N.

(** U+1680, U+2000 to U+200A, U+2028, U+2029, U+202F, U+205F, U+3000 and
    U+FEFF, in three bytes. *)
Definition is_space3 (a b c : ascii) : bool :=
  let x := N_of_ascii a in
  let y := N_of_ascii b in
  let z := N_of_ascii c in
  ((x =? 225) && (y =? 154) && (z =? 128)
   || (x =? 226) && (y =? 128)
      && ((128 <=? z) && (z <=? 138) || (z =? 168) || (z =? 169) || (z =? 175))
   || (x =? 226) && (y =? 129) && (z =? 159)
   || (x =? 227) && (y =? 128) && (z =? 128)
   || (x =? 239) && (y =? 187) && (z =? 191))%N.

(** The text is exactly one white space character. *)
Definition is_space_char (s : string) : bool :=
  match s with
  | String a EmptyString => is_space a
  | String a (String b EmptyString) => is_space2 a b
  | String a (String b (String c EmptyString)) => is_space3 a b c
  | _ => false
  end.

Fixpoint trimStart (s : string) : string :=
  match s with
  | EmptyString => EmptyString
  | String a s1 =>
      if is_space a then trimStart s1
      else match s1 with
           | String b s2 =>
               if is_space2 a b then trimStart s2
               else match s2 with
                    | String c s3 => if is_space3 a b c then trimStart s3 else s
                    | EmptyString => s
                    end
           | EmptyString => s
           end
  end.

(** Read from the end: what is left of the tail is kept unless, with the
    byte before it, it is one white space character. *)
Fixpoint trimEnd (s : string) : string :=
  match s with
  | EmptyString => EmptyString
  | String a s' =>
      let t := String a (trimEnd s') in
      if is_space_char t then EmptyString else t
  end.

Definition trim (s : string) : string := trimEnd (trimStart s).

(** The text holds white space only. *)
Definition blank (s : string) : bool :=
  match trimStart s with
  | EmptyString => true
  | String _ _ => false
  end.

(** The same, character by character. *)
Inductive Blank : string -> Prop :=
| Blank_nil : Blank ""
| Blank_1 a s : is_space a = true -> Blank s -> Blank (String a s)
| Blank_2 a b s : is_space2 a b = true -> Blank s -> Blank (String a (String b s))
| Blank_3 a b c s :
    is_space3 a b c = true -> Blank s -> Blank (String a (String b (String c s))).

(** [s.split(/\s+/)]: a maximal run of whitespace is one separator.
    [in_sep] records that the previous character belonged to the
    separator being consumed. *)
Fixpoint split_ws_from (in_sep : bool) (s : string) : list string :=
  match s with
  | EmptyString => [EmptyString]
  | String a s1 =>
      if is_space a then
        if in_sep then split_ws_from true s1
        else EmptyString :: split_ws_from true s1
      else
        match s1 with
        | String b s2 =>
            if is_space2 a b then
              if in_sep then split_ws_from true s2
              else EmptyString :: split_ws_from true s2
            else
              match s2 with
              | String c s3 =>
                  if is_space3 a b c then
                    if in_sep then split_ws_from true s3
                    else EmptyString :: split_ws_from true s3
                  else match split_ws_from false s1 with
                       | h :: t => String a h :: t
                       | [] => [String a EmptyString]
                       end
              | EmptyString =>
                  match split_ws_from false s1 with
                  | h :: t => String a h :: t
                  | [] => [String a EmptyString]
                  end
              end
        | EmptyString => [String a EmptyString]
        end
  end.

Definition split_ws (s : string) : list string := split_ws_from false s.

(** [s.replace(/\n/g, ' ')]. *)
Fixpoint replace_newlines (s : string) : string :=
  match s with
  | EmptyString => EmptyString
  | String a s' =>
      String (if Ascii.eqb a "010"%char then " "%char else a)
             (replace_newlines s')
  end.

Fixpoint repeat_char (c : ascii) (n : nat) : string :=
  match n with
  | O => EmptyString
  | S k => String c (repeat_char c k)
  end.

(** [s.length], in UTF-16 code units, of the text whose UTF-8 encoding is
    [s]: a continuation byte adds nothing and the first byte of a four
    byte sequence adds two. *)
Fixpoint length16 (s : string) : nat :=
  match s with
  | EmptyString => O
  | String a s' =>
      let c := N_of_ascii a in
      ((if (c <? 128)%N then 1 else if (c <? 192)%N then 0
        else if (c <? 240)%N then 1 else 2) + length16 s')%nat
  end.

(** [s.padStart(n, c)]. *)
Definition padStart (n : nat) (c : ascii) (s : string) : string :=
  repeat_char c (n - length16 s) +:+ s.

(** The high surrogate of the character whose four bytes are given, as
    the three bytes that stand for a lone surrogate. *)
Definition highSurrogate (a b c d : ascii) : string :=
  let cp := (N.land (N_of_ascii a) 7 * 262144 + N.land (N_of_ascii b) 63 * 4096
             + N.land (N_of_ascii c) 63 * 64 + N.land (N_of_ascii d) 63)%N in
  let hs := (55296 + (cp - 65536) / 1024)%N in
  String (ascii_of_N 237)
    (String (ascii_of_N (128 + N.land (hs / 64) 63))
       (String (ascii_of_N (128 + N.land hs 63)) EmptyString)).

(** [s.slice(0, n)]: the first [n] UTF-16 code units. A character of one
    to three bytes is one code unit; one of four bytes is two, and a cut
    between them leaves its high surrogate. *)
Fixpoint take16 (n : nat) (s : string) {struct s} : string :=
  match s with
  | EmptyString => EmptyString
  | String a s1 =>
      let x := N_of_ascii a in
      if (x <? 128)%N then
        match n with
        | O => EmptyString
        | S k => String a (take16 k s1)
        end
      else if (x <? 192)%N then String a (take16 n s1)
      else if (x <? 224)%N then
        match n, s1 with
        | S k, String b s2 => String a (String b (take16 k s2))
        | _, _ => EmptyString
        end
      else if (x <? 240)%N then
        match n, s1 with
        | S k, String b (String c s3) => String a (String b (String c (take16 k s3)))
        | _, _ => EmptyString
        end
      else
        match n, s1 with
        | S O, String b (String c (String d _)) => highSurrogate a b c d
        | S (S k), String b (String c (String d s4)) =>
            String a (String b (String c (String d (take16 k s4))))
        | _, _ => EmptyString
        end
  end.

(** A byte that continues a character. *)
Definition continuation (a : ascii) : bool :=
  let x := N_of_ascii a in (128 <=? x)%N && (x <? 192)%N.

(** The bytes are the encoding of a text: every character is a first
    byte followed by as many continuation bytes as it announces. *)
Fixpoint utf8 (s : string) : bool :=
  match s with
  | EmptyString => true
  | String a s1 =>
      let x := N_of_ascii a in
      if (x <? 128)%N then utf8 s1
      else if (x <? 192)%N then false
      else if (x <? 224)%N then
        match s1 with
        | String b s2 => continuation b && utf8 s2
        | _ => false
        end
      else if (x <? 240)%N then
        match s1 with
        | String b (String c s3) => continuation b && continuation c && utf8 s3
        | _ => false
        end
      else
        match s1 with
        | String b (String c (String d s4)) =>
            continuation b && continuation c && continuation d && utf8 s4
        | _ => false
        end
  end.

(** [l.join(sep)]. *)
Definition join (sep : string) (l : list string) : string :=
  String.concat sep l.

(** [Number(s)] on the numerals that occur in cron fields and [HH:mm]
    strings: surrounding whitespace is ignored, the empty string is [0],
    an optionally signed run of decimal digits is its value, and anything
    else is [NaN].  (Fractions, exponents, radix prefixes and [Infinity]
    are outside the modelled fragment.) *)
Definition digits_value (s : string) : jsnum :=
  match NilEmpty.uint_of_string s with
  | Some u => Num (Z.of_N (N.of_uint u))
  | None => NaN
  end.

Definition Number (s : string) : jsnum :=
  match trim s with
  | String "+" (String a r) => digits_value (String a r)
  | String "-" (String a r) =>
      match digits_value (String a r) with
      | Num z => Num (- z)
      | NaN => NaN
      end
  | t => digits_value t
  end.

(** [String(n)] for an integer or [NaN]. *)
Definition ofZ (z : Z) : string := NilEmpty.string_of_int (Z.to_int z).

Definition ofNum (n : jsnum) : string :=
  match n with
  | NaN => "NaN"
  | Num z => ofZ z
  end.

End JSString.

(* ===================================================================== *)
(** ** 4.1 Cron subset interpreter *)
(* ===================================================================== *)

Module Cron.
Import JSString.

(** [cronFieldMatches(field, value)]. The [for ... return true] loop over
    the comma separated parts is [existsb]. *)
Definition fieldPartMatches (value : Z) (part : string) : bool :=
  if includes "/" part then
    let ps := split "/" part in
    let range := nth 0 ps EmptyString in
    let stepStr := nth 1 ps EmptyString in
    let step := Number stepStr in
    String.eqb range "*" && js_eq (js_rem (Num value) step) (Num 0)
  else if includes "-" part then
    let ns := map Number (split "-" part) in
    let start := nth 0 ns NaN in
    let end_ := nth 1 ns NaN in
    js_ge (Num value) start && js_le (Num value) end_
  else js_eq (Number part) (Num value).

Definition cronFieldMatches (field : string) (value : Z) : bool :=
  if String.eqb field "*" then true
  else existsb (fieldPartMatches value) (split "," field).

(** [cronDowMatches(field, todayDow)]. *)
Definition dowPartMatches (todayDow : Z) (part : string) : bool :=
  if includes "-" part then
    let ns := map Number (split "-" part) in
    let start := nth 0 ns NaN in
    let end_ := nth 1 ns NaN in
    js_ge (Num todayDow) start && js_le (Num todayDow) end_
  else
    let val := Number part in
    js_eq val (Num todayDow) || (js_eq val (Num 7) && (todayDow =? 0)).

Definition cronDowMatches (field : string) (todayDow : Z) : bool :=
  if String.eqb field "*" then true
  else existsb (dowPartMatches todayDow) (split "," field).

(** [cronMatchesToday(cron, todayDow, todayDate, todayMonth)]. *)
Definition cronMatchesToday (cron : string) (todayDow todayDate todayMonth : Z) : bool :=
  let parts := split_ws (trim cron) in
  if (length parts <? 5)%nat then false
  else
    let dayOfMonth := nth 2 parts EmptyString in
    let month := nth 3 parts EmptyString in
    let dayOfWeek := nth 4 parts EmptyString in
    if negb (cronFieldMatches month todayMonth) then false
    else if negb (cronFieldMatches dayOfMonth todayDate) then false
    else if negb (cronDowMatches dayOfWeek todayDow) then false
    else true.

(** A five-field expression in concrete syntax: five words separated by
    non-empty runs of white space. A word is not empty and is made of
    ASCII characters other than white space. *)
Definition is_word_char (a : ascii) : bool :=
  (N_of_ascii a <? 128)%N && negb (is_space a).

Definition is_field (f : string) : bool := truthy f && every is_word_char f.

Definition is_gap (w : string) : bool := truthy w && blank w.

Definition cron5 (minute w1 hour w2 dayOfMonth w3 month w4 dayOfWeek : string) : string :=
  minute +:+ w1 +:+ hour +:+ w2 +:+ dayOfMonth +:+ w3 +:+ month +:+ w4 +:+ dayOfWeek.

(** The sub-term grammar of the specification, and its concrete syntax. *)
Inductive Term : Type :=
| Lit (n : N)
| Range (a b : N)
| Step (n : N).

Definition showN (n : N) : string := NilEmpty.string_of_uint (N.to_uint n).

Definition showTerm (t : Term) : string :=
  match t with
  | Lit n => showN n
  | Range a b => showN a +:+ "-" +:+ showN b
  | Step n => "*/" +:+ showN n
  end.

Definition showField (ts : list Term) : string := join "," (map showTerm ts).

(** What the specification says a sub-term means. *)
Definition termMatches (value : Z) (t : Term) : bool :=
  match t with
  | Lit n => value =? Z.of_N n
  | Range a b => (Z.of_N a <=? value) && (value <=? Z.of_N b)
  | Step n => negb (Z.of_N n =? 0) && (Z.rem value (Z.of_N n) =? 0)
  end.

(** The day-of-week reading of the specification: as [termMatches], and a
    literal [7] also stands for Sunday ([0]). *)
Definition dowTermMatches (dow : Z) (t : Term) : bool :=
  termMatches dow t ||
  match t with
  | Lit n => (Z.of_N n =? 7) && (dow =? 0)
  | _ => false
  end.

(** What [cronDowMatches] makes of a sub-term: it has no branch for step
    terms. *)
Definition dowTermImplemented (dow : Z) (t : Term) : bool :=
  match t with
  | Step _ => false
  | _ => dowTermMatches dow t
  end.

(** The sub-terms of the specification, read from text: a literal is an
    unsigned decimal numeral, a range is two of them around a hyphen, a
    step is a numeral after [*/]. Any other text is no sub-term. *)
Definition numeral (s : string) : option N :=
  if truthy s && every is_digit s
  then N.of_uint <$> NilEmpty.uint_of_string s
  else None.

Definition readTerm (part : string) : option Term :=
  match part with
  | String "*" (String "/" n) => Step <$> numeral n
  | _ =>
      match split "-" part with
      | [a] => Lit <$> numeral a
      | [a; b] =>
          match numeral a, numeral b with
          | Some x, Some y => Some (Range x y)
          | _, _ => None
          end
      | _ => None
      end
  end.

Definition readField (field : string) : option (list Term) :=
  mapM readTerm (split "," field).

(** [matchField], [matchDayOfWeek] and [firesOnDate] as the specification
    words them: [*] matches anything, and otherwise a value matches the
    field when it matches one of its comma separated sub-terms. *)
Definition matchField (field : string) (value : Z) : bool :=
  String.eqb field "*"
  || existsb (fun part => match readTerm part with
                          | Some t => termMatches value t
                          | None => false
                          end) (split "," field).

Definition matchDayOfWeek (field : string) (dow : Z) : bool :=
  String.eqb field "*"
  || existsb (fun part => match readTerm part with
                          | Some t => dowTermMatches dow t
                          | None => false
                          end) (split "," field).

Definition firesOnDate (dayOfMonth month dayOfWeek : string) (date mon dow : Z) : bool :=
  matchField month mon && matchField dayOfMonth date && matchDayOfWeek dayOfWeek dow.

(** The integers that JavaScript numbers hold exactly lie below 2^53 in
    absolute value; a field is well formed when it is [*] or a list of
    sub-terms over such numerals. *)
Definition safeInteger (z : Z) : bool := Z.abs z <? 9007199254740992.

Definition termSafe (t : Term) : bool :=
  match t with
  | Lit n | Step n => safeInteger (Z.of_N n)
  | Range a b => safeInteger (Z.of_N a) && safeInteger (Z.of_N b)
  end.

Definition wellFormedField (field : string) : bool :=
  String.eqb field "*"
  || match readField field with
     | Some ts => forallb termSafe ts
     | None => false
     end.

Definition hasStep (field : string) : bool :=
  match readField field with
  | Some ts => existsb (fun t => match t with Step _ => true | _ => false end) ts
  | None => false
  end.

End Cron.

(* ===================================================================== *)
(** ** JavaScript [Date] arithmetic (UTC getters) *)
(* ===================================================================== *)

Module JSDate.

Definition msPerDay : Z := 86400000.
Definition msPerHour : Z := 3600000.
Definition msPerMinute : Z := 60000.

(** Day number since the epoch, and the civil date of a day number
    (proleptic Gregorian calendar, as ECMAScript prescribes). *)
Definition Day (t : Z) : Z := t / msPerDay.

Definition civil_from_days (z : Z) : Z * Z * Z :=
  let z := z + 719468 in
  let era := z / 146097 in
  let doe := z - era * 146097 in
  let yoe := (doe - doe / 1460 + doe / 36524 - doe / 146096) / 365 in
  let y := yoe + era * 400 in
  let doy := doe - (365 * yoe + yoe / 4 - yoe / 100) in
  let mp := (5 * doy + 2) / 153 in
  let d := doy - (153 * mp + 2) / 5 + 1 in
  let m := if mp <? 10 then mp + 3 else mp - 9 in
  (if m <=? 2 then y + 1 else y, m, d).

Definition days_from_civil (y m d : Z) : Z :=
  let y := if m <=? 2 then y - 1 else y in
  let era := y / 400 in
  let yoe := y - era * 400 in
  let doy := (153 * (if m >? 2 then m - 3 else m + 9) + 2) / 5 + d - 1 in
  let doe := yoe * 365 + yoe / 4 - yoe / 100 + doy in
  era * 146097 + doe - 719468.

Definition getUTCFullYear (t : Z) : Z := (civil_from_days (Day t)).1.1.
(** Months are numbered from 0. *)
Definition getUTCMonth (t : Z) : Z := (civil_from_days (Day t)).1.2 - 1.
Definition getUTCDate (t : Z) : Z := (civil_from_days (Day t)).2.
(** 1970-01-01 was a Thursday (4); Sunday is 0. *)
Definition getUTCDay (t : Z) : Z := (Day t + 4) mod 7.
Definition getUTCHours (t : Z) : Z := (t mod msPerDay) / msPerHour.
Definition getUTCMinutes (t : Z) : Z := (t mod msPerHour) / msPerMinute.

(** [Date.UTC(year, month, day)]: the month may overflow into the year,
    the day is an offset from the first of the month, and a year in
    0..99 stands for 1900 + year. *)
Definition UTC (year month day : Z) : Z :=
  let year := if (0 <=? year) && (year <=? 99) then 1900 + year else year in
  let ym := year + month / 12 in
  let mn := month mod 12 in
  (days_from_civil ym (mn + 1) 1 + (day - 1)) * msPerDay.

End JSDate.

(* ===================================================================== *)
(** ** 3. Data model *)
(* ===================================================================== *)

Inductive ScheduleType : Type := fixed | manual | event.

Definition ScheduleType_eqb (a b : ScheduleType) : bool :=
  match a, b with
  | fixed, fixed | manual, manual | event, event => true
  | _, _ => false
  end.

(** The string a [ScheduleType] is at run time. *)
Definition typeName (t : ScheduleType) : string :=
  match t with
  | fixed => "fixed"
  | manual => "manual"
  | event => "event"
  end.

(** [ScheduledNotificationEntity]. *)
Module Entity.
Record t : Type := mk {
  id : string;
  type : ScheduleType;
  name : string;
  message : string;
  chatId : string;
  enabled : bool;
  createdAt : Z;
  cron : option string;
  scheduledAt : option Z;
  eventTime : option string;
  description : option string
}.
End Entity.

(** [CreateScheduleDto]; an optional property that is absent is [None]. *)
Module CreateScheduleDto.
Record t : Type := mk {
  type : ScheduleType;
  name : string;
  message : string;
  chatId : option string;
  cron : option string;
  scheduledAt : option string;
  eventTime : option string;
  description : option string
}.
End CreateScheduleDto.

(** [UpdateScheduleDto]. The validation pipe strips every other property,
    so neither [id] nor [type] can be part of an update. *)
Module UpdateScheduleDto.
Record t : Type := mk {
  name : option string;
  message : option string;
  chatId : option string;
  cron : option string;
  scheduledAt : option string;
  enabled : option bool;
  eventTime : option string;
  description : option string
}.
End UpdateScheduleDto.

(** The columns written by [storage.create]. *)
Module Draft.
Record t : Type := mk {
  type : ScheduleType;
  name : string;
  message : string;
  chatId : string;
  enabled : bool;
  cron : option string;
  scheduledAt : option Z;
  eventTime : option string;
  description : option string
}.
End Draft.

(** [Partial<ScheduledNotificationEntity>] as the service passes it to
    [storage.update]: [None] is an absent key. *)
Module Partial.
Record t : Type := mk {
  name : option string;
  message : option string;
  chatId : option string;
  cron : option string;
  scheduledAt : option Z;
  enabled : option bool;
  eventTime : option string;
  description : option string
}.

(** The literal [{ enabled: b }]. *)
Definition only_enabled (b : bool) : t :=
  mk None None None None None (Some b) None None.

(** The object has no key. *)
Definition isEmpty (p : t) : bool :=
  match p with
  | mk None None None None None None None None => true
  | _ => false
  end.

Definition apply (p : t) (e : Entity.t) : Entity.t :=
  Entity.mk
    (Entity.id e)
    (Entity.type e)
    (default (Entity.name e) (name p))
    (default (Entity.message e) (message p))
    (default (Entity.chatId e) (chatId p))
    (default (Entity.enabled e) (enabled p))
    (Entity.createdAt e)
    (match cron p with Some c => Some c | None => Entity.cron e end)
    (match scheduledAt p with Some d => Some d | None => Entity.scheduledAt e end)
    (match eventTime p with Some x => Some x | None => Entity.eventTime e end)
    (match description p with Some x => Some x | None => Entity.description e end).
End Partial.

(* ===================================================================== *)
(** ** Schedule Store ([ScheduleStorageService]) *)
(* ===================================================================== *)

(** Stable insertion sort, used for [ORDER BY createdAt ASC] and for
    [Array.prototype.sort]. [le a b] says that [a] may stay before [b]. *)
Section Sort.
Context {A : Type} (le : A -> A -> bool).

Fixpoint insertBy (x : A) (l : list A) : list A :=
  match l with
  | [] => [x]
  | y :: l' => if le x y then x :: l else y :: insertBy x l'
  end.

Fixpoint sortBy (l : list A) : list A :=
  match l with
  | [] => []
  | x :: l' => insertBy x (sortBy l')
  end.
End Sort.

Module Storage.

Definition has_id (i : string) (e : Entity.t) : bool := String.eqb (Entity.id e) i.

(** [repo.find({ order: { createdAt: 'ASC' } })]. *)
Definition findAll (rows : list Entity.t) : list Entity.t :=
  sortBy (fun a b => Entity.createdAt a <=? Entity.createdAt b) rows.

(** [repo.findOneBy({ id })]. The keys are the uuids that the database
    generates, and the ids handed to the service are taken to be uuids as
    well: what the database answers to a text that is none is outside the
    model. *)
Definition findById (rows : list Entity.t) (i : string) : option Entity.t :=
  List.find (has_id i) rows.

(** [repo.save(repo.create(data))]: the database assigns the primary key
    [newId] and the creation timestamp. *)
Definition create (rows : list Entity.t) (newId : string) (now : Z) (data : Draft.t)
  : list Entity.t * Entity.t :=
  let saved :=
    Entity.mk newId (Draft.type data) (Draft.name data) (Draft.message data)
      (Draft.chatId data) (Draft.enabled data) now (Draft.cron data)
      (Draft.scheduledAt data) (Draft.eventTime data) (Draft.description data) in
  (rows ++ [saved], saved).

(** The table after the UPDATE statement of [repo.update(id, partial)],
    and what [repo.findOneBy({ id })] reads from it. *)
Definition updateRows (rows : list Entity.t) (i : string) (partial : Partial.t)
  : list Entity.t * option Entity.t :=
  let rows' := map (fun e => if has_id i e then Partial.apply partial e else e) rows in
  (rows', findById rows' i).

(** [repo.update(id, partial)] followed by [repo.findOneBy({ id })]. A
    partial that sets no column makes [repo.update] throw
    [UpdateValuesMissingError] before any statement is sent: [None]. *)
Definition update (rows : list Entity.t) (i : string) (partial : Partial.t)
  : option (list Entity.t * option Entity.t) :=
  if Partial.isEmpty partial then None else Some (updateRows rows i partial).

(** [repo.delete(id)]; the result says whether a row was affected. *)
Definition delete (rows : list Entity.t) (i : string) : list Entity.t * bool :=
  (List.filter (fun e => negb (has_id i e)) rows, existsb (has_id i) rows).

End Storage.

(* ===================================================================== *)
(** ** 4.2 Runtime scheduler ([ScheduleService]) *)
(* ===================================================================== *)

(** The two messages of [BadRequestException]; both are the
    [PastScheduledTime] validation error of the specification. *)
Inductive BadRequestMessage : Type :=
| MustBeFuture        (* thrown by create and update *)
| CannotReenablePast. (* thrown by toggleEnabled *)

Inductive Exception : Type :=
| BadRequestException (msg : BadRequestMessage)
| NotFoundException (id : string)
| TypeError          (* [.getTime()] on [null] *)
| QueryFailedError   (* the store rejects an Invalid Date for a timestamptz column *)
| UpdateValuesMissingError. (* [repo.update] was given no column to set *)

Definition isPastScheduledTime (e : Exception) : bool :=
  match e with
  | BadRequestException _ => true
  | _ => false
  end.

(** A live recurring job: what its tick closure captured. *)
Record CronJob : Type := { job_schedule : Entity.t }.

(** A live one-shot timer: what its callback captured, and its delay. *)
Record Timer : Type := { timer_schedule : Entity.t; timer_delay : Z }.

(** One invocation of [botService.sendMessage] and whether it resolved. *)
Record Sent : Type := { sent_chatId : string; sent_text : string; sent_ok : bool }.

(** The two maps of the service hold the handles it can still stop. A
    job or a pending timeout whose handle a map has dropped without
    stopping it keeps running in the runtime: [strayJobs] and
    [strayTimers] hold those. *)
Record State : Type := mkState {
  store : list Entity.t;
  cronJobs : gmap string CronJob;
  timers : gmap string Timer;
  dailySummaryJob : bool;
  outbox : list Sent;
  strayJobs : list CronJob;
  strayTimers : list Timer
}.

Definition set_store (f : list Entity.t -> list Entity.t) (st : State) : State :=
  mkState (f (store st)) (cronJobs st) (timers st) (dailySummaryJob st) (outbox st)
          (strayJobs st) (strayTimers st).
Definition set_cronJobs (f : gmap string CronJob -> gmap string CronJob) (st : State) : State :=
  mkState (store st) (f (cronJobs st)) (timers st) (dailySummaryJob st) (outbox st)
          (strayJobs st) (strayTimers st).
Definition set_timers (f : gmap string Timer -> gmap string Timer) (st : State) : State :=
  mkState (store st) (cronJobs st) (f (timers st)) (dailySummaryJob st) (outbox st)
          (strayJobs st) (strayTimers st).
Definition set_dailySummaryJob (b : bool) (st : State) : State :=
  mkState (store st) (cronJobs st) (timers st) b (outbox st)
          (strayJobs st) (strayTimers st).
Definition set_outbox (f : list Sent -> list Sent) (st : State) : State :=
  mkState (store st) (cronJobs st) (timers st) (dailySummaryJob st) (f (outbox st))
          (strayJobs st) (strayTimers st).
Definition set_strayJobs (f : list CronJob -> list CronJob) (st : State) : State :=
  mkState (store st) (cronJobs st) (timers st) (dailySummaryJob st) (outbox st)
          (f (strayJobs st)) (strayTimers st).
Definition set_strayTimers (f : list Timer -> list Timer) (st : State) : State :=
  mkState (store st) (cronJobs st) (timers st) (dailySummaryJob st) (outbox st)
          (strayJobs st) (f (strayTimers st)).

(** The ids of the live registry: the keys of the cron-job map followed by
    the keys of the one-shot-timer map. *)
Definition liveRegistry (st : State) : list string :=
  (map_to_list (cronJobs st)).*1 ++ (map_to_list (timers st)).*1.


(** [setTimeout(f, delay)]: the runtime replaces a delay below 1 ms or
    above 2^31 - 1 ms by 1 ms. *)
Definition setTimeoutDelay (delay : Z) : Z :=
  if (delay <? 1) || (2147483647 <? delay) then 1 else delay.

(** Exceptions and state. *)
Inductive Result (A : Type) : Type :=
| Return (a : A)
| Throw (e : Exception).
Arguments Return {A} a.
Arguments Throw {A} e.

Definition M (A : Type) : Type := State -> State * Result A.

Definition ret {A} (a : A) : M A := fun st => (st, Return a).
Definition throw {A} (e : Exception) : M A := fun st => (st, Throw e).
Definition bind {A B} (c : M A) (k : A -> M B) : M B :=
  fun st =>
    match c st with
    | (st', Return a) => k a st'
    | (st', Throw e) => (st', Throw e)
    end.
Definition gets {A} (f : State -> A) : M A := fun st => (st, Return (f st)).
Definition modify (f : State -> State) : M unit := fun st => (f st, Return tt).

Notation "'do' x <- c ; k" := (bind c (fun x => k))
  (at level 10, x name, c at level 100, k at level 200, only parsing).
Notation "c ;; k" := (bind c (fun _ => k))
  (at level 100, k at level 200, right associativity, only parsing).

(** [for (const x of l) body(x)], stopping at the first exception. *)
Fixpoint forEach {A} (l : list A) (body : A -> M unit) : M unit :=
  match l with
  | [] => ret tt
  | x :: l' => body x ;; forEach l' body
  end.

(** What the service takes from its environment: the configured default
    chat id, whether the [CronJob] constructor accepts a cron source
    (it throws otherwise), and [new Date(s).getTime()] with [None] for
    [NaN]. *)
Class Env : Type := {
  defaultChatId : string;
  cronAccepts : option string -> bool;
  Date_parse : string -> option Z
}.

(** The outcome of each [botService.sendMessage(chatId, text)] call. *)
Definition Dispatcher : Type := string -> string -> bool.

Module ScheduleService.
Section Service.
Context {env : Env}.

Definition storage_findAll : M (list Entity.t) :=
  gets (fun st => Storage.findAll (store st)).

Definition storage_findById (i : string) : M (option Entity.t) :=
  gets (fun st => Storage.findById (store st) i).

Definition storage_create (newId : string) (now : Z) (data : Draft.t) : M Entity.t :=
  fun st =>
    let r := Storage.create (store st) newId now data in
    (set_store (fun _ => r.1) st, Return r.2).

Definition storage_update (i : string) (partial : Partial.t) : M (option Entity.t) :=
  fun st =>
    match Storage.update (store st) i partial with
    | Some r => (set_store (fun _ => r.1) st, Return r.2)
    | None => (st, Throw UpdateValuesMissingError)
    end.

Definition storage_delete (i : string) : M bool :=
  fun st =>
    let r := Storage.delete (store st) i in
    (set_store (fun _ => r.1) st, Return r.2).

(** [new Date(s)] on its way to a timestamptz column: the store rejects
    an Invalid Date, so the write that carries one throws. *)
Definition newDate (s : string) : M Z :=
  match Date_parse s with
  | Some t => ret t
  | None => throw QueryFailedError
  end.

(** [s ? new Date(s) : null]. *)
Definition dateOrNull (o : option string) : M (option Z) :=
  match o with
  | Some s => if JSString.truthy s then (do t <- newDate s; ret (Some t)) else ret None
  | None => ret None
  end.

(** [s !== undefined && { scheduledAt: new Date(s) }]: the key is written
    only when the property is present. *)
Definition dateIfDefined (o : option string) : M (option Z) :=
  match o with
  | Some s => do t <- newDate s; ret (Some t)
  | None => ret None
  end.

(** [this.cronJobs.set(id, job)] and [this.timers.set(id, timer)]: a
    handle that the map held for the id is dropped, not stopped. *)
Definition setCronJob (i : string) (job : CronJob) (st : State) : State :=
  set_cronJobs (insert i job)
    (set_strayJobs (fun l => l ++ option_list (cronJobs st !! i)) st).

Definition setTimer (i : string) (tm : Timer) (st : State) : State :=
  set_timers (insert i tm)
    (set_strayTimers (fun l => l ++ option_list (timers st !! i)) st).

(** [this.timers.delete(id)] without [clearTimeout]: a timeout that the
    map held for the id and that is still pending stays pending. *)
Definition forgetTimer (i : string) (st : State) : State :=
  set_timers (delete i)
    (set_strayTimers (fun l => l ++ option_list (timers st !! i)) st).

(** [startCronJob]: the job is started by its constructor; a constructor
    failure is caught and logged. *)
Definition startCronJob (schedule : Entity.t) : M unit :=
  if cronAccepts (Entity.cron schedule) then
    modify (setCronJob (Entity.id schedule) {| job_schedule := schedule |})
  else ret tt.

(** [startTimer]. *)
Definition startTimer (now : Z) (schedule : Entity.t) : M unit :=
  match Entity.scheduledAt schedule with
  | None => throw TypeError
  | Some at_ =>
      let delay := at_ - now in
      if delay <=? 0 then ret tt
      else modify (setTimer (Entity.id schedule)
                     {| timer_schedule := schedule;
                        timer_delay := setTimeoutDelay delay |})
  end.

(** [stopJob]: the handles are stopped before the maps drop them. *)
Definition stopJob (i : string) : M unit :=
  modify (set_cronJobs (delete i)) ;;
  modify (set_timers (delete i)).

(** [sendScheduledMessage]: the dispatch failure is caught and logged. *)
Definition sendScheduledMessage (send : Dispatcher) (schedule : Entity.t) : M unit :=
  let chatId := JSString.or_else (Some (Entity.chatId schedule)) defaultChatId in
  modify (set_outbox (fun o =>
    o ++ [{| sent_chatId := chatId; sent_text := Entity.message schedule;
             sent_ok := send chatId (Entity.message schedule) |}])).

(** The tick of a recurring job. *)
Definition cronTick (send : Dispatcher) (schedule : Entity.t) : M unit :=
  sendScheduledMessage send schedule.

(** The callback of a one-shot timer. The timeout that runs it is no
    longer pending and has left the state; the handle that the final
    [timers.delete] drops is whatever the map holds for the id then. *)
Definition timerFire (send : Dispatcher) (schedule : Entity.t) : M unit :=
  sendScheduledMessage send schedule ;;
  storage_update (Entity.id schedule) (Partial.only_enabled false) ;;
  modify (forgetTimer (Entity.id schedule)).

(** [restoreSchedules]. *)
Definition restoreOne (now : Z) (schedule : Entity.t) : M unit :=
  if negb (Entity.enabled schedule) then ret tt
  else match Entity.type schedule with
       | fixed => startCronJob schedule
       | manual =>
           match Entity.scheduledAt schedule with
           | None => throw TypeError
           | Some scheduledTime =>
               if scheduledTime >? now then startTimer now schedule
               else storage_update (Entity.id schedule) (Partial.only_enabled false) ;;
                    ret tt
           end
       | event => ret tt
       end.

Definition restoreSchedules (now : Z) : M unit :=
  do schedules <- storage_findAll;
  forEach schedules (restoreOne now).

(** [clearAllJobs]: every handle of the two maps is stopped. *)
Definition clearAllJobs : M unit :=
  modify (set_cronJobs (fun _ => ∅)) ;;
  modify (set_timers (fun _ => ∅)).

Definition startDailySummary : M unit := modify (set_dailySummaryJob true).

Definition onModuleInit (now : Z) : M unit :=
  restoreSchedules now ;; startDailySummary.

Definition onModuleDestroy : M unit :=
  clearAllJobs ;; modify (set_dailySummaryJob false).

(** [new Date(s).getTime() <= Date.now()]. *)
Definition parsed_le_now (s : string) (now : Z) : bool :=
  match Date_parse s with
  | Some t => t <=? now
  | None => false
  end.

(** [create]. *)
Definition create (now : Z) (newId : string) (dto : CreateScheduleDto.t) : M Entity.t :=
  (if ScheduleType_eqb (CreateScheduleDto.type dto) manual
      && JSString.truthy_opt (CreateScheduleDto.scheduledAt dto)
      && parsed_le_now (default EmptyString (CreateScheduleDto.scheduledAt dto)) now
   then throw (BadRequestException MustBeFuture) else ret tt) ;;
  do scheduledAt <- dateOrNull (CreateScheduleDto.scheduledAt dto);
  do schedule <- storage_create newId now
    (Draft.mk (CreateScheduleDto.type dto)
              (CreateScheduleDto.name dto)
              (CreateScheduleDto.message dto)
              (JSString.or_else (CreateScheduleDto.chatId dto) defaultChatId)
              true
              (CreateScheduleDto.cron dto)
              scheduledAt
              (CreateScheduleDto.eventTime dto)
              (CreateScheduleDto.description dto));
  (match Entity.type schedule with
   | fixed => startCronJob schedule
   | manual => startTimer now schedule
   | event => ret tt
   end) ;;
  ret schedule.

(** The read-time filter of [findAll]. *)
Definition kstOffset : Z := 9 * 60 * 60 * 1000.

Definition kstMidnightUTC (t : Z) : Z :=
  let kst := t + kstOffset in
  JSDate.UTC (JSDate.getUTCFullYear kst) (JSDate.getUTCMonth kst) (JSDate.getUTCDate kst).

Definition findAllFilter (now : Z) (type chatId : option string) (s : Entity.t) : bool :=
  if JSString.truthy_opt chatId
     && negb (String.eqb (Entity.chatId s) (default EmptyString chatId)) then false
  else if JSString.truthy_opt type
     && negb (String.eqb (typeName (Entity.type s)) (default EmptyString type)) then false
  else if ScheduleType_eqb (Entity.type s) manual
     && match Entity.scheduledAt s with Some t => t <=? now | None => false end then false
  else if ScheduleType_eqb (Entity.type s) event
     && match Entity.scheduledAt s with
        | Some t => negb (kstMidnightUTC t =? kstMidnightUTC now)
        | None => false
        end then false
  else true.

Definition findAll (now : Z) (type chatId : option string) : M (list Entity.t) :=
  do all <- storage_findAll;
  ret (List.filter (findAllFilter now type chatId) all).

(** [findById]. *)
Definition findById (i : string) : M Entity.t :=
  do schedule <- storage_findById i;
  match schedule with
  | Some s => ret s
  | None => throw (NotFoundException i)
  end.

(** [update]. *)
Definition update (now : Z) (i : string) (dto : UpdateScheduleDto.t) : M Entity.t :=
  do existing <- findById i;
  (if JSString.truthy_opt (UpdateScheduleDto.scheduledAt dto)
      && ScheduleType_eqb (Entity.type existing) manual
      && parsed_le_now (default EmptyString (UpdateScheduleDto.scheduledAt dto)) now
   then throw (BadRequestException MustBeFuture) else ret tt) ;;
  stopJob i ;;
  do scheduledAt <- dateIfDefined (UpdateScheduleDto.scheduledAt dto);
  let updateData :=
    Partial.mk (UpdateScheduleDto.name dto) (UpdateScheduleDto.message dto)
               (UpdateScheduleDto.chatId dto) (UpdateScheduleDto.cron dto)
               scheduledAt (UpdateScheduleDto.enabled dto)
               (UpdateScheduleDto.eventTime dto) (UpdateScheduleDto.description dto) in
  do updated <- storage_update i updateData;
  match updated with
  | None => throw (NotFoundException i)
  | Some updated =>
      (if Entity.enabled updated then
         match Entity.type updated with
         | fixed => startCronJob updated
         | manual =>
             if match Entity.scheduledAt updated with
                | Some t => t >? now
                | None => false
                end
             then startTimer now updated
             else storage_update i (Partial.only_enabled false) ;; ret tt
         | event => ret tt
         end
       else ret tt) ;;
      ret updated
  end.

(** [delete]. *)
Definition delete (i : string) : M unit :=
  findById i ;;
  stopJob i ;;
  storage_delete i ;;
  ret tt.

(** [toggleEnabled]. The final [result!] is the row read back by the
    store; the service has just found it, so it is present. *)
Definition toggleEnabled (now : Z) (i : string) : M (option Entity.t) :=
  do schedule <- findById i;
  let newEnabled := negb (Entity.enabled schedule) in
  stopJob i ;;
  (if newEnabled then
     match Entity.type schedule with
     | fixed => startCronJob schedule
     | manual =>
         if match Entity.scheduledAt schedule with
            | Some t => t <=? now
            | None => true
            end
         then throw (BadRequestException CannotReenablePast)
         else startTimer now schedule
     | event => ret tt
     end
   else ret tt) ;;
  storage_update i (Partial.only_enabled newEnabled).

(* ------------------------------------------------------------------- *)
(** *** 4.3 Daily summary aggregator *)
(* ------------------------------------------------------------------- *)

Definition nl : string := String "010"%char EmptyString.

(** [String(n).padStart(2, '0')]. *)
Definition pad (n : jsnum) : string := JSString.padStart 2 "0"%char (JSString.ofNum n).

(** One entry of [todayAlarms] and of [todayEvents]. *)
Record Alarm : Type := {
  alarm_name : string;
  alarm_time : string;
  alarm_eventTime : option string;
  alarm_message : string
}.

Record EventItem : Type := { event_name : string; event_message : string }.

(** [`${ampm} ${h12}:${pad(minute)}`]. *)
Definition timeLabel (hour minute : jsnum) : string :=
  let ampm := if js_lt hour (Num 12) then "오전" else "오후" in
  let h12 := if js_eq hour (Num 0) then Num 12
             else if js_gt hour (Num 12) then js_sub hour (Num 12) else hour in
  ampm +:+ " " +:+ JSString.ofNum h12 +:+ ":" +:+ pad minute.

(** [formatHHmm]. *)
Definition formatHHmm (time : string) : string :=
  let parts := JSString.split ":" time in
  let hourStr := nth 0 parts EmptyString in
  let minuteStr := nth 1 parts "undefined" in
  let h := JSString.Number hourStr in
  let ampm := if js_lt h (Num 12) then "오전" else "오후" in
  let h12 := if js_eq h (Num 0) then Num 12
             else if js_gt h (Num 12) then js_sub h (Num 12) else h in
  ampm +:+ " " +:+ JSString.ofNum h12 +:+ ":" +:+ minuteStr.

(** [truncateStr]. *)
Definition truncateStr (str : string) (max : nat) : string :=
  let oneLine := JSString.replace_newlines str in
  if (max <? JSString.length16 oneLine)%nat
  then JSString.take16 max oneLine +:+ "…" else oneLine.

(** [isDateToday(date, kstNow)]; [kstNow] is already shifted. *)
Definition isDateToday (date kstNow : Z) : bool :=
  let kst := date + kstOffset in
  (JSDate.getUTCFullYear kst =? JSDate.getUTCFullYear kstNow)
  && (JSDate.getUTCMonth kst =? JSDate.getUTCMonth kstNow)
  && (JSDate.getUTCDate kst =? JSDate.getUTCDate kstNow).

(** [a.localeCompare(b)] on time labels: characters are compared by
    collation rank (white space, then punctuation, then digits, then
    letters), the first difference decides, and a proper prefix comes
    first. *)
Definition collationRank (a : ascii) : N * N :=
  let code := N_of_ascii a in
  if JSString.is_space a then (0, code)%N
  else if (code <? 48)%N || ((57 <? code)%N && (code <? 65)%N) then (1, code)%N
  else if (code <? 58)%N then (2, code)%N
  else (3, code)%N.

Definition rank_compare (x y : N * N) : comparison :=
  match N.compare x.1 y.1 with
  | Eq => N.compare x.2 y.2
  | c => c
  end.

Fixpoint localeCompare (a b : string) : comparison :=
  match a, b with
  | EmptyString, EmptyString => Eq
  | EmptyString, String _ _ => Lt
  | String _ _, EmptyString => Gt
  | String x a', String y b' =>
      match rank_compare (collationRank x) (collationRank y) with
      | Eq => localeCompare a' b'
      | c => c
      end
  end.

(** [todayAlarms.sort((a, b) => a.time.localeCompare(b.time))]. *)
Definition alarm_le (a b : Alarm) : bool :=
  match localeCompare (alarm_time a) (alarm_time b) with
  | Gt => false
  | _ => true
  end.

Definition sortAlarms (l : list Alarm) : list Alarm := sortBy alarm_le l.

(** The [Map] from chat id to schedules, in insertion order. *)
Fixpoint groupPush (k : string) (s : Entity.t) (m : list (string * list Entity.t))
  : list (string * list Entity.t) :=
  match m with
  | [] => [(k, [s])]
  | (k', l) :: m' =>
      if String.eqb k' k then (k', l ++ [s]) :: m'
      else (k', l) :: groupPush k s m'
  end.

Definition effectiveChatId (s : Entity.t) : string :=
  JSString.or_else (Some (Entity.chatId s)) defaultChatId.

Definition groupByChatId (enabled : list Entity.t) : list (string * list Entity.t) :=
  fold_left (fun m s => groupPush (effectiveChatId s) s m) enabled [].

Definition summaryMessage (s : Entity.t) : string :=
  truncateStr (JSString.or_else (Entity.description s) (Entity.message s)) 40.

(** The body of the inner loop: what one schedule adds to [todayAlarms]
    and to [todayEvents]. *)
Definition classify (kstNow : Z) (s : Entity.t) : list Alarm * list EventItem :=
  let todayDow := JSDate.getUTCDay kstNow in
  let todayDate := JSDate.getUTCDate kstNow in
  let todayMonth := JSDate.getUTCMonth kstNow + 1 in
  match Entity.type s, Entity.cron s, Entity.scheduledAt s with
  | fixed, Some cron, _ =>
      if JSString.truthy cron then
        if Cron.cronMatchesToday cron todayDow todayDate todayMonth then
          let parts := JSString.split_ws (JSString.trim cron) in
          let hour := JSString.Number (nth 1 parts EmptyString) in
          let minute := JSString.Number (nth 0 parts EmptyString) in
          ([{| alarm_name := Entity.name s;
               alarm_time := timeLabel hour minute;
               alarm_eventTime := Entity.eventTime s;
               alarm_message := summaryMessage s |}], [])
        else ([], [])
      else ([], [])
  | manual, _, Some scheduledAt =>
      if isDateToday scheduledAt kstNow then
        let kstScheduled := scheduledAt + kstOffset in
        let hour := Num (JSDate.getUTCHours kstScheduled) in
        let minute := Num (JSDate.getUTCMinutes kstScheduled) in
        ([{| alarm_name := Entity.name s;
             alarm_time := timeLabel hour minute;
             alarm_eventTime := Entity.eventTime s;
             alarm_message := summaryMessage s |}], [])
      else ([], [])
  | event, _, Some scheduledAt =>
      if isDateToday scheduledAt kstNow then
        ([], [{| event_name := Entity.name s; event_message := summaryMessage s |}])
      else ([], [])
  | _, _, _ => ([], [])
  end.

Definition todayAlarms (kstNow : Z) (schedules : list Entity.t) : list Alarm :=
  flat_map (fun s => (classify kstNow s).1) schedules.

Definition todayEvents (kstNow : Z) (schedules : list Entity.t) : list EventItem :=
  flat_map (fun s => (classify kstNow s).2) schedules.

Definition dayNames : list string := ["일"; "월"; "화"; "수"; "목"; "금"; "토"].

Definition dateHeader (kstNow : Z) : string :=
  JSString.ofZ (JSDate.getUTCFullYear kstNow) +:+ "-"
  +:+ pad (Num (JSDate.getUTCMonth kstNow + 1)) +:+ "-"
  +:+ pad (Num (JSDate.getUTCDate kstNow))
  +:+ " (" +:+ nth (Z.to_nat (JSDate.getUTCDay kstNow)) dayNames "undefined" +:+ ")".

(** One numbered line of the alarm list; [i] is the array index. *)
Definition alarmLine (i : nat) (item : Alarm) : string :=
  let line := JSString.ofZ (Z.of_nat i + 1) +:+ ". <b>" +:+ alarm_name item +:+ "</b>" in
  match alarm_eventTime item with
  | Some et =>
      if JSString.truthy et then line +:+ nl +:+ "   ⏰ " +:+ formatHHmm et
      else line +:+ nl +:+ "   ⏰ " +:+ alarm_time item
  | None => line +:+ nl +:+ "   ⏰ " +:+ alarm_time item
  end.

Definition rule : string := "━━━━━━━━━━━━━━━━━━━━".

(** The digest of one group, given its sorted alarms and its events. *)
Definition digestText (kstNow : Z) (alarms : list Alarm) (events : list EventItem) : string :=
  let nAlarms := JSString.ofZ (Z.of_nat (length alarms)) in
  let nEvents := JSString.ofZ (Z.of_nat (length events)) in
  let text := "📆 <b>오늘의 알림 요약</b>" +:+ nl in
  let text := text +:+ "📅 " +:+ dateHeader kstNow +:+ nl in
  let text := text +:+ rule +:+ nl in
  let text :=
    match events with
    | [] => text
    | _ => text +:+ nl +:+ "🗓 <b>오늘의 이벤트</b>" +:+ nl +:+ nl
           +:+ JSString.join nl
                 (map (fun ev => "📌 <b>" +:+ event_name ev +:+ "</b>") events)
           +:+ nl
    end in
  let text :=
    match alarms with
    | [] => text
    | _ => text +:+ nl +:+ "🔔 <b>예정된 알림</b> (" +:+ nAlarms +:+ "건)" +:+ nl +:+ nl
           +:+ JSString.join (nl +:+ nl) (imap alarmLine alarms)
    end in
  text +:+ nl +:+ nl +:+ rule +:+ nl +:+ "총 <b>"
    +:+ JSString.ofZ (Z.of_nat (length alarms + length events)) +:+ "건</b> (알림 "
    +:+ nAlarms +:+ ", 이벤트 " +:+ nEvents +:+ ")".

(** The body of the outer loop: the digest of one chat, or nothing when
    no record of the group qualifies. *)
Definition groupDigest (kstNow : Z) (schedules : list Entity.t) : option string :=
  let alarms := todayAlarms kstNow schedules in
  let events := todayEvents kstNow schedules in
  match alarms, events with
  | [], [] => None
  | _, _ => Some (digestText kstNow (sortAlarms alarms) events)
  end.

Definition sendDigest (send : Dispatcher) (kstNow : Z)
    (group : string * list Entity.t) : M unit :=
  match groupDigest kstNow group.2 with
  | None => ret tt
  | Some text =>
      modify (set_outbox (fun o =>
        o ++ [{| sent_chatId := group.1; sent_text := text;
                 sent_ok := send group.1 text |}]))
  end.

(** [sendDailySummary]. *)
Definition sendDailySummary (send : Dispatcher) (now : Z) : M unit :=
  do all <- storage_findAll;
  let enabled := List.filter Entity.enabled all in
  let byChatId := groupByChatId enabled in
  let kstNow := now + kstOffset in
  forEach byChatId (sendDigest send kstNow).

End Service.
End ScheduleService.

(* ===================================================================== *)
(** ** The service as a transition system *)
(* ===================================================================== *)

(** The public operations, the lifecycle hooks and the callbacks that the
    runtime invokes. *)
Inductive Op : Type :=
| OpCreate (newId : string) (dto : CreateScheduleDto.t)
| OpFindAll (type chatId : option string)
| OpUpdate (id : string) (dto : UpdateScheduleDto.t)
| OpDelete (id : string)
| OpToggleEnabled (id : string)
| OpRestoreOnStart
| OpShutdown
| OpTimerFire (id : string)
| OpCronTick (id : string)
| OpDailySummary
| OpStrayTimerFire (n : nat)
| OpStrayCronTick (n : nat).

Definition isRestore (op : Op) : bool :=
  match op with
  | OpRestoreOnStart => true
  | _ => false
  end.

(** The primary key generated for a new row is not in the table. *)
Definition admissible (st : State) (op : Op) : Prop :=
  match op with
  | OpCreate newId _ => Storage.findById (store st) newId = None
  | _ => True
  end.

(** A process starts with an empty registry over whatever the store holds. *)
Definition initial (rows : list Entity.t) : State := mkState rows ∅ ∅ false [] [] [].

Section Transitions.
Context {env : Env}.

(** The state after an operation, whether it returned or threw. A
    timeout that fires stops being pending: it leaves the map, or the
    strays, before its callback runs. The last two callbacks are those of
    the [n]-th stray timeout and the [n]-th stray job. *)
Definition exec (send : Dispatcher) (now : Z) (op : Op) (st : State) : State :=
  match op with
  | OpCreate newId dto => (ScheduleService.create now newId dto st).1
  | OpFindAll type chatId => (ScheduleService.findAll now type chatId st).1
  | OpUpdate i dto => (ScheduleService.update now i dto st).1
  | OpDelete i => (ScheduleService.delete i st).1
  | OpToggleEnabled i => (ScheduleService.toggleEnabled now i st).1
  | OpRestoreOnStart => (ScheduleService.restoreSchedules now st).1
  | OpShutdown => (ScheduleService.onModuleDestroy st).1
  | OpTimerFire i =>
      match timers st !! i with
      | Some tm =>
          (ScheduleService.timerFire send (timer_schedule tm)
             (set_timers (delete i) st)).1
      | None => st
      end
  | OpCronTick i =>
      match cronJobs st !! i with
      | Some job => (ScheduleService.cronTick send (job_schedule job) st).1
      | None => st
      end
  | OpDailySummary => (ScheduleService.sendDailySummary send now st).1
  | OpStrayTimerFire n =>
      match strayTimers st !! n with
      | Some tm =>
          (ScheduleService.timerFire send (timer_schedule tm)
             (set_strayTimers (delete n) st)).1
      | None => st
      end
  | OpStrayCronTick n =>
      match strayJobs st !! n with
      | Some job => (ScheduleService.cronTick send (job_schedule job) st).1
      | None => st
      end
  end.

(** Every state that any sequence of operations and callbacks can reach,
    [restoreSchedules] included at any point. *)
Inductive reachable : State -> Prop :=
| reachable_initial rows :
    NoDup (map Entity.id rows) -> reachable (initial rows)
| reachable_step st send now op :
    reachable st -> admissible st op -> reachable (exec send now op st).

(** The states of a running service: [onModuleInit] ran once on the
    initial state, and [restoreSchedules] is not run again. *)
Inductive serving : State -> Prop :=
| serving_init rows now :
    NoDup (map Entity.id rows) -> serving (ScheduleService.onModuleInit now (initial rows)).1
| serving_step st send now op :
    serving st -> isRestore op = false -> admissible st op ->
    serving (exec send now op st).

(** Nothing runs outside the two maps. *)
Definition noStrays (st : State) : Prop := strayJobs st = [] /\ strayTimers st = [].

(** A live entry of the registry is backed by a stored row of the right
    type (and, when [strict], by an enabled one). *)
Definition backed (strict : bool) (ty : ScheduleType) (rows : list Entity.t) (i : string) : Prop :=
  exists e, Storage.findById rows i = Some e /\ Entity.type e = ty
            /\ (strict = true -> Entity.enabled e = true).

Definition InvC (strict : bool) (rows : list Entity.t)
    (jobs : gmap string CronJob) (tms : gmap string Timer) : Prop :=
  NoDup (map Entity.id rows)
  /\ (forall i job, jobs !! i = Some job ->
        Entity.id (job_schedule job) = i /\ backed strict fixed rows i)
  /\ (forall i tm, tms !! i = Some tm ->
        Entity.id (timer_schedule tm) = i /\ backed strict manual rows i).

Definition Inv (strict : bool) (st : State) : Prop :=
  InvC strict (store st) (cronJobs st) (timers st).

(** The rows that [restoreSchedules] registers, expires, or trips over. *)
Definition registersJob (e : Entity.t) : bool :=
  Entity.enabled e && ScheduleType_eqb (Entity.type e) fixed && cronAccepts (Entity.cron e).

Definition registersTimer (now : Z) (e : Entity.t) : bool :=
  Entity.enabled e && ScheduleType_eqb (Entity.type e) manual
  && match Entity.scheduledAt e with Some t => t >? now | None => false end.

Definition expires (now : Z) (e : Entity.t) : bool :=
  Entity.enabled e && ScheduleType_eqb (Entity.type e) manual
  && match Entity.scheduledAt e with Some t => t <=? now | None => false end.

Definition restorable (e : Entity.t) : bool :=
  negb (Entity.enabled e && ScheduleType_eqb (Entity.type e) manual
        && match Entity.scheduledAt e with Some _ => false | None => true end).

Definition isEnabledFixed (e : Entity.t) : bool :=
  Entity.enabled e && ScheduleType_eqb (Entity.type e) fixed.

(** The effect of the restore loop on each component of the state. *)
Definition jobsAfter (l : list Entity.t) (m : gmap string CronJob) : gmap string CronJob :=
  fold_left (fun m e => if registersJob e
                        then <[Entity.id e := {| job_schedule := e |}]> m else m) l m.

Definition timersAfter (now : Z) (l : list Entity.t) (m : gmap string Timer) : gmap string Timer :=
  fold_left (fun m e =>
    if registersTimer now e
    then <[Entity.id e := {| timer_schedule := e;
                             timer_delay :=
                               setTimeoutDelay (default 0 (Entity.scheduledAt e) - now) |}]> m
    else m) l m.

Definition storeAfter (now : Z) (l : list Entity.t) (rows : list Entity.t) : list Entity.t :=
  fold_left (fun rows e =>
    if expires now e
    then (Storage.updateRows rows (Entity.id e) (Partial.only_enabled false)).1
    else rows) l rows.

(** The handles that the restore loop leaves running outside the maps:
    those that the maps held for an id when the loop registered a new
    one under it. *)
Fixpoint strayJobsAfter (l : list Entity.t) (m : gmap string CronJob)
    (strays : list CronJob) : list CronJob :=
  match l with
  | [] => strays
  | e :: l' =>
      strayJobsAfter l' (jobsAfter [e] m)
        (if registersJob e then strays ++ option_list (m !! Entity.id e) else strays)
  end.

Fixpoint strayTimersAfter (now : Z) (l : list Entity.t) (m : gmap string Timer)
    (strays : list Timer) : list Timer :=
  match l with
  | [] => strays
  | e :: l' =>
      strayTimersAfter now l' (timersAfter now [e] m)
        (if registersTimer now e then strays ++ option_list (m !! Entity.id e) else strays)
  end.

(** The messages one daily-summary run hands to the dispatcher, group by
    group. *)
Definition digests (send : Dispatcher) (kstNow : Z)
    (groups : list (string * list Entity.t)) : list Sent :=
  flat_map (fun g =>
    match ScheduleService.groupDigest kstNow g.2 with
    | Some text => [{| sent_chatId := g.1; sent_text := text; sent_ok := send g.1 text |}]
    | None => []
    end) groups.

(** A schedule qualifies for today's digest. *)
Definition firesToday (kstNow : Z) (s : Entity.t) : bool :=
  match Entity.type s, Entity.cron s, Entity.scheduledAt s with
  | fixed, Some cron, _ =>
      JSString.truthy cron
      && Cron.cronMatchesToday cron (JSDate.getUTCDay kstNow) (JSDate.getUTCDate kstNow)
           (JSDate.getUTCMonth kstNow + 1)
  | manual, _, Some scheduledAt => ScheduleService.isDateToday scheduledAt kstNow
  | event, _, Some scheduledAt => ScheduleService.isDateToday scheduledAt kstNow
  | _, _, _ => false
  end.

(** The schedules of one destination, and the group filed under a key. *)
Definition groupOf (chat : string) (l : list Entity.t) : list Entity.t :=
  List.filter (fun s => String.eqb (ScheduleService.effectiveChatId s) chat) l.

Definition lookupGroup (chat : string) (groups : list (string * list Entity.t))
  : list Entity.t :=
  match find (fun g => String.eqb g.1 chat) groups with
  | Some g => g.2
  | None => []
  end.

Definition sentTo (chat : string) (l : list Sent) : list Sent :=
  List.filter (fun m => String.eqb (sent_chatId m) chat) l.

(** The read-time visibility rule as the specification states it, and as
    the service applies it. *)
Definition kstDay (t : Z) : Z := JSDate.Day (t + ScheduleService.kstOffset).






Definition passesFilters (type chatId : option string) (s : Entity.t) : bool :=
  match chatId with
  | Some c => negb (JSString.truthy c) || String.eqb (Entity.chatId s) c
  | None => true
  end
  && match type with
     | Some ty => negb (JSString.truthy ty) || String.eqb (typeName (Entity.type s)) ty
     | None => true
     end.

Definition elapsed (now : Z) (s : Entity.t) : bool :=
  match Entity.scheduledAt s with
  | Some t => t <=? now
  | None => false
  end.

Definition hidden_as_specified (now : Z) (s : Entity.t) : bool :=
  match Entity.type s with
  | manual => elapsed now s && negb (Entity.enabled s)
  | event =>
      match Entity.scheduledAt s with
      | Some t => negb (kstDay t =? kstDay now)
      | None => false
      end
  | fixed => false
  end.

Definition hidden_as_implemented (now : Z) (s : Entity.t) : bool :=
  match Entity.type s with
  | manual => elapsed now s
  | event =>
      match Entity.scheduledAt s with
      | Some t => negb (kstDay t =? kstDay now)
      | None => false
      end
  | fixed => false
  end.

End Transitions.

(* ===================================================================== *)
(** ** Further string primitives *)
(* ===================================================================== *)

(** A [string] holds the UTF-8 bytes of the text, so prefix and substring
    tests agree with JavaScript on well-formed text. *)
Module JSText.

(** [s.startsWith(p)]. *)
Fixpoint startsWith (p s : string) : bool :=
  match p, s with
  | EmptyString, _ => true
  | String _ _, EmptyString => false
  | String a p', String b s' => Ascii.eqb a b && startsWith p' s'
  end.

(** [s.includes(needle)]. *)
Fixpoint includes (needle s : string) : bool :=
  startsWith needle s ||
  match s with
  | EmptyString => false
  | String _ s' => includes needle s'
  end.

(** [s.slice(n)] where the first [n] code units of [s] are single bytes or
    a whole prefix of [s]: the rest of the string. *)
Fixpoint slice (n : nat) (s : string) : string :=
  match n, s with
  | O, _ => s
  | S _, EmptyString => EmptyString
  | S k, String _ s' => slice k s'
  end.

(** Every byte of [s] is an ASCII character, so that lengths and offsets
    in bytes and in code units coincide. *)
Definition isAscii (s : string) : bool :=
  JSString.every (fun a => (N_of_ascii a <? 128)%N) s.

End JSText.

(* ===================================================================== *)
(** ** Telegram list commands ([ScheduleBotUpdate]) *)
(* ===================================================================== *)

Module ScheduleBotUpdate.
Import JSString.

(** The [dayNames] record of [describeDayOfWeek]; a key other than its
    eight own ones is [undefined] (names inherited from [Object.prototype]
    are not cron syntax and stay outside the model). *)
Definition dayNames : list (string * string) :=
  [("0", "일"); ("1", "월"); ("2", "화"); ("3", "수");
   ("4", "목"); ("5", "금"); ("6", "토"); ("7", "일")].

Fixpoint lookupName (l : list (string * string)) (key : string) : option string :=
  match l with
  | [] => None
  | (k, v) :: l' => if String.eqb k key then Some v else lookupName l' key
  end.

(** [dayNames[key] ?? key]. *)
Definition nameOr (key : string) : string := default key (lookupName dayNames key).

(** [describeDayOfWeek]. *)
Definition describeDayOfWeek (field : string) : string :=
  if String.eqb field "*" then "매일"
  else if includes "-" field then
    let ps := split "-" field in
    let s := nameOr (nth 0 ps EmptyString) in
    let e := nameOr (nth 1 ps EmptyString) in
    if String.eqb s "월" && String.eqb e "금" then "평일(월~금)"
    else "매주 " +:+ s +:+ "~" +:+ e +:+ "요일"
  else if includes "," field then
    let days := map (fun d => nameOr (trim d)) (split "," field) in
    "매주 " +:+ join ", " (map (fun d => d +:+ "요일") days)
  else
    match lookupName dayNames field with
    | Some name => "매주 " +:+ name +:+ "요일"
    | None => field
    end.

(** [describeCron]. *)
Definition describeCron (cron : string) : string :=
  let parts := split_ws (trim cron) in
  if (length parts <? 5)%nat then cron
  else
    let minute := nth 0 parts EmptyString in
    let hour := nth 1 parts EmptyString in
    let dayOfWeek := nth 4 parts EmptyString in
    let timeStr := padStart 2 "0"%char hour +:+ ":" +:+ padStart 2 "0"%char minute in
    let dayStr := describeDayOfWeek dayOfWeek in
    dayStr +:+ " " +:+ timeStr.

(** [String(n).padStart(2, '0')]. *)
Definition pad (n : Z) : string := padStart 2 "0"%char (ofZ n).

(** [formatDate]: the instant on the Seoul wall clock. *)
Definition formatDate (date : Z) : string :=
  let kst := date + 9 * 60 * 60 * 1000 in
  let dayNames := ["일"; "월"; "화"; "수"; "목"; "금"; "토"] in
  let day := nth (Z.to_nat (JSDate.getUTCDay kst)) dayNames "undefined" in
  let hour := JSDate.getUTCHours kst in
  let ampm := if hour <? 12 then "오전" else "오후" in
  let h12 := if hour =? 0 then 12 else if hour >? 12 then hour - 12 else hour in
  let minute := JSDate.getUTCMinutes kst in
  ofZ (JSDate.getUTCFullYear kst) +:+ "-" +:+ pad (JSDate.getUTCMonth kst + 1)
    +:+ "-" +:+ pad (JSDate.getUTCDate kst) +:+ " (" +:+ day +:+ ") "
    +:+ ampm +:+ " " +:+ ofZ h12 +:+ ":" +:+ pad minute.

(** [formatRemaining]; [now] is [new Date().getTime()] and [None] is
    [null]. *)
Definition formatRemaining (now date : Z) : option string :=
  let diff := date - now in
  if diff <=? 0 then None
  else
    let totalMinutes := diff / 60000 in
    let days := totalMinutes / 1440 in
    let hours := Z.rem totalMinutes 1440 / 60 in
    let minutes := Z.rem totalMinutes 60 in
    let parts :=
      (if days >? 0 then [ofZ days +:+ "일"] else [])
      ++ (if hours >? 0 then [ofZ hours +:+ "시간"] else [])
      ++ (if (minutes >? 0) && (days =? 0) then [ofZ minutes +:+ "분"] else []) in
    Some (if (0 <? length parts)%nat then join " " parts +:+ " 남음" else "곧 발송").

End ScheduleBotUpdate.

(* ===================================================================== *)
(** ** Group chats: which updates reach the command handlers *)
(* ===================================================================== *)

Module BotUpdate.
Import JSString.

(** What the middleware reads of an update: [ctx.chat?.type], the text of
    [ctx.message] when it is a text message, and [ctx.botInfo?.username]. *)
Record Context : Type := {
  chatType : option string;
  messageText : option string;
  botUsername : option string
}.

Record MessageEntity : Type := {
  entity_type : string;
  entity_offset : nat;
  entity_length : nat
}.

(** How the middleware ends: [next()] on the update as received, [next()]
    after the text and entities of the message were replaced, or a return
    without [next()]. *)
Inductive Outcome : Type :=
| Pass
| Rewritten (text : string) (entities : list MessageEntity)
| Dropped.

(** [BotUpdate.onUse]. *)
Definition onUse (ctx : Context) : Outcome :=
  if match chatType ctx with Some t => String.eqb t "private" | None => false end
  then Pass
  else match messageText ctx with
  | None => Pass
  | Some received =>
    if negb (truthy received) then Pass
    else if negb (truthy_opt (botUsername ctx)) then Pass
    else
      let botUsername := default EmptyString (botUsername ctx) in
      let text := trim received in
      let mentionTag := "@" +:+ botUsername in
      if JSText.startsWith mentionTag text then
        let afterMention := trim (JSText.slice (String.length mentionTag) text) in
        if negb (truthy afterMention) then Dropped
        else
          let commandName :=
            if JSText.startsWith "/" afterMention then JSText.slice 1 afterMention
            else afterMention in
          let rewritten := "/" +:+ commandName +:+ "@" +:+ botUsername in
          Rewritten rewritten
            [{| entity_type := "bot_command"; entity_offset := 0;
                entity_length := JSString.length16 rewritten |}]
      else if JSText.startsWith "/" text && negb (JSText.includes mentionTag text)
      then Dropped
      else Pass
  end.

(** [groupCommandMiddleware]. *)
Definition groupCommandMiddleware (ctx : Context) : Outcome :=
  if match chatType ctx with Some t => String.eqb t "private" | None => false end
  then Pass
  else match messageText ctx with
  | None => Pass
  | Some text =>
    if negb (truthy text) then Pass
    else if JSText.startsWith "/" text then
      let botUsername := botUsername ctx in
      if truthy_opt botUsername
         && negb (JSText.includes ("@" +:+ default EmptyString botUsername) text)
      then Dropped
      else Pass
    else Pass
  end.

(** The text the command handlers see after the middleware let the update
    through. *)
Definition visibleText (received : string) (o : Outcome) : option string :=
  match o with
  | Pass => Some received
  | Rewritten text _ => Some text
  | Dropped => None
  end.

End BotUpdate.

(* ===================================================================== *)
(** ** Immediate notifications ([NotificationService]) *)
(* ===================================================================== *)

Module SendMessageDto.
Record t : Type := mk {
  message : string;
  chatId : option string
}.
End SendMessageDto.

Module BotService.

(** What a rejected [bot.telegram.sendMessage] throws. *)
Inductive TelegramError : Type := telegramError.

(** [sendMessage(chatId, message)]: the call reaches the dispatcher and is
    recorded in the outbox; it rejects when the dispatcher does. *)
Definition sendMessage (send : Dispatcher) (chatId message : string) (o : list Sent)
  : list Sent * (TelegramError + unit) :=
  (o ++ [{| sent_chatId := chatId; sent_text := message;
            sent_ok := send chatId message |}],
   if send chatId message then inr tt else inl telegramError).

End BotService.

Module NotificationService.
Section Service.
Context {env : Env}.

Record Sending : Type := { success : bool; chatId : string }.

(** [sendNotification]: the service holds no state of its own; it acts on
    the outbox only. A failure is logged and thrown again. *)
Definition sendNotification (send : Dispatcher) (dto : SendMessageDto.t) (o : list Sent)
  : list Sent * (BotService.TelegramError + Sending) :=
  let chatId := JSString.or_else (SendMessageDto.chatId dto) defaultChatId in
  match BotService.sendMessage send chatId (SendMessageDto.message dto) o with
  | (o', inr _) => (o', inr {| success := true; chatId := chatId |})
  | (o', inl error) => (o', inl error)
  end.

End Service.
End NotificationService.

(* ===================================================================== *)
(** ** Vocabulary of the further properties *)
(* ===================================================================== *)

(** [a] was created no later than [b]. *)
Definition olderOrSame (a b : Entity.t) : Prop :=
  Entity.createdAt a <= Entity.createdAt b.

(** The callbacks that the runtime invokes, as opposed to the operations
    a client requests and the lifecycle hooks. *)
Definition isCallback (op : Op) : bool :=
  match op with
  | OpTimerFire _ | OpCronTick _ | OpDailySummary
  | OpStrayTimerFire _ | OpStrayCronTick _ => true
  | _ => false
  end.

(** A computation keeps a property of the state, whether it returns or
    throws. *)
Definition keeps {A} (P : State -> Prop) (c : M A) : Prop :=
  forall st, P st -> P (c st).1.

(** A property that does not read the store; the store calls keep it. *)
Definition storeBlind (P : State -> Prop) : Prop :=
  forall st f, P st -> P (set_store f st).

(** The outbox holds exactly [o]. *)
Definition outboxIs (o : list Sent) (st : State) : Prop := outbox st = o.

Section Vocabulary.
Context {env : Env}.

(** What a live entry captured: a recurring job holds a Fixed schedule
    whose cron source the job constructor accepted; a one-shot timer holds
    a Manual schedule with a scheduled instant and was armed with a
    strictly positive delay. Both are filed under the id they captured. *)
Definition jobWellFormed (i : string) (job : CronJob) : Prop :=
  Entity.id (job_schedule job) = i
  /\ Entity.type (job_schedule job) = fixed
  /\ cronAccepts (Entity.cron (job_schedule job)) = true.

Definition timerWellFormed (i : string) (tm : Timer) : Prop :=
  Entity.id (timer_schedule tm) = i
  /\ Entity.type (timer_schedule tm) = manual
  /\ is_Some (Entity.scheduledAt (timer_schedule tm))
  /\ 0 < timer_delay tm.

Definition registryWellFormed (st : State) : Prop :=
  (forall i job, cronJobs st !! i = Some job -> jobWellFormed i job)
  /\ (forall i tm, timers st !! i = Some tm -> timerWellFormed i tm).

End Vocabulary.

(** The columns [update] writes for a body [dto] whose [scheduledAt], if
    present, was read as the instant [scheduledAt]. *)
Definition updateData (dto : UpdateScheduleDto.t) (scheduledAt : option Z) : Partial.t :=
  Partial.mk (UpdateScheduleDto.name dto) (UpdateScheduleDto.message dto)
             (UpdateScheduleDto.chatId dto) (UpdateScheduleDto.cron dto)
             scheduledAt (UpdateScheduleDto.enabled dto)
             (UpdateScheduleDto.eventTime dto) (UpdateScheduleDto.description dto).

(** The call the dispatcher receives when the schedule [s] is due. *)
Definition dueMessage {env : Env} (send : Dispatcher) (s : Entity.t) : Sent :=
  {| sent_chatId := ScheduleService.effectiveChatId s;
     sent_text := Entity.message s;
     sent_ok := send (ScheduleService.effectiveChatId s) (Entity.message s) |}.

(** A six-field expression in concrete syntax. *)
Definition cron6 (f1 w1 f2 w2 f3 w3 f4 w4 f5 w5 f6 : string) : string :=
  f1 +:+ w1 +:+ f2 +:+ w2 +:+ f3 +:+ w3 +:+ f4 +:+ w4 +:+ f5 +:+ w5 +:+ f6.

(** The text [HH:mm] of a wall-clock time. *)
Definition clockText (hour minute : Z) : string :=
  ScheduleService.pad (Num hour) +:+ ":" +:+ ScheduleService.pad (Num minute).

(** A text with no blank at either end. *)
Definition noOuterBlank (c : string) : Prop :=
  JSString.trimStart c = c /\ JSString.trimEnd c = c /\ c <> EmptyString.

(** The chat is a group: [ctx.chat?.type] is not ['private']. *)
Definition inGroup (ctx : BotUpdate.Context) : Prop :=
  BotUpdate.chatType ctx <> Some "private".

(* ===================================================================== *)
(** ** The registry of a running service: vocabulary *)
(* ===================================================================== *)

Section RunningService.
Context {env : Env}.

(** The body of a PATCH request names no property. *)
Definition emptyBody (dto : UpdateScheduleDto.t) : bool :=
  match dto with
  | UpdateScheduleDto.mk None None None None None None None None => true
  | _ => false
  end.





End RunningService.

(* ===================================================================== *)
(** ** Worked data *)
(* ===================================================================== *)

(** A concrete environment and a few rows, used to run the model. The
    cron acceptor only counts fields, and the date parser knows the
    timestamps below; both stand for the external primitives. *)
Module Demo.

(** 2026-11-02T00:00:00Z, a Monday, 09:00 in Seoul. *)
Definition now : Z := 1793577600000.

Definition dates : list (string * Z) :=
  [("2026-11-02T09:10:00+09:00", now + 600000);
   ("2026-11-01T09:00:00+09:00", now - 86400000);
   ("2026-11-03T09:00:00+09:00", now + 86400000)].

Fixpoint lookupDate (l : list (string * Z)) (s : string) : option Z :=
  match l with
  | [] => None
  | (k, t) :: l' => if String.eqb k s then Some t else lookupDate l' s
  end.

Definition accepts (c : option string) : bool :=
  match c with
  | Some s =>
      let n := length (JSString.split_ws (JSString.trim s)) in
      (n =? 5)%nat || (n =? 6)%nat
  | None => false
  end.

Definition env : Env :=
  {| defaultChatId := "100"; cronAccepts := accepts; Date_parse := lookupDate dates |}.

Definition delivered : Dispatcher := fun _ _ => true.
Definition undelivered : Dispatcher := fun _ _ => false.

Definition fixedRow (i cron : string) : Entity.t :=
  Entity.mk i fixed i "ping" "C1" true 0 (Some cron) None None None.

Definition manualRow (i : string) (at_ : Z) (enabled : bool) : Entity.t :=
  Entity.mk i manual i "ping" "C1" enabled 0 None (Some at_) None None.

(** Scenario C of the specification. *)
Definition scenarioC (cron : string) : list Entity.t :=
  [fixedRow "f1" cron; fixedRow "f2" cron; fixedRow "f3" cron;
   manualRow "m1" (now + 600000) true; manualRow "m2" (now - 86400000) true].

Definition restored : State :=
  exec (env := env) delivered now OpRestoreOnStart (initial (scenarioC "0 9 * * 1-5")).

(** A running service holding one pending and one elapsed, disabled
    one-shot schedule. *)
Definition served : State :=
  (ScheduleService.onModuleInit (env := env) now
     (initial [manualRow "m1" (now + 600000) true;
               manualRow "m3" (now - 86400000) false])).1.

Definition pastCreate : CreateScheduleDto.t :=
  CreateScheduleDto.mk manual "late" "ping" None None
    (Some "2026-11-01T09:00:00+09:00") None None.

Definition pastUpdate : UpdateScheduleDto.t :=
  UpdateScheduleDto.mk None None None None
    (Some "2026-11-01T09:00:00+09:00") None None None.

Definition badCronCreate : CreateScheduleDto.t :=
  CreateScheduleDto.mk fixed "broken" "ping" (Some "C1") (Some "every morning")
    None None None.

(** Two recurring alarms of one chat, at 09:00 and at 10:00. *)
Definition twoAlarms : State :=
  initial [fixedRow "standup" "0 9 * * *"; fixedRow "review" "0 10 * * *"].

(** An enabled one-shot schedule whose instant has passed. *)
Definition overdue : State := initial [manualRow "m2" (now - 86400000) true].

End Demo.

(** Further rows and request bodies, over the environment of [Demo]. *)
Module Sample.

Definition draft : Draft.t :=
  Draft.mk fixed "stand-up" "ping" "C1" true (Some "0 9 * * 1-5") None None None.

Definition rows : list Entity.t :=
  [Demo.fixedRow "f1" "0 9 * * 1-5";
   Demo.manualRow "m1" (Demo.now + 600000) true;
   Demo.manualRow "m3" (Demo.now - 86400000) false].

(** A running service over [rows]. *)
Definition running : State :=
  (ScheduleService.onModuleInit (env := Demo.env) Demo.now (initial rows)).1.


(** A one-shot schedule ten minutes ahead. *)
Definition futureCreate : CreateScheduleDto.t :=
  CreateScheduleDto.mk manual "soon" "ping" (Some "C2") None
    (Some "2026-11-02T09:10:00+09:00") None None.

(** A new name and message, and a body that only sets [enabled]. *)
Definition rename : UpdateScheduleDto.t :=
  UpdateScheduleDto.mk (Some "renamed") (Some "pong") None None None None None None.

Definition reenable : UpdateScheduleDto.t :=
  UpdateScheduleDto.mk None None None None None (Some true) None None.

(** A text message in a group chat, read by the bot [alarm_bot]. *)
Definition groupText (text : string) : BotUpdate.Context :=
  {| BotUpdate.chatType := Some "group";
     BotUpdate.messageText := Some text;
     BotUpdate.botUsername := Some "alarm_bot" |}.

End Sample.

(* ===================================================================== *)
(** * Properties *)
(* ===================================================================== *)

(** ** Strings, numerals and the cron interpreter *)

Section CronFacts.
Import JSString Cron.

Lemma append_empty_r s : s +:+ "" = s.
Proof.
  induction s as [|a s IH]; [done|].
  change (String a (s +:+ "") = String a s). by rewrite IH.
Qed.

Lemma every_app P a b : every P (a +:+ b) = every P a && every P b.
Proof. induction a as [|c a IH]; simpl; [done|]. rewrite IH. by rewrite andb_assoc. Qed.

Lemma includes_app c a b : includes c (a +:+ b) = includes c a || includes c b.
Proof. induction a as [|x a IH]; simpl; [done|]. rewrite IH. by rewrite orb_assoc. Qed.

Lemma every_not_includes P c s : P c = false -> every P s = true -> includes c s = false.
Proof.
  intros Hc. induction s as [|a s IH]; simpl; [done|].
  intros [Ha Hs]%andb_true_iff. rewrite (IH Hs), orb_false_r.
  destruct (Ascii.eqb_spec a c) as [->|]; [congruence|done].
Qed.

Lemma every_impl (P Q : ascii -> bool) s :
  (forall a, P a = true -> Q a = true) -> every P s = true -> every Q s = true.
Proof.
  intros HPQ. induction s as [|a s IH]; simpl; [done|].
  intros [Ha Hs]%andb_true_iff. rewrite (HPQ _ Ha), (IH Hs). done.
Qed.

(** *** White space *)

(** The white space characters of more than one byte start with a byte
    that is no ASCII character, and none of their bytes is one. *)
Lemma is_space2_bytes a b :
  is_space2 a b = true ->
  is_space a = false /\ is_word_char a = false /\ is_word_char b = false.
Proof.
  unfold is_space2, is_word_char. intros [Ha Hb]%andb_true_iff.
  apply N.eqb_eq in Ha, Hb.
  assert (a = "194"%char) as -> by (by rewrite <- (ascii_N_embedding a), Ha).
  assert (b = "160"%char) as -> by (by rewrite <- (ascii_N_embedding b), Hb).
  done.
Qed.

Lemma is_space3_bytes a b c :
  is_space3 a b c = true ->
  is_space a = false /\ is_space2 a b = false
  /\ is_word_char a = false /\ is_word_char b = false /\ is_word_char c = false.
Proof.
  unfold is_space3, is_space2, is_word_char. cbv zeta. intros H.
  assert ((192 <=? N_of_ascii a)%N = true /\ (N_of_ascii a =? 194)%N = false
          /\ (128 <=? N_of_ascii b)%N = true /\ (128 <=? N_of_ascii c)%N = true)
    as (Ha & Ha' & Hb & Hc).
  { repeat match type of H with
           | (_ || _)%bool = true => apply orb_true_iff in H as [H|H]
           | (_ && _)%bool = true => apply andb_true_iff in H as [H ?]
           end;
    repeat match goal with
           | H : (_ =? _)%N = true |- _ => apply N.eqb_eq in H
           | H : (_ <=? _)%N = true |- _ => apply N.leb_le in H
           | H : (_ || _)%bool = true |- _ => apply orb_true_iff in H as [H|H]
           | H : (_ && _)%bool = true |- _ => apply andb_true_iff in H as [H ?]
           end;
    repeat split; first [apply N.leb_le; lia | apply N.eqb_neq; lia]. }
  apply N.leb_le in Ha, Hb, Hc.
  assert (forall x, (128 <= N_of_ascii x)%N -> is_space x = false) as Hsp.
  { intros x Hx. destruct x as [[] [] [] [] [] [] [] []]; try done; vm_compute in Hx; done. }
  rewrite Ha'. split; [apply Hsp; lia|]. split; [done|].
  repeat split; apply andb_false_iff; left; apply N.ltb_ge; lia.
Qed.

Lemma word_char_no_space a :
  is_word_char a = true ->
  is_space a = false /\ (forall b, is_space2 a b = false)
  /\ (forall b c, is_space3 a b c = false).
Proof.
  intros Ha. split; [|split].
  - unfold is_word_char in Ha. apply andb_true_iff in Ha as [_ Ha].
    by apply negb_true_iff.
  - intros b. destruct (is_space2 a b) eqn:E; [|done].
    apply is_space2_bytes in E as (_ & E & _). congruence.
  - intros b c. destruct (is_space3 a b c) eqn:E; [|done].
    apply is_space3_bytes in E as (_ & _ & E & _). congruence.
Qed.

Lemma is_space_char_last s a :
  is_space_char (s +:+ String a "") = true -> is_word_char a = false.
Proof.
  destruct s as [|x [|y [|z [|? ?]]]]; simpl.
  - unfold is_word_char. intros ->. apply andb_false_r.
  - by intros (_ & _ & ?)%is_space2_bytes.
  - by intros (_ & _ & _ & _ & ?)%is_space3_bytes.
  - done.
  - by destruct s.
Qed.

Lemma blank_Blank w : blank w = true -> Blank w.
Proof.
  unfold blank.
  assert (forall n w, (String.length w <= n)%nat ->
            trimStart w = "" -> Blank w) as H.
  { clear w. induction n as [|n IH]; intros w Hn.
    - destruct w; [constructor|simpl in Hn; lia].
    - destruct w as [|a [|b [|c s]]]; simpl in *.
      + constructor.
      + destruct (is_space a) eqn:Ea; [|done]. intros _. by repeat constructor.
      + destruct (is_space a) eqn:Ea.
        * intros H. apply Blank_1; [done|]. apply IH; [simpl; lia|done].
        * destruct (is_space2 a b) eqn:Eab; [|done]. intros _.
          apply Blank_2; [done|constructor].
      + destruct (is_space a) eqn:Ea.
        * intros H. apply Blank_1; [done|]. apply IH; [simpl; lia|done].
        * destruct (is_space2 a b) eqn:Eab.
          -- intros H. apply Blank_2; [done|]. apply IH; [simpl; lia|done].
          -- destruct (is_space3 a b c) eqn:Eabc; [|done].
             intros H. apply Blank_3; [done|]. apply IH; [lia|done]. }
  intros Hw. apply (H (String.length w)); [lia|].
  by destruct (trimStart w).
Qed.

Lemma trimStart_blank_app w s : Blank w -> trimStart (w +:+ s) = trimStart s.
Proof.
  induction 1 as [|a w Ha _ IH|a b w Hab _ IH|a b c w Habc _ IH].
  - done.
  - change (String a w +:+ s) with (String a (w +:+ s)).
    cbn [trimStart]. by rewrite Ha.
  - change (String a (String b w) +:+ s) with (String a (String b (w +:+ s))).
    cbn [trimStart]. destruct (is_space2_bytes _ _ Hab) as (-> & _). by rewrite Hab.
  - change (String a (String b (String c w)) +:+ s)
      with (String a (String b (String c (w +:+ s)))).
    cbn [trimStart]. destruct (is_space3_bytes _ _ _ Habc) as (-> & -> & _).
    by rewrite Habc.
Qed.

Lemma Blank_blank w : Blank w -> blank w = true.
Proof.
  intros Hw. unfold blank. rewrite <- (append_empty_r w).
  by rewrite trimStart_blank_app.
Qed.

Lemma trimEnd_Blank w : Blank w -> trimEnd w = "".
Proof.
  induction 1 as [|a w Ha _ IH|a b w Hab _ IH|a b c w Habc _ IH]; cbn [trimEnd].
  - done.
  - rewrite IH. simpl. by rewrite Ha.
  - rewrite IH. cbn [is_space_char].
    destruct (is_space2_bytes _ _ Hab) as (_ & _ & Hb).
    assert (is_space b = false) as ->.
    { unfold is_space2 in Hab. apply andb_true_iff in Hab as [_ Hb'].
      apply N.eqb_eq in Hb'.
      assert (b = "160"%char) as -> by (by rewrite <- (ascii_N_embedding b), Hb'). done. }
    by rewrite Hab.
  - rewrite IH. cbn [is_space_char].
    assert (forall x, (128 <=? N_of_ascii x)%N = true -> is_space x = false) as Hsp.
    { intros x Hx. destruct x as [[] [] [] [] [] [] [] []]; try done. }
    assert ((128 <=? N_of_ascii b)%N = true /\ (128 <=? N_of_ascii c)%N = true
            /\ (N_of_ascii b =? 194)%N = false) as (Hb & Hc & Hb').
    { unfold is_space3 in Habc. cbv zeta in Habc.
      repeat match type of Habc with
             | (_ || _)%bool = true => apply orb_true_iff in Habc as [Habc|Habc]
             | (_ && _)%bool = true => apply andb_true_iff in Habc as [Habc ?]
             end;
      repeat match goal with
             | H : (_ =? _)%N = true |- _ => apply N.eqb_eq in H
             | H : (_ <=? _)%N = true |- _ => apply N.leb_le in H
             | H : (_ || _)%bool = true |- _ => apply orb_true_iff in H as [H|H]
             | H : (_ && _)%bool = true |- _ => apply andb_true_iff in H as [H ?]
             end;
      repeat split; first [apply N.leb_le; lia | apply N.eqb_neq; lia]. }
    rewrite (Hsp c Hc). 
    assert (is_space2 b c = false) as ->.
    { unfold is_space2. by rewrite Hb'. }
    by rewrite Habc.
Qed.

Lemma trimEnd_app_Blank s w : Blank w -> trimEnd (s +:+ w) = trimEnd s.
Proof.
  intros Hw. induction s as [|x s IH].
  - change ("" +:+ w) with w. by apply trimEnd_Blank.
  - change (String x s +:+ w) with (String x (s +:+ w)).
    cbn [trimEnd]. by rewrite IH.
Qed.

Lemma trimStart_word a s : is_word_char a = true -> trimStart (String a s) = String a s.
Proof.
  intros (Ha & H2 & H3)%word_char_no_space. cbn [trimStart]. rewrite Ha.
  destruct s as [|b [|c s]]; [done|by rewrite H2|by rewrite H2, H3].
Qed.

Lemma trimEnd_snoc_word s a :
  is_word_char a = true -> trimEnd (s +:+ String a "") = s +:+ String a "".
Proof.
  intros Ha. induction s as [|x s IH].
  - change ("" +:+ String a "") with (String a "").
    cbn [trimEnd]. cbv zeta. cbn [is_space_char].
    destruct (word_char_no_space a Ha) as (-> & _). done.
  - change (String x s +:+ String a "") with (String x (s +:+ String a "")).
    cbn [trimEnd]. rewrite IH. cbv zeta.
    destruct (is_space_char (String x (s +:+ String a ""))) eqn:E; [|done].
    change (String x (s +:+ String a "")) with (String x s +:+ String a "") in E.
    apply is_space_char_last in E. congruence.
Qed.

Lemma words_snoc f :
  truthy f = true -> every is_word_char f = true ->
  exists r a, f = r +:+ String a "" /\ is_word_char a = true.
Proof.
  induction f as [|x f IH]; [done|]. intros _. simpl.
  intros [Hx Hf]%andb_true_iff. destruct f as [|y f].
  - by exists "", x.
  - destruct (IH eq_refl Hf) as (r & a & E & Ha). exists (String x r), a.
    split; [|done]. by rewrite E.
Qed.

Lemma trimEnd_word f : every is_word_char f = true -> trimEnd f = f.
Proof.
  intros Hf. destruct f as [|x f]; [done|].
  destruct (words_snoc (String x f) eq_refl Hf) as (r & a & -> & Ha).
  by apply trimEnd_snoc_word.
Qed.

Lemma trim_word f : every is_word_char f = true -> trim f = f.
Proof.
  intros Hf. unfold trim. destruct f as [|x f]; [done|].
  rewrite trimStart_word; [by apply trimEnd_word|].
  simpl in Hf. by apply andb_true_iff in Hf as [? _].
Qed.


(** *** Numerals and sub-terms *)

Lemma split_no_sep c s : includes c s = false -> split c s = [s].
Proof.
  induction s as [|a s IH]; simpl; [done|].
  intros [Ha Hs]%orb_false_iff. rewrite Ha, (IH Hs). done.
Qed.

Lemma split_app_sep c a b :
  includes c a = false -> split c (a +:+ String c b) = a :: split c b.
Proof.
  induction a as [|x a IH]; simpl.
  - intros _. by rewrite Ascii.eqb_refl.
  - intros [Hx Ha]%orb_false_iff. rewrite Hx, (IH Ha). done.
Qed.

Lemma split_nonempty c s : split c s <> [].
Proof.
  induction s as [|a s IH]; simpl; [done|].
  destruct (Ascii.eqb a c); [done|]. by destruct (split c s).
Qed.

(** [split] cuts at every separator and nowhere else. *)
Lemma split_head c s h t :
  split c s = h :: t ->
  includes c h = false
  /\ match t with
     | [] => s = h
     | _ => exists r, s = h +:+ String c r /\ split c r = t
     end.
Proof.
  revert h t. induction s as [|a s IH]; intros h t; simpl.
  - intros [= <- <-]. done.
  - destruct (Ascii.eqb_spec a c) as [->|Hac].
    + intros [= <- <-]. split; [done|].
      destruct (split c s) eqn:E; [by apply split_nonempty in E|].
      exists s. by rewrite E.
    + destruct (split c s) as [|h' t'] eqn:E; [by apply split_nonempty in E|].
      intros [= <- <-]. destruct (IH _ _ eq_refl) as [Hh Ht]. split.
      * simpl. rewrite Hh. by apply Ascii.eqb_neq in Hac as ->.
      * destruct t'; [by rewrite Ht|].
        destruct Ht as (r & -> & Hr). by exists r.
Qed.

Lemma string_of_uint_digits u : every is_digit (NilEmpty.string_of_uint u) = true.
Proof. induction u; simpl; auto. Qed.

Lemma showN_digits n : every is_digit (Cron.showN n) = true.
Proof. apply string_of_uint_digits. Qed.

Lemma showN_cons n : exists a r, Cron.showN n = String a r /\ is_digit a = true.
Proof.
  pose proof (showN_digits n) as H. unfold Cron.showN in *.
  destruct (NilEmpty.string_of_uint (N.to_uint n)) as [|a r] eqn:E.
  - exfalso. destruct n as [|p]; simpl in E; [discriminate|].
    pose proof (DecimalPos.Unsigned.to_uint_nonnil p) as Hn.
    destruct (Pos.to_uint p); simpl in E; try discriminate. by apply Hn.
  - simpl in H. apply andb_true_iff in H as [Ha _]. eauto.
Qed.

Lemma digit_word_char a : is_digit a = true -> is_word_char a = true.
Proof. destruct a as [[] [] [] [] [] [] [] []]; simpl; try done. Qed.

Lemma digits_word s : every is_digit s = true -> every is_word_char s = true.
Proof. apply every_impl, digit_word_char. Qed.

Lemma digits_no_char c s : is_digit c = false -> every is_digit s = true -> includes c s = false.
Proof. apply every_not_includes. Qed.

(** On a run of digits [Number] is the value of the numeral. *)
Lemma Number_digits s u :
  truthy s = true -> every is_digit s = true ->
  NilEmpty.uint_of_string s = Some u -> Number s = Num (Z.of_N (N.of_uint u)).
Proof.
  intros Hne Hs Hu. unfold Number. rewrite trim_word by by apply digits_word.
  assert (digits_value s = Num (Z.of_N (N.of_uint u))) as Hv
    by (unfold digits_value; by rewrite Hu).
  destruct s as [|a r]; [done|]. simpl in Hs. apply andb_true_iff in Hs as [Ha _].
  destruct a as [[] [] [] [] [] [] [] []]; simpl in Ha; try discriminate; exact Hv.
Qed.

Lemma numeral_Some s n :
  numeral s = Some n ->
  truthy s = true /\ every is_digit s = true /\ Number s = Num (Z.of_N n).
Proof.
  unfold numeral. destruct (truthy s) eqn:Hne; [|done].
  destruct (every is_digit s) eqn:Hs; [|done]. simpl.
  destruct (NilEmpty.uint_of_string s) as [u|] eqn:Hu; [|done].
  intros [= <-]. repeat split. by apply Number_digits.
Qed.

Lemma numeral_showN n : numeral (showN n) = Some n.
Proof.
  unfold numeral. rewrite showN_digits.
  assert (truthy (showN n) = true) as ->
    by (by destruct (showN_cons n) as (a & r & -> & _)).
  unfold showN. rewrite NilEmpty.usu. simpl. by rewrite DecimalN.Unsigned.of_to.
Qed.

Lemma Number_showN n : Number (Cron.showN n) = Num (Z.of_N n).
Proof. by destruct (numeral_Some _ _ (numeral_showN n)) as (_ & _ & ?). Qed.

(** A text that holds a character of no decimal numeral is not a number. *)
Lemma Number_star s : every is_word_char s = true -> Number (String "*" s) = NaN.
Proof.
  intros Hs. unfold Number. rewrite trim_word by (simpl; by rewrite Hs).
  unfold digits_value. cbn [NilEmpty.uint_of_string].
  by destruct (NilEmpty.uint_of_string _).
Qed.

Lemma showTerm_no_comma t : includes "," (showTerm t) = false.
Proof.
  destruct t as [n|a b|n]; simpl.
  - by apply digits_no_char, showN_digits.
  - change (includes "," (showN a +:+ String "-" (showN b)) = false).
    rewrite includes_app. simpl.
    by rewrite !(digits_no_char ","%char) by (done || apply showN_digits).
  - change (includes "," (String "*" (String "/" (showN n))) = false). simpl.
    by apply digits_no_char, showN_digits.
Qed.

(** What the two matchers make of a sub-term of the grammar. *)
Lemma readTerm_cases part t :
  readTerm part = Some t ->
  match t with
  | Lit n => numeral part = Some n
  | Range a b => exists x y, part = x +:+ String "-" y
                             /\ numeral x = Some a /\ numeral y = Some b
  | Step n => exists x, part = String "*" (String "/" x) /\ numeral x = Some n
  end.
Proof.
  unfold readTerm.
  assert (match split "-" part with
          | [a] => Lit <$> numeral a
          | [a; b] => match numeral a, numeral b with
                      | Some x, Some y => Some (Range x y)
                      | _, _ => None
                      end
          | _ => None
          end = Some t ->
          match t with
          | Lit n => numeral part = Some n
          | Range a b => exists x y, part = x +:+ String "-" y
                                     /\ numeral x = Some a /\ numeral y = Some b
          | Step n => False
          end) as Hrest.
  { destruct (split "-" part) as [|a [|b [|? ?]]] eqn:E; try done.
    - apply split_head in E as [_ ->]. destruct (numeral a); [|done]. by intros [= <-].
    - apply split_head in E as [_ (r & -> & Hr)]. apply split_head in Hr as [_ ->].
      destruct (numeral a) as [x|] eqn:Ea; [|done].
      destruct (numeral b) as [y|] eqn:Eb; [|done]. intros [= <-]. by exists a, b. }
  destruct part as [|c1 part1].
  { intros H. apply Hrest in H. by destruct t. }
  destruct (Ascii.eqb_spec c1 "*") as [->|Hc1].
  2:{ intros H. assert (match split "-" (String c1 part1) with
                        | [a] => Lit <$> numeral a
                        | [a; b] => match numeral a, numeral b with
                                    | Some x, Some y => Some (Range x y)
                                    | _, _ => None
                                    end
                        | _ => None
                        end = Some t) as H'.
      { destruct c1 as [[] [] [] [] [] [] [] []]; try exact H. by destruct Hc1. }
      apply Hrest in H'. by destruct t. }
  destruct part1 as [|c2 x].
  { intros H. apply Hrest in H. by destruct t. }
  destruct (Ascii.eqb_spec c2 "/") as [->|Hc2].
  - destruct (numeral x) as [n|] eqn:Ex; [|done]. intros [= <-]. by exists x.
  - intros H. assert (match split "-" (String "*" (String c2 x)) with
                      | [a] => Lit <$> numeral a
                      | [a; b] => match numeral a, numeral b with
                                  | Some x, Some y => Some (Range x y)
                                  | _, _ => None
                                  end
                      | _ => None
                      end = Some t) as H'.
    { destruct c2 as [[] [] [] [] [] [] [] []]; try exact H. by destruct Hc2. }
    apply Hrest in H'. by destruct t.
Qed.

Lemma fieldPartMatches_read v part t :
  readTerm part = Some t -> fieldPartMatches v part = termMatches v t.
Proof.
  intros H%readTerm_cases. unfold fieldPartMatches.
  destruct t as [n|a b|n]; cbn [termMatches].
  - apply numeral_Some in H as (_ & Hd & Hn).
    rewrite !(digits_no_char _ part) by done. rewrite Hn. simpl. apply Z.eqb_sym.
  - destruct H as (x & y & -> & (_ & Hx & Hnx)%numeral_Some & (_ & Hy & Hny)%numeral_Some).
    rewrite !includes_app. simpl.
    rewrite !(digits_no_char "/"%char) by done. simpl. rewrite orb_true_r.
    rewrite split_app_sep by (by apply digits_no_char).
    rewrite split_no_sep by (by apply digits_no_char).
    cbn [map nth]. by rewrite Hnx, Hny.
  - destruct H as (x & -> & (_ & Hx & Hnx)%numeral_Some).
    cbn [includes split Ascii.eqb Bool.eqb orb].
    rewrite split_no_sep by (by apply digits_no_char).
    cbn [nth]. rewrite Hnx. simpl. by destruct (Z.of_N n =? 0).
Qed.

Lemma dowPartMatches_read dow part t :
  readTerm part = Some t -> dowPartMatches dow part = dowTermImplemented dow t.
Proof.
  intros H%readTerm_cases. unfold dowPartMatches.
  destruct t as [n|a b|n]; cbn [dowTermImplemented].
  - apply numeral_Some in H as (_ & Hd & Hn).
    rewrite (digits_no_char _ part) by done. rewrite Hn.
    unfold dowTermMatches, termMatches. simpl. by rewrite (Z.eqb_sym dow (Z.of_N n)).
  - destruct H as (x & y & -> & (_ & Hx & Hnx)%numeral_Some & (_ & Hy & Hny)%numeral_Some).
    rewrite includes_app. simpl. rewrite orb_true_r.
    rewrite split_app_sep by (by apply digits_no_char).
    rewrite split_no_sep by (by apply digits_no_char).
    cbn [map nth]. rewrite Hnx, Hny. unfold dowTermMatches, termMatches. simpl.
    by rewrite orb_false_r.
  - destruct H as (x & -> & (_ & Hx & Hnx)%numeral_Some).
    cbn [includes]. simpl. rewrite (digits_no_char _ x) by done.
    rewrite Number_star; [done|]. simpl. by apply digits_word.
Qed.

Lemma readTerm_showTerm t : readTerm (showTerm t) = Some t.
Proof.
  destruct t as [n|a b|n]; cbn [showTerm].
  - unfold readTerm.
    rewrite split_no_sep by (by apply digits_no_char, showN_digits).
    destruct (showN_cons n) as (x & r & E & Hx). rewrite E at 1.
    rewrite numeral_showN.
    destruct x as [[] [] [] [] [] [] [] []]; simpl in Hx; try discriminate; done.
  - unfold readTerm.
    change (showN a +:+ "-" +:+ showN b) with (showN a +:+ String "-" (showN b)).
    rewrite split_app_sep by (by apply digits_no_char, showN_digits).
    rewrite split_no_sep by (by apply digits_no_char, showN_digits).
    rewrite !numeral_showN.
    destruct (showN_cons a) as (x & r & E & Hx). rewrite E.
    destruct x as [[] [] [] [] [] [] [] []]; simpl in Hx; try discriminate; done.
  - change ("*/" +:+ showN n) with (String "*" (String "/" (showN n))).
    cbn [readTerm]. by rewrite numeral_showN.
Qed.

Lemma fieldPartMatches_showTerm v t : fieldPartMatches v (showTerm t) = termMatches v t.
Proof. apply fieldPartMatches_read, readTerm_showTerm. Qed.

Lemma dowPartMatches_showTerm dow t :
  dowPartMatches dow (showTerm t) = dowTermImplemented dow t.
Proof. apply dowPartMatches_read, readTerm_showTerm. Qed.

Lemma split_showField t ts :
  split "," (showField (t :: ts)) = map showTerm (t :: ts).
Proof.
  unfold showField, join. revert t. induction ts as [|t' ts IH]; intros t.
  - simpl. apply split_no_sep, showTerm_no_comma.
  - change (String.concat "," (map showTerm (t :: t' :: ts)))
      with (showTerm t +:+ String "," (String.concat "," (map showTerm (t' :: ts)))).
    rewrite split_app_sep by apply showTerm_no_comma.
    by rewrite IH.
Qed.

Lemma showTerm_not_star t rest : String.eqb (showTerm t +:+ rest) "*" = false.
Proof.
  destruct t as [n|a b|n]; simpl.
  - destruct (showN_cons n) as (a & r & -> & Ha). 
    destruct a as [[] [] [] [] [] [] [] []]; simpl in Ha; try discriminate; done.
  - destruct (showN_cons a) as (x & r & -> & Ha).
    destruct x as [[] [] [] [] [] [] [] []]; simpl in Ha; try discriminate; done.
  - done.
Qed.

Lemma showField_not_star t ts : String.eqb (showField (t :: ts)) "*" = false.
Proof.
  unfold showField, join. destruct ts as [|t' ts].
  - simpl. pose proof (showTerm_not_star t "") as H.
    by rewrite append_empty_r in H.
  - change (String.concat "," (map showTerm (t :: t' :: ts)))
      with (showTerm t +:+ String "," (String.concat "," (map showTerm (t' :: ts)))).
    apply showTerm_not_star.
Qed.

Lemma existsb_map_ext {A B} (f : B -> bool) (g : A -> B) (h : A -> bool) l :
  (forall x, f (g x) = h x) -> existsb f (map g l) = existsb h l.
Proof. intros E. induction l; simpl; congruence. Qed.

Lemma existsb_read {A} (read : string -> option A) (f : string -> bool) (g : A -> bool)
    parts ts :
  mapM read parts = Some ts ->
  (forall p t, read p = Some t -> f p = g t) ->
  existsb f parts = existsb g ts.
Proof.
  intros H%mapM_Some Hfg. induction H as [|p t parts ts Hp _ IH]; [done|].
  simpl. by rewrite (Hfg _ _ Hp), IH.
Qed.

Lemma readField_not_star field ts : readField field = Some ts -> String.eqb field "*" = false.
Proof.
  destruct (String.eqb_spec field "*") as [->|]; [|done]. by vm_compute.
Qed.

(** On a well-formed field the interpreter and the specification agree. *)
Lemma cronFieldMatches_read field ts v :
  readField field = Some ts -> cronFieldMatches field v = existsb (termMatches v) ts.
Proof.
  intros H. unfold cronFieldMatches. rewrite (readField_not_star _ _ H).
  apply (existsb_read readTerm); [done|]. intros p t. apply fieldPartMatches_read.
Qed.

Lemma matchField_read field ts v :
  readField field = Some ts -> matchField field v = existsb (termMatches v) ts.
Proof.
  intros H. unfold matchField. rewrite (readField_not_star _ _ H). simpl.
  apply (existsb_read readTerm); [done|]. by intros p t ->.
Qed.

Lemma cronDowMatches_read field ts dow :
  readField field = Some ts ->
  cronDowMatches field dow = existsb (dowTermImplemented dow) ts.
Proof.
  intros H. unfold cronDowMatches. rewrite (readField_not_star _ _ H).
  apply (existsb_read readTerm); [done|]. intros p t. apply dowPartMatches_read.
Qed.

Lemma matchDayOfWeek_read field ts dow :
  readField field = Some ts -> matchDayOfWeek field dow = existsb (dowTermMatches dow) ts.
Proof.
  intros H. unfold matchDayOfWeek. rewrite (readField_not_star _ _ H). simpl.
  apply (existsb_read readTerm); [done|]. by intros p t ->.
Qed.

Lemma cronFieldMatches_wellFormed field v :
  wellFormedField field = true -> cronFieldMatches field v = matchField field v.
Proof.
  unfold wellFormedField. destruct (String.eqb_spec field "*") as [->|Hne]; [done|].
  simpl. destruct (readField field) as [ts|] eqn:E; [|done]. intros _.
  by rewrite (cronFieldMatches_read _ _ _ E), (matchField_read _ _ _ E).
Qed.

Lemma readField_showField t ts : readField (showField (t :: ts)) = Some (t :: ts).
Proof.
  unfold readField. rewrite split_showField. apply mapM_Some.
  induction (t :: ts) as [|x l IH]; constructor; [apply readTerm_showTerm|done].
Qed.

Lemma cronDowMatches_grammar t ts dow :
  cronDowMatches (showField (t :: ts)) dow = existsb (dowTermImplemented dow) (t :: ts).
Proof. apply cronDowMatches_read, readField_showField. Qed.


(** C7, amended. [cronFieldMatches] returns true for the field [*]
    whatever the value. For a well-formed field, a comma separated list
    of sub-terms, each an unsigned decimal numeral, a range of two such
    numerals or a step [*/n], all below 2^53, and a value below 2^53 in
    absolute value, it agrees with [matchField] as the specification words
    it: it is true exactly when some sub-term matches, a literal when it
    equals the value, a range [a-b] when a <= value <= b, a step [*/n]
    when value % n is 0. The five sample evaluations of the specification
    hold, and a numeral may carry leading zeros. *)
Theorem cronFieldMatches_grammar :
  (forall v, cronFieldMatches "*" v = true) /\
  (forall field v,
      wellFormedField field = true -> safeInteger v = true ->
      cronFieldMatches field v = matchField field v) /\
  (forall field ts v,
      readField field = Some ts ->
      matchField field v = existsb (termMatches v) ts) /\
  cronFieldMatches "*" 0 = true /\
  cronFieldMatches "1-5" 3 = true /\ cronFieldMatches "1-5" 6 = false /\
  cronFieldMatches "1,3,5" 3 = true /\ cronFieldMatches "1,3,5" 4 = false /\
  cronFieldMatches "05" 5 = true.
Proof.
  split; [done|]. split; [|split].
  - intros field v Hf _. by apply cronFieldMatches_wellFormed.
  - intros field ts v. apply matchField_read.
  - repeat split; vm_compute; reflexivity.
Qed.

(** *** Splitting at white space *)

Lemma split_ws_from_nonempty b s : split_ws_from b s <> [].
Proof.
  assert (forall n s b, (String.length s <= n)%nat -> split_ws_from b s <> []) as H.
  { clear. induction n as [|n IH]; intros s b Hn.
    - destruct s; [done|simpl in Hn; lia].
    - destruct s as [|x [|y [|z s]]]; cbn [split_ws_from]; [done|..];
        repeat case_match; try done; apply IH; simpl in *; lia. }
  by apply (H (String.length s)).
Qed.

Lemma split_ws_from_word_char b a s :
  is_word_char a = true ->
  split_ws_from b (String a s) =
    match split_ws_from false s with
    | h :: t => String a h :: t
    | [] => [String a ""]
    end.
Proof.
  intros (Ha & H2 & H3)%word_char_no_space. cbn [split_ws_from]. rewrite Ha.
  destruct s as [|y [|z s]]; [done|by rewrite H2|by rewrite H2, H3].
Qed.

Lemma split_ws_word f s :
  every is_word_char f = true ->
  split_ws_from false (f +:+ s) =
    match split_ws_from false s with
    | h :: t => (f +:+ h) :: t
    | [] => [f]
    end.
Proof.
  induction f as [|a f IH]; intros Hf.
  - change ("" +:+ s) with s.
    destruct (split_ws_from false s) eqn:E; [by apply split_ws_from_nonempty in E|done].
  - simpl in Hf. apply andb_true_iff in Hf as [Ha Hf].
    change (String a f +:+ s) with (String a (f +:+ s)).
    rewrite split_ws_from_word_char, (IH Hf) by done.
    by destruct (split_ws_from false s).
Qed.

Lemma split_ws_skip w x s :
  Blank w -> is_word_char x = true ->
  split_ws_from true (w +:+ String x s) = split_ws_from false (String x s).
Proof.
  intros Hw Hx.
  induction Hw as [|a w Ha _ IH|a b w Hab _ IH|a b c w Habc _ IH].
  - change ("" +:+ String x s) with (String x s).
    by rewrite !split_ws_from_word_char.
  - change (String a w +:+ String x s) with (String a (w +:+ String x s)).
    cbn [split_ws_from]. by rewrite Ha.
  - change (String a (String b w) +:+ String x s)
      with (String a (String b (w +:+ String x s))).
    cbn [split_ws_from]. destruct (is_space2_bytes _ _ Hab) as (-> & _).
    by rewrite Hab.
  - change (String a (String b (String c w)) +:+ String x s)
      with (String a (String b (String c (w +:+ String x s)))).
    cbn [split_ws_from]. destruct (is_space3_bytes _ _ _ Habc) as (-> & -> & _).
    by rewrite Habc.
Qed.

Lemma split_ws_gap w x s :
  is_gap w = true -> is_word_char x = true ->
  split_ws_from false (w +:+ String x s) = "" :: split_ws_from false (String x s).
Proof.
  unfold is_gap. intros [Hne Hw%blank_Blank]%andb_true_iff Hx.
  destruct Hw as [|a w Ha Hw|a b w Hab Hw|a b c w Habc Hw]; [done|..].
  - change (String a w +:+ String x s) with (String a (w +:+ String x s)).
    cbn [split_ws_from]. rewrite Ha. f_equal. by apply split_ws_skip.
  - change (String a (String b w) +:+ String x s)
      with (String a (String b (w +:+ String x s))).
    cbn [split_ws_from]. destruct (is_space2_bytes _ _ Hab) as (-> & _).
    rewrite Hab. f_equal. by apply split_ws_skip.
  - change (String a (String b (String c w)) +:+ String x s)
      with (String a (String b (String c (w +:+ String x s)))).
    cbn [split_ws_from]. destruct (is_space3_bytes _ _ _ Habc) as (-> & -> & _).
    rewrite Habc. f_equal. by apply split_ws_skip.
Qed.

Lemma is_field_cons f :
  is_field f = true ->
  exists x r, f = String x r /\ is_word_char x = true /\ every is_word_char f = true.
Proof.
  unfold is_field. intros [Hne Hf]%andb_true_iff.
  destruct f as [|x r]; [done|]. exists x, r. split; [done|]. split; [|done].
  simpl in Hf. by apply andb_true_iff in Hf as [Hx _].
Qed.

Lemma split_ws_field_gap f w g s :
  is_field f = true -> is_gap w = true -> is_field g = true ->
  split_ws_from false (f +:+ w +:+ g +:+ s) = f :: split_ws_from false (g +:+ s).
Proof.
  intros Hf Hw Hg.
  destruct (is_field_cons f Hf) as (_ & _ & _ & _ & Hfe).
  destruct (is_field_cons g Hg) as (x & r & -> & Hx & _).
  rewrite (split_ws_word f) by done.
  change (String x r +:+ s) with (String x (r +:+ s)).
  rewrite split_ws_gap by done. by rewrite append_empty_r.
Qed.

Lemma split_ws_last f : is_field f = true -> split_ws_from false f = [f].
Proof.
  intros Hf. destruct (is_field_cons f Hf) as (_ & _ & _ & _ & Hfe).
  rewrite <- (append_empty_r f) at 1. rewrite split_ws_word by done.
  simpl. by rewrite append_empty_r.
Qed.

Lemma split_ws_cron5 a w1 b w2 c w3 d w4 e :
  is_field a = true -> is_field b = true -> is_field c = true ->
  is_field d = true -> is_field e = true ->
  is_gap w1 = true -> is_gap w2 = true -> is_gap w3 = true -> is_gap w4 = true ->
  split_ws (cron5 a w1 b w2 c w3 d w4 e) = [a; b; c; d; e].
Proof.
  intros Ha Hb Hc Hd He H1 H2 H3 H4. unfold split_ws, cron5.
  rewrite <- (append_empty_r e) at 1.
  rewrite !split_ws_field_gap by done.
  by rewrite append_empty_r, split_ws_last.
Qed.

Lemma append_assoc (a b c : string) : (a +:+ b) +:+ c = a +:+ (b +:+ c).
Proof.
  induction a as [|x a IH]; [done|].
  change (String x ((a +:+ b) +:+ c) = String x (a +:+ (b +:+ c))). by rewrite IH.
Qed.

(** A text that starts and ends with a word is its own trim, and white
    space around it is trimmed away. *)
Lemma trim_between f s g pre post :
  is_field f = true -> is_field g = true -> Blank pre -> Blank post ->
  trim (pre +:+ (f +:+ s +:+ g) +:+ post) = f +:+ s +:+ g.
Proof.
  intros Hf Hg Hpre Hpost. unfold trim.
  rewrite trimStart_blank_app by done.
  destruct (is_field_cons f Hf) as (x & r & -> & Hx & _).
  change ((String x r +:+ s +:+ g) +:+ post) with (String x ((r +:+ s +:+ g) +:+ post)).
  rewrite trimStart_word by done.
  change (String x ((r +:+ s +:+ g) +:+ post)) with ((String x r +:+ s +:+ g) +:+ post).
  rewrite trimEnd_app_Blank by done.
  destruct (is_field_cons g Hg) as (y & q & Eg & _ & Hge).
  destruct (words_snoc g) as (g' & z & -> & Hz); [by rewrite Eg|done|].
  rewrite <- !append_assoc. by apply trimEnd_snoc_word.
Qed.

Lemma trim_padded_cron5 pre a w1 b w2 c w3 d w4 e post :
  blank pre = true -> blank post = true ->
  is_field a = true -> is_field e = true ->
  trim (pre +:+ cron5 a w1 b w2 c w3 d w4 e +:+ post) = cron5 a w1 b w2 c w3 d w4 e.
Proof.
  intros Hpre%blank_Blank Hpost%blank_Blank Ha He. unfold cron5.
  pose proof (trim_between a (w1 +:+ b +:+ w2 +:+ c +:+ w3 +:+ d +:+ w4) e pre post
                Ha He Hpre Hpost) as H.
  rewrite !append_assoc in *. exact H.
Qed.

Lemma trim_cron5 a w1 b w2 c w3 d w4 e :
  is_field a = true -> is_field e = true ->
  trim (cron5 a w1 b w2 c w3 d w4 e) = cron5 a w1 b w2 c w3 d w4 e.
Proof.
  intros Ha He.
  pose proof (trim_padded_cron5 "" a w1 b w2 c w3 d w4 e "" eq_refl eq_refl Ha He) as H.
  change ("" +:+ ?s) with s in H. by rewrite append_empty_r in H.
Qed.

Lemma cronMatchesToday_cron5 pre a w1 b w2 c w3 d w4 e post dow date month :
  blank pre = true -> blank post = true ->
  is_field a = true -> is_field b = true -> is_field c = true ->
  is_field d = true -> is_field e = true ->
  is_gap w1 = true -> is_gap w2 = true -> is_gap w3 = true -> is_gap w4 = true ->
  cronMatchesToday (pre +:+ cron5 a w1 b w2 c w3 d w4 e +:+ post) dow date month =
    cronFieldMatches d month && cronFieldMatches c date && cronDowMatches e dow.
Proof.
  intros. unfold cronMatchesToday.
  rewrite trim_padded_cron5, split_ws_cron5 by done. cbn [length Nat.ltb Nat.leb nth].
  destruct (cronFieldMatches d month), (cronFieldMatches c date), (cronDowMatches e dow); done.
Qed.

(** A well-formed field is a word. *)
Lemma split_every P c s :
  P c = true -> Forall (fun p => every P p = true) (split c s) -> every P s = true.
Proof.
  intros Hc. induction s as [|a s IH]; simpl; [done|].
  destruct (Ascii.eqb_spec a c) as [->|Hac].
  - intros [_ H]%Forall_cons. by rewrite Hc, IH.
  - destruct (split c s) as [|h t] eqn:E; [by apply split_nonempty in E|].
    intros [Hh H]%Forall_cons. simpl in Hh. apply andb_true_iff in Hh as [-> Hh].
    apply IH. by constructor.
Qed.

Lemma readTerm_word part t : readTerm part = Some t -> every is_word_char part = true.
Proof.
  intros H%readTerm_cases. destruct t as [n|a b|n].
  - apply numeral_Some in H as (_ & H & _). by apply digits_word.
  - destruct H as (x & y & -> & (_ & Hx & _)%numeral_Some & (_ & Hy & _)%numeral_Some).
    rewrite every_app. simpl. by rewrite !digits_word.
  - destruct H as (x & -> & (_ & Hx & _)%numeral_Some). simpl. by apply digits_word.
Qed.

Lemma wellFormedField_is_field f : wellFormedField f = true -> is_field f = true.
Proof.
  unfold wellFormedField. destruct (String.eqb_spec f "*") as [->|Hne]; [done|].
  simpl. destruct (readField f) as [ts|] eqn:E; [|done]. intros _.
  unfold is_field. apply andb_true_iff. split.
  - destruct f; [by vm_compute in E|done].
  - unfold readField in E. apply mapM_Some in E.
    apply (split_every _ ","%char); [done|].
    induction E as [|p t parts ts' Hp _ IH]; constructor; [|done].
    by apply readTerm_word in Hp.
Qed.

Lemma dowTermImplemented_sound dow t :
  dowTermImplemented dow t = true -> dowTermMatches dow t = true.
Proof. by destruct t. Qed.

Lemma existsb_impl {A} (f g : A -> bool) l :
  (forall x, f x = true -> g x = true) -> existsb f l = true -> existsb g l = true.
Proof.
  intros H. induction l as [|x l IH]; simpl; [done|].
  intros [Hx|Hl]%orb_true_iff; apply orb_true_iff; [left; by apply H|right; by apply IH].
Qed.

Lemma cronDowMatches_wellFormed e dow :
  wellFormedField e = true ->
  (hasStep e = false -> cronDowMatches e dow = matchDayOfWeek e dow)
  /\ (cronDowMatches e dow = true -> matchDayOfWeek e dow = true).
Proof.
  unfold wellFormedField, hasStep.
  destruct (String.eqb_spec e "*") as [->|Hne]; [done|].
  simpl. destruct (readField e) as [ts|] eqn:E; [|done]. intros _.
  rewrite (cronDowMatches_read _ _ _ E), (matchDayOfWeek_read _ _ _ E). split.
  - intros Hs. clear E. induction ts as [|t ts IH]; [done|]. simpl in *.
    apply orb_false_iff in Hs as [Ht Hs]. rewrite (IH Hs). by destruct t.
  - apply existsb_impl, dowTermImplemented_sound.
Qed.

(** C5. For a five-field expression, with any white space between and
    around the fields, whose day-of-month, month and day-of-week fields
    are well formed: [cronMatchesToday] never depends on the minute and
    hour fields, it is true only when [firesOnDate] of the specification
    is, and it is [firesOnDate] when the day-of-week field holds no step
    term. With a step term it is not: for [0 9 * * */2] on a Tuesday the
    three fields match as the specification words it, and
    [cronMatchesToday] is false. *)
Theorem cronMatchesToday_day_level :
  (forall pre a w1 b w2 c w3 d w4 e post dow date month,
      blank pre = true -> blank post = true ->
      is_field a = true -> is_field b = true ->
      is_gap w1 = true -> is_gap w2 = true -> is_gap w3 = true -> is_gap w4 = true ->
      wellFormedField c = true -> wellFormedField d = true ->
      wellFormedField e = true ->
      safeInteger dow = true -> safeInteger date = true -> safeInteger month = true ->
      let cron := pre +:+ cron5 a w1 b w2 c w3 d w4 e +:+ post in
      (hasStep e = false ->
         cronMatchesToday cron dow date month = firesOnDate c d e date month dow)
      /\ (cronMatchesToday cron dow date month = true ->
          firesOnDate c d e date month dow = true)
      /\ (forall a' b', is_field a' = true -> is_field b' = true ->
            cronMatchesToday (pre +:+ cron5 a' w1 b' w2 c w3 d w4 e +:+ post)
              dow date month
            = cronMatchesToday cron dow date month))
  /\ (forall date month,
        cronMatchesToday "0 9 * * */2" 2 date month = false
        /\ firesOnDate "*" "*" "*/2" date month 2 = true).
Proof.
  split.
  - intros pre a w1 b w2 c w3 d w4 e post dow date month
           Hpre Hpost Ha Hb H1 H2 H3 H4 Hc Hd He _ _ _. cbv zeta.
    pose proof (wellFormedField_is_field _ Hc) as Hc'.
    pose proof (wellFormedField_is_field _ Hd) as Hd'.
    pose proof (wellFormedField_is_field _ He) as He'.
    rewrite cronMatchesToday_cron5 by done. unfold firesOnDate.
    rewrite (cronFieldMatches_wellFormed d) by done.
    rewrite (cronFieldMatches_wellFormed c) by done.
    destruct (cronDowMatches_wellFormed e dow He) as [Hfree Hsound].
    split; [|split].
    + intros Hs. by rewrite Hfree.
    + intros [[-> ->]%andb_true_iff Hdow]%andb_true_iff. by rewrite Hsound.
    + intros a' b' Ha' Hb'. rewrite cronMatchesToday_cron5 by done.
      by rewrite (cronFieldMatches_wellFormed d), (cronFieldMatches_wellFormed c).
  - intros date month. split; reflexivity.
Qed.

(** The interpreter reads an empty range bound and an empty sub-term as
    0, so it matches texts that are no field of the grammar. *)
Lemma cronFieldMatches_lenient_counterexample :
  matchField "-5" 3 = false /\ cronFieldMatches "-5" 3 = true
  /\ matchField "1,,5" 0 = false /\ cronFieldMatches "1,,5" 0 = true.
Proof. vm_compute. repeat split; reflexivity. Qed.

(** C6. [cronDowMatches] agrees with the grammar on literals and ranges,
    with 7 accepted for Sunday, but it has no case for step terms: on the
    field [*/2] and weekday 2 the specified meaning and [cronFieldMatches]
    say true while [cronDowMatches] says false. *)
Theorem cronDowMatches_ignores_step_terms :
  (forall t ts dow,
      cronDowMatches (showField (t :: ts)) dow
        = existsb (dowTermImplemented dow) (t :: ts))
  /\ showTerm (Step 2) = "*/2"
  /\ dowTermMatches 2 (Step 2) = true
  /\ cronFieldMatches "*/2" 2 = true
  /\ cronDowMatches "*/2" 2 = false
  /\ cronDowMatches "0" 0 = true
  /\ cronDowMatches "7" 0 = true.
Proof.
  split; [apply cronDowMatches_grammar|].
  vm_compute. repeat split; reflexivity.
Qed.

End CronFacts.

(** ** The store and the registry invariant *)

Section StorageFacts.

Lemma has_id_true i e : Storage.has_id i e = true <-> Entity.id e = i.
Proof. unfold Storage.has_id. apply String.eqb_eq. Qed.

Lemma has_id_false i e : Storage.has_id i e = false <-> Entity.id e <> i.
Proof. unfold Storage.has_id. apply String.eqb_neq. Qed.

Lemma has_id_apply i p e : Storage.has_id i (Partial.apply p e) = Storage.has_id i e.
Proof. done. Qed.

Lemma findById_Some rows i e :
  Storage.findById rows i = Some e -> Entity.id e = i /\ In e rows.
Proof.
  unfold Storage.findById. intros H. apply find_some in H as [Hin Hid].
  split; [by apply has_id_true|done].
Qed.

Lemma findById_None rows i :
  Storage.findById rows i = None <-> ~ In i (map Entity.id rows).
Proof.
  unfold Storage.findById. induction rows as [|r rows IH]; simpl; [tauto|].
  destruct (Storage.has_id i r) eqn:E.
  - apply has_id_true in E. split; [done|]. intros H. exfalso. apply H. by left.
  - apply has_id_false in E. rewrite IH. tauto.
Qed.

Lemma findById_elem rows e :
  NoDup (map Entity.id rows) -> In e rows ->
  Storage.findById rows (Entity.id e) = Some e.
Proof.
  unfold Storage.findById. induction rows as [|r rows IH]; simpl; [done|].
  intros Hnd [->|Hin].
  - assert (Storage.has_id (Entity.id e) e = true) as -> by by apply has_id_true.
    done.
  - apply NoDup_cons in Hnd as [Hr Hnd].
    destruct (Storage.has_id (Entity.id e) r) eqn:E.
    + apply has_id_true in E. exfalso. apply Hr. rewrite E.
      apply list_elem_of_In, in_map, Hin.
    + by apply IH.
Qed.

Lemma findById_update rows i p k :
  Storage.findById (Storage.updateRows rows i p).1 k =
    if String.eqb k i then Partial.apply p <$> Storage.findById rows i
    else Storage.findById rows k.
Proof.
  unfold Storage.updateRows, Storage.findById. simpl.
  destruct (String.eqb_spec k i) as [Heq|Hne]; [subst k|].
  - induction rows as [|r rows IH]; simpl; [done|].
    destruct (Storage.has_id i r) eqn:Ei.
    + by rewrite has_id_apply, Ei.
    + by rewrite Ei.
  - induction rows as [|r rows IH]; simpl; [done|].
    destruct (Storage.has_id i r) eqn:Ei.
    + rewrite has_id_apply.
      assert (Storage.has_id k r = false) as ->; [|done].
      apply has_id_false. apply has_id_true in Ei. congruence.
    + by rewrite IH.
Qed.

Lemma ids_update rows i p :
  map Entity.id (Storage.updateRows rows i p).1 = map Entity.id rows.
Proof.
  unfold Storage.updateRows. simpl. induction rows as [|r rows IH]; simpl; [done|].
  rewrite IH. by destruct (Storage.has_id i r).
Qed.

Lemma find_append {A} (f : A -> bool) l l' :
  find f (l ++ l') = match find f l with Some x => Some x | None => find f l' end.
Proof. induction l as [|x l IH]; simpl; [done|]. by destruct (f x). Qed.

Lemma findById_create rows newId now data k :
  Storage.findById rows newId = None ->
  Storage.findById (Storage.create rows newId now data).1 k =
    if String.eqb k newId then Some (Storage.create rows newId now data).2
    else Storage.findById rows k.
Proof.
  unfold Storage.create, Storage.findById. simpl. intros Hfresh.
  rewrite find_append.
  destruct (String.eqb_spec k newId) as [Heq|Hne]; [subst k|].
  - rewrite Hfresh. simpl. unfold Storage.has_id. simpl. by rewrite String.eqb_refl.
  - destruct (find (Storage.has_id k) rows); [done|]. simpl.
    unfold Storage.has_id. simpl.
    by destruct (String.eqb_spec newId k) as [Heq|].
Qed.

Lemma ids_create rows newId now data :
  map Entity.id (Storage.create rows newId now data).1 = map Entity.id rows ++ [newId].
Proof. unfold Storage.create. simpl. by rewrite map_app. Qed.

Lemma findById_delete rows i k :
  Storage.findById (Storage.delete rows i).1 k =
    if String.eqb k i then None else Storage.findById rows k.
Proof.
  unfold Storage.delete, Storage.findById. simpl.
  destruct (String.eqb_spec k i) as [Heq|Hne]; [subst k|].
  - induction rows as [|r rows IH]; simpl; [done|].
    destruct (Storage.has_id i r) eqn:Ei; simpl; [done|]. by rewrite Ei.
  - induction rows as [|r rows IH]; simpl; [done|].
    destruct (Storage.has_id i r) eqn:Ei; simpl.
    + assert (Storage.has_id k r = false) as ->; [|done].
      apply has_id_false. apply has_id_true in Ei. congruence.
    + by rewrite IH.
Qed.

Lemma ids_delete_NoDup rows i :
  NoDup (map Entity.id rows) -> NoDup (map Entity.id (Storage.delete rows i).1).
Proof.
  unfold Storage.delete. simpl. induction rows as [|r rows IH]; simpl; [done|].
  intros [Hr Hnd]%NoDup_cons. destruct (negb (Storage.has_id i r)); simpl; [|by apply IH].
  apply NoDup_cons. split; [|by apply IH].
  intros Hin. apply Hr. apply list_elem_of_In in Hin. apply in_map_iff in Hin as (x & Hx & Hin).
  apply filter_In in Hin as [Hin _]. apply list_elem_of_In. rewrite <- Hx. by apply in_map.
Qed.

Lemma insertBy_Permutation {A} (le : A -> A -> bool) x l :
  Permutation (insertBy le x l) (x :: l).
Proof.
  induction l as [|y l IH]; simpl; [done|].
  destruct (le x y); [done|]. rewrite IH. apply perm_swap.
Qed.

Lemma sortBy_Permutation {A} (le : A -> A -> bool) l : Permutation (sortBy le l) l.
Proof.
  induction l as [|x l IH]; simpl; [done|].
  rewrite insertBy_Permutation. by constructor.
Qed.

Lemma findAll_Permutation rows : Permutation (Storage.findAll rows) rows.
Proof. apply sortBy_Permutation. Qed.

End StorageFacts.

Section Invariant.
Context {env : Env}.

Lemma backed_update b ty rows i p k :
  backed b ty rows k ->
  (b = true -> Partial.enabled p = Some false -> k <> i) ->
  backed b ty (Storage.updateRows rows i p).1 k.
Proof.
  intros (e & He & Hty & Hen) Hp. unfold backed. rewrite findById_update.
  destruct (String.eqb_spec k i) as [Heq|Hne].
  - subst k. rewrite He. exists (Partial.apply p e). split; [done|]. split; [done|].
    intros Hb. simpl. destruct (Partial.enabled p) as [[]|] eqn:E; simpl; [done| |by apply Hen].
    by destruct (Hp Hb eq_refl).
  - by exists e.
Qed.

Lemma InvC_update b rows J T J' T' i p :
  InvC b rows J T ->
  (forall k x, J' !! k = Some x -> J !! k = Some x) ->
  (forall k x, T' !! k = Some x -> T !! k = Some x) ->
  (b = true -> Partial.enabled p = Some false -> J' !! i = None /\ T' !! i = None) ->
  InvC b (Storage.updateRows rows i p).1 J' T'.
Proof.
  intros (Hnd & HJ & HT) HJ' HT' Hp. split; [by rewrite ids_update|]. split.
  - intros k job Hk. destruct (HJ _ _ (HJ' _ _ Hk)) as [Hid Hb]. split; [done|].
    apply backed_update; [done|]. intros Hb1 Hp1 ->.
    destruct (Hp Hb1 Hp1) as [HJi _]. congruence.
  - intros k tm Hk. destruct (HT _ _ (HT' _ _ Hk)) as [Hid Hb]. split; [done|].
    apply backed_update; [done|]. intros Hb1 Hp1 ->.
    destruct (Hp Hb1 Hp1) as [_ HTi]. congruence.
Qed.

Lemma InvC_sub b rows J T J' T' :
  InvC b rows J T ->
  (forall k x, J' !! k = Some x -> J !! k = Some x) ->
  (forall k x, T' !! k = Some x -> T !! k = Some x) ->
  InvC b rows J' T'.
Proof.
  intros (Hnd & HJ & HT) HJ' HT'. split; [done|]. split.
  - intros k x Hk. by apply HJ, HJ'.
  - intros k x Hk. by apply HT, HT'.
Qed.

Lemma delete_sub {V} (m : gmap string V) i k x :
  delete i m !! k = Some x -> m !! k = Some x.
Proof. rewrite lookup_delete_Some. tauto. Qed.

Lemma InvC_job b rows J T e :
  InvC b rows J T -> backed b fixed rows (Entity.id e) ->
  InvC b rows (<[Entity.id e := {| job_schedule := e |}]> J) T.
Proof.
  intros (Hnd & HJ & HT) Hb. split; [done|]. split; [|done].
  intros k job. rewrite lookup_insert_Some. intros [[<- <-]|[_ Hk]]; [done|by apply HJ].
Qed.

Lemma InvC_timer b rows J T e d :
  InvC b rows J T -> backed b manual rows (Entity.id e) ->
  InvC b rows J (<[Entity.id e := {| timer_schedule := e; timer_delay := d |}]> T).
Proof.
  intros (Hnd & HJ & HT) Hb. split; [done|]. split; [done|].
  intros k tm. rewrite lookup_insert_Some. intros [[<- <-]|[_ Hk]]; [done|by apply HT].
Qed.

Lemma backed_fresh b ty rows i : Storage.findById rows i = None -> ~ backed b ty rows i.
Proof. intros Hn (e & He & _). congruence. Qed.

Lemma InvC_create b rows J T newId now data :
  InvC b rows J T -> Storage.findById rows newId = None ->
  InvC b (Storage.create rows newId now data).1 J T.
Proof.
  intros (Hnd & HJ & HT) Hfresh.
  assert (forall ty k, backed b ty rows k ->
            backed b ty (Storage.create rows newId now data).1 k) as Hb.
  { intros ty k (e & He & Hty). exists e. split; [|done].
    rewrite findById_create by done.
    destruct (String.eqb_spec k newId) as [Heq|]; [congruence|done]. }
  split.
  - rewrite ids_create. apply NoDup_app. split; [done|]. split.
    + intros x Hx ->%list_elem_of_singleton. apply findById_None in Hfresh.
      by apply Hfresh, list_elem_of_In.
    + apply NoDup_singleton.
  - split.
    + intros k x Hk. destruct (HJ _ _ Hk). split; [done|]. by apply Hb.
    + intros k x Hk. destruct (HT _ _ Hk). split; [done|]. by apply Hb.
Qed.

Lemma InvC_delete b rows J T i :
  InvC b rows J T -> J !! i = None -> T !! i = None ->
  InvC b (Storage.delete rows i).1 J T.
Proof.
  intros (Hnd & HJ & HT) HJi HTi.
  assert (forall ty k, k <> i -> backed b ty rows k ->
            backed b ty (Storage.delete rows i).1 k) as Hb.
  { intros ty k Hne (e & He & Hty). exists e. split; [|done].
    rewrite findById_delete. by destruct (String.eqb_spec k i). }
  split; [by apply ids_delete_NoDup|]. split.
  - intros k x Hk. destruct (HJ _ _ Hk). split; [done|].
    apply Hb; [congruence|done].
  - intros k x Hk. destruct (HT _ _ Hk). split; [done|].
    apply Hb; [congruence|done].
Qed.

Lemma InvC_empty b rows : NoDup (map Entity.id rows) -> InvC b rows ∅ ∅.
Proof. intros Hnd. split; [done|]. split; intros k x; by rewrite lookup_empty. Qed.

Lemma InvC_weaken rows J T : InvC true rows J T -> InvC false rows J T.
Proof.
  intros (Hnd & HJ & HT). split; [done|]. split.
  - intros k x Hk. destruct (HJ _ _ Hk) as [? (e & ? & ? & _)]. split; [done|]. by exists e.
  - intros k x Hk. destruct (HT _ _ Hk) as [? (e & ? & ? & _)]. split; [done|]. by exists e.
Qed.

(** A live job and a live timer never share an id. *)
Lemma InvC_disjoint b rows J T i :
  InvC b rows J T -> is_Some (J !! i) -> is_Some (T !! i) -> False.
Proof.
  intros (_ & HJ & HT) [j Hj] [t Ht].
  destruct (HJ _ _ Hj) as [_ (e & He & Hty & _)].
  destruct (HT _ _ Ht) as [_ (e' & He' & Hty' & _)].
  congruence.
Qed.

End Invariant.

Section Restore.
Context {env : Env}.
Import ScheduleService.

Lemma State_eta st :
  mkState (store st) (cronJobs st) (timers st) (dailySummaryJob st) (outbox st)
          (strayJobs st) (strayTimers st) = st.
Proof. by destruct st. Qed.

Lemma registersJob_not_expires now e : registersJob e = true -> expires now e = false.
Proof. unfold registersJob, expires. by destruct (Entity.enabled e), (Entity.type e). Qed.

Lemma registersTimer_not_expires now e : registersTimer now e = true -> expires now e = false.
Proof.
  unfold registersTimer, expires.
  destruct (Entity.enabled e), (Entity.type e), (Entity.scheduledAt e); simpl; try done.
  intros H. apply Z.gtb_lt in H. apply Z.leb_gt. lia.
Qed.

Lemma registersJob_not_timer now e : registersJob e = true -> registersTimer now e = false.
Proof. unfold registersJob, registersTimer. by destruct (Entity.enabled e), (Entity.type e). Qed.

(** One iteration of the restore loop. *)
Lemma restoreOne_ok now e st :
  restorable e = true ->
  restoreOne now e st =
    (mkState (storeAfter now [e] (store st)) (jobsAfter [e] (cronJobs st))
             (timersAfter now [e] (timers st)) (dailySummaryJob st) (outbox st)
             (strayJobsAfter [e] (cronJobs st) (strayJobs st))
             (strayTimersAfter now [e] (timers st) (strayTimers st)),
     Return tt).
Proof.
  unfold restorable, restoreOne, storeAfter, jobsAfter, timersAfter,
    strayJobsAfter, strayTimersAfter, registersJob, registersTimer, expires. simpl.
  destruct (Entity.enabled e) eqn:Een; simpl; [|by rewrite State_eta].
  destruct (Entity.type e) eqn:Ety; simpl.
  - intros _. unfold startCronJob.
    destruct (cronAccepts (Entity.cron e)); simpl; [done|by rewrite State_eta].
  - destruct (Entity.scheduledAt e) as [t|] eqn:Eat; simpl; [intros _|done].
    destruct (t >? now) eqn:Egt.
    + unfold startTimer. rewrite Eat.
      assert ((t - now <=? 0) = false) as -> by (apply Z.gtb_lt in Egt; apply Z.leb_gt; lia).
      assert ((t <=? now) = false) as -> by (apply Z.gtb_lt in Egt; apply Z.leb_gt; lia).
      done.
    + assert ((t <=? now) = true) as ->.
      { apply Z.leb_le. destruct (Z.gtb_spec t now); [done|lia]. }
      done.
  - intros _. by rewrite State_eta.
Qed.

Lemma restoreOne_abort now e st :
  restorable e = false -> restoreOne now e st = (st, Throw TypeError).
Proof.
  unfold restorable, restoreOne.
  destruct (Entity.enabled e), (Entity.type e), (Entity.scheduledAt e); simpl; done.
Qed.

(** The restore loop in closed form: it processes the rows up to the
    first one it trips over. *)
Lemma forEach_restore now l st :
  exists l1 l2 r,
    l = l1 ++ l2 /\
    forEach l (restoreOne now) st =
      (mkState (storeAfter now l1 (store st)) (jobsAfter l1 (cronJobs st))
               (timersAfter now l1 (timers st)) (dailySummaryJob st) (outbox st)
               (strayJobsAfter l1 (cronJobs st) (strayJobs st))
               (strayTimersAfter now l1 (timers st) (strayTimers st)), r) /\
    (forallb restorable l = true -> l2 = [] /\ r = Return tt).
Proof.
  revert st. induction l as [|e l IH]; intros st.
  - exists [], [], (Return tt). split; [done|]. split; [|done].
    simpl. unfold ret. by rewrite State_eta.
  - destruct (restorable e) eqn:Er.
    + destruct (IH (restoreOne now e st).1) as (l1 & l2 & r & -> & Hrun & Hall).
      exists (e :: l1), l2, r. split; [done|]. split.
      * pose proof (restoreOne_ok now e st Er) as Hone.
        cbn [forEach]. unfold bind. rewrite Hone. rewrite Hone in Hrun.
        cbn [fst store cronJobs timers dailySummaryJob outbox strayJobs strayTimers] in Hrun.
        rewrite Hrun. reflexivity.
      * simpl. rewrite Er. simpl. apply Hall.
    + exists [], (e :: l), (Throw TypeError). split; [done|]. split.
      * cbn [forEach]. unfold bind. rewrite restoreOne_abort by done.
        simpl. by rewrite State_eta.
      * simpl. by rewrite Er.
Qed.

Lemma restore_InvC_any now l rows J T :
  InvC false rows J T ->
  (forall e, In e l -> exists r, Storage.findById rows (Entity.id e) = Some r
                                  /\ Entity.type r = Entity.type e) ->
  InvC false (storeAfter now l rows) (jobsAfter l J) (timersAfter now l T).
Proof.
  revert rows J T. induction l as [|e l IH]; intros rows J T HI Hl; [done|].
  destruct (Hl e (or_introl eq_refl)) as (r & Hr & Hty).
  cbn [storeAfter jobsAfter timersAfter fold_left].
  apply IH.
  - set (rows1 := if expires now e
                  then (Storage.updateRows rows (Entity.id e) (Partial.only_enabled false)).1
                  else rows).
    assert (InvC false rows1 J T) as HI1.
    { unfold rows1. destruct (expires now e); [|done].
      eapply InvC_update; eauto. done. }
    assert (forall ty, Entity.type e = ty -> backed false ty rows1 (Entity.id e)) as Hb.
    { intros ty <-. unfold rows1. destruct (expires now e).
      - apply backed_update; [|done]. by exists r.
      - by exists r. }
    assert (InvC false rows1
              (if registersJob e then <[Entity.id e := {| job_schedule := e |}]> J else J) T) as HI2.
    { destruct (registersJob e) eqn:E; [|done]. apply InvC_job; [done|]. apply Hb.
      unfold registersJob in E. by destruct (Entity.enabled e), (Entity.type e). }
    destruct (registersTimer now e) eqn:E; [|done]. apply InvC_timer; [done|]. apply Hb.
    unfold registersTimer in E. by destruct (Entity.enabled e), (Entity.type e).
  - intros e' He'. destruct (Hl e' (or_intror He')) as (r' & Hr' & Hty').
    destruct (expires now e); [|by exists r'].
    rewrite findById_update. destruct (String.eqb_spec (Entity.id e') (Entity.id e)) as [Heq|Hne].
    + rewrite Heq in Hr'. rewrite Hr in *. simpl. eexists. split; [done|].
      simpl. congruence.
    + by exists r'.
Qed.

Lemma restore_InvC_init now l rows J T :
  InvC true rows J T ->
  NoDup (map Entity.id l) ->
  (forall e, In e l -> Storage.findById rows (Entity.id e) = Some e) ->
  (forall e, In e l -> J !! Entity.id e = None /\ T !! Entity.id e = None) ->
  InvC true (storeAfter now l rows) (jobsAfter l J) (timersAfter now l T).
Proof.
  revert rows J T. induction l as [|e l IH]; intros rows J T HI Hnd Hl Hfree; [done|].
  apply NoDup_cons in Hnd as [Hne Hnd].
  assert (forall e', In e' l -> Entity.id e' <> Entity.id e) as Hids.
  { intros e' He' Heq. apply Hne. rewrite <- Heq. by apply list_elem_of_In, in_map. }
  pose proof (Hl e (or_introl eq_refl)) as Hr.
  destruct (Hfree e (or_introl eq_refl)) as [HJe HTe].
  cbn [storeAfter jobsAfter timersAfter fold_left].
  apply IH; [|done| |].
  - set (rows1 := if expires now e
                  then (Storage.updateRows rows (Entity.id e) (Partial.only_enabled false)).1
                  else rows).
    assert (InvC true rows1 J T) as HI1.
    { unfold rows1. destruct (expires now e); [|done].
      eapply InvC_update; eauto. }
    assert (InvC true rows1
              (if registersJob e then <[Entity.id e := {| job_schedule := e |}]> J else J) T) as HI2.
    { destruct (registersJob e) eqn:E; [|done]. apply InvC_job; [done|].
      unfold rows1. rewrite (registersJob_not_expires now e E).
      exists e. unfold registersJob in E.
      by destruct (Entity.enabled e), (Entity.type e). }
    destruct (registersTimer now e) eqn:E; [|done]. apply InvC_timer; [done|].
    unfold rows1. rewrite (registersTimer_not_expires now e E).
    exists e. unfold registersTimer in E.
    by destruct (Entity.enabled e), (Entity.type e).
  - intros e' He'. pose proof (Hids e' He') as Hn.
    destruct (expires now e); [|by apply Hl; right].
    rewrite findById_update. destruct (String.eqb_spec (Entity.id e') (Entity.id e)); [done|].
    by apply Hl; right.
  - intros e' He'. pose proof (Hids e' He') as Hn.
    destruct (Hfree e' (or_intror He')) as [HJ' HT'].
    split.
    + destruct (registersJob e); [|done]. by rewrite lookup_insert_ne.
    + destruct (registersTimer now e); [|done]. by rewrite lookup_insert_ne.
Qed.

(** A loop that registers under ids the maps do not hold drops no handle. *)
Lemma strayJobsAfter_fresh l m s :
  NoDup (map Entity.id l) -> (forall e, In e l -> m !! Entity.id e = None) ->
  strayJobsAfter l m s = s.
Proof.
  revert m s. induction l as [|e l IH]; intros m s Hnd Hfree; [done|].
  apply NoDup_cons in Hnd as [Hne Hnd]. cbn [strayJobsAfter].
  rewrite (Hfree e (or_introl eq_refl)). cbn [option_list]. rewrite app_nil_r.
  assert ((if registersJob e then s else s) = s) as -> by by destruct (registersJob e).
  apply IH; [done|]. intros e' He'. cbn [jobsAfter fold_left].
  destruct (registersJob e); [|by apply Hfree; right].
  rewrite lookup_insert_ne; [by apply Hfree; right|].
  intros Heq. apply Hne. rewrite Heq. by apply list_elem_of_In, in_map.
Qed.

Lemma strayTimersAfter_fresh now l m s :
  NoDup (map Entity.id l) -> (forall e, In e l -> m !! Entity.id e = None) ->
  strayTimersAfter now l m s = s.
Proof.
  revert m s. induction l as [|e l IH]; intros m s Hnd Hfree; [done|].
  apply NoDup_cons in Hnd as [Hne Hnd]. cbn [strayTimersAfter].
  rewrite (Hfree e (or_introl eq_refl)). cbn [option_list]. rewrite app_nil_r.
  assert ((if registersTimer now e then s else s) = s) as ->
    by by destruct (registersTimer now e).
  apply IH; [done|]. intros e' He'. cbn [timersAfter fold_left].
  destruct (registersTimer now e); [|by apply Hfree; right].
  rewrite lookup_insert_ne; [by apply Hfree; right|].
  intros Heq. apply Hne. rewrite Heq. by apply list_elem_of_In, in_map.
Qed.

End Restore.

(** ** Every operation preserves the invariant *)

Lemma isEmpty_only_enabled b : Partial.isEmpty (Partial.only_enabled b) = false.
Proof. done. Qed.

Ltac unfold_service :=
  unfold ScheduleService.findById, ScheduleService.stopJob,
    ScheduleService.sendScheduledMessage in *;
  unfold ScheduleService.storage_findAll, ScheduleService.storage_findById,
    ScheduleService.storage_create, ScheduleService.storage_update,
    ScheduleService.storage_delete, ScheduleService.stopJob,
    ScheduleService.startCronJob, ScheduleService.startTimer,
    ScheduleService.sendScheduledMessage, ScheduleService.findById,
    Storage.update, bind, ret, throw, gets, modify in *;
  rewrite ?isEmpty_only_enabled in *.

Ltac simpl_state :=
  cbn [fst snd store cronJobs timers dailySummaryJob outbox strayJobs strayTimers
       set_store set_cronJobs set_timers set_dailySummaryJob set_outbox
       set_strayJobs set_strayTimers ScheduleService.setCronJob
       ScheduleService.setTimer ScheduleService.forgetTimer] in *.


Section Preservation.
Context {env : Env}.

Lemma InvC_update_same b rows J T i p :
  InvC b rows J T ->
  (b = true -> Partial.enabled p = Some false -> J !! i = None /\ T !! i = None) ->
  InvC b (Storage.updateRows rows i p).1 J T.
Proof. intros HI Hp. eapply InvC_update; eauto. Qed.

Lemma InvC_stop b rows J T i :
  InvC b rows J T -> InvC b rows (delete i J) (delete i T).
Proof. intros HI. eapply InvC_sub; eauto using delete_sub. Qed.

Lemma newDate_pure s st : exists r, ScheduleService.newDate s st = (st, r).
Proof. unfold ScheduleService.newDate. destruct (Date_parse s); by eexists. Qed.

Lemma dateOrNull_pure o st : exists r, ScheduleService.dateOrNull o st = (st, r).
Proof.
  unfold ScheduleService.dateOrNull. destruct o as [s|]; [|by eexists].
  destruct (JSString.truthy s); [|by eexists].
  unfold bind. destruct (newDate_pure s st) as [[t|e] ->]; by eexists.
Qed.

Lemma dateIfDefined_pure o st : exists r, ScheduleService.dateIfDefined o st = (st, r).
Proof.
  unfold ScheduleService.dateIfDefined. destruct o as [s|]; [|by eexists].
  unfold bind. destruct (newDate_pure s st) as [[t|e] ->]; by eexists.
Qed.

Lemma create_Inv b now newId dto st :
  Inv b st -> Storage.findById (store st) newId = None ->
  Inv b (ScheduleService.create now newId dto st).1.
Proof.
  intros HI Hfresh. unfold Inv, ScheduleService.create in *. unfold_service.
  destruct (ScheduleType_eqb _ _ && _ && _); simpl_state; [done|].
  destruct (dateOrNull_pure (CreateScheduleDto.scheduledAt dto) st) as [[sAt|e] ->];
    simpl_state; [|done].
  match goal with |- context [Storage.create ?a ?b ?c ?d] =>
    set (r := Storage.create a b c d) end.
  assert (InvC b r.1 (cronJobs st) (timers st)) as HC by by apply InvC_create.
  assert (backed b (Entity.type r.2) r.1 (Entity.id r.2)) as HB.
  { exists r.2. unfold r at 1. rewrite findById_create by done.
    simpl. by rewrite String.eqb_refl. }
  destruct (Entity.type r.2) eqn:Ety; simpl_state.
  - destruct (cronAccepts _); simpl_state; [|done]. by apply InvC_job.
  - destruct (Entity.scheduledAt r.2); simpl_state; [|done].
    destruct (_ <=? 0); simpl_state; [done|]. by apply InvC_timer.
  - done.
Qed.

Lemma update_Inv b now i dto st :
  Inv b st -> Inv b (ScheduleService.update now i dto st).1.
Proof.
  intros HI. unfold Inv, ScheduleService.update in *. unfold_service. simpl_state.
  destruct (Storage.findById (store st) i) as [existing|] eqn:Ex; simpl_state.
  2:{ done. }
  destruct (JSString.truthy_opt _ && _ && _); simpl_state; [done|].
  pose proof (InvC_stop _ _ _ _ i HI) as HS.
  match goal with |- context [ScheduleService.dateIfDefined ?o ?s] =>
    destruct (dateIfDefined_pure o s) as [[sAt|e] ->] end; simpl_state; [|done].
  destruct (Partial.isEmpty _); simpl_state; [done|].
  match goal with |- context [Storage.updateRows ?a ?b ?c] =>
    set (r := Storage.updateRows a b c) end.
  assert (InvC b r.1 (delete i (cronJobs st)) (delete i (timers st))) as HU.
  { apply InvC_update_same; [done|]. intros _ _. by rewrite !lookup_delete_eq. }
  assert (r.2 = Some (Partial.apply
            (Partial.mk (UpdateScheduleDto.name dto) (UpdateScheduleDto.message dto)
               (UpdateScheduleDto.chatId dto) (UpdateScheduleDto.cron dto) sAt
               (UpdateScheduleDto.enabled dto) (UpdateScheduleDto.eventTime dto)
               (UpdateScheduleDto.description dto)) existing)) as Hr2.
  { unfold r, Storage.updateRows. cbn [snd fst].
    pose proof (findById_update (store st) i
      (Partial.mk (UpdateScheduleDto.name dto) (UpdateScheduleDto.message dto)
               (UpdateScheduleDto.chatId dto) (UpdateScheduleDto.cron dto) sAt
               (UpdateScheduleDto.enabled dto) (UpdateScheduleDto.eventTime dto)
               (UpdateScheduleDto.description dto)) i) as H.
    unfold Storage.updateRows in H. cbn [fst] in H. rewrite H, String.eqb_refl, Ex. done. }
  assert (Storage.findById r.1 i = r.2) as Hfind by done.
  rewrite Hr2. rewrite Hr2 in Hfind. simpl_state.
  set (updated := Partial.apply _ existing) in *.
  assert (Entity.id updated = i) as Hid.
  { apply findById_Some in Ex as [<- _]. done. }
  destruct (Entity.enabled updated) eqn:Een; simpl_state.
  2:{ exact HU. }
  destruct (Entity.type updated) eqn:Ety; simpl_state.
  - destruct (cronAccepts _); simpl_state; [|done].
    apply InvC_job; [done|]. rewrite Hid. by exists updated.
  - destruct (Entity.scheduledAt updated) as [t|] eqn:Eat; simpl_state.
    + destruct (t >? now); simpl_state.
      * destruct (_ <=? 0); simpl_state; [done|].
        apply InvC_timer; [done|]. rewrite Hid. by exists updated.
      * apply InvC_update_same; [done|]. intros _ _. by rewrite !lookup_delete_eq.
    + apply InvC_update_same; [done|]. intros _ _. by rewrite !lookup_delete_eq.
  - done.
Qed.

Lemma delete_Inv b i st : Inv b st -> Inv b (ScheduleService.delete i st).1.
Proof.
  intros HI. unfold Inv, ScheduleService.delete in *. unfold_service. simpl_state.
  destruct (Storage.findById (store st) i) as [existing|] eqn:Ex; simpl_state; [|done].
  apply InvC_delete; [by apply InvC_stop|by rewrite lookup_delete_eq..].
Qed.

Lemma toggleEnabled_Inv b now i st :
  Inv b st -> Inv b (ScheduleService.toggleEnabled now i st).1.
Proof.
  intros HI. unfold Inv, ScheduleService.toggleEnabled in *. unfold_service. simpl_state.
  destruct (Storage.findById (store st) i) as [schedule|] eqn:Ex; simpl_state; [|done].
  pose proof (InvC_stop _ _ _ _ i HI) as HS.
  assert (Entity.id schedule = i) as Hid by (by apply findById_Some in Ex as [? _]).
  assert (forall en, InvC b (Storage.updateRows (store st) i (Partial.only_enabled en)).1
            (delete i (cronJobs st)) (delete i (timers st))) as HU.
  { intros en. apply InvC_update_same; [done|]. intros _ _. by rewrite !lookup_delete_eq. }
  assert (forall ty, Entity.type schedule = ty ->
            backed b ty (Storage.updateRows (store st) i (Partial.only_enabled true)).1 i) as HB.
  { intros ty <-. eexists. rewrite findById_update, String.eqb_refl, Ex. done. }
  destruct (Entity.enabled schedule) eqn:Een; simpl_state; [apply HU|].
  destruct (Entity.type schedule) eqn:Ety; simpl_state.
  - destruct (cronAccepts _); simpl_state; [|apply HU].
    apply InvC_job; [apply HU|]. rewrite Hid. by apply HB.
  - destruct (Entity.scheduledAt schedule) as [t|] eqn:Eat; simpl_state; [|done].
    destruct (t <=? now); simpl_state; [done|].
    destruct (_ <=? 0); simpl_state; [apply HU|].
    apply InvC_timer; [apply HU|]. rewrite Hid. by apply HB.
  - apply HU.
Qed.

(** The callback of a timeout that has left the map it was filed in. *)
Lemma timerFire_Inv b send i tm st :
  Inv b st -> timers st !! i = Some tm ->
  Inv b (ScheduleService.timerFire send (timer_schedule tm)
           (set_timers (delete i) st)).1.
Proof.
  intros HI Htm. unfold Inv, ScheduleService.timerFire in *. unfold_service. simpl_state.
  destruct HI as (Hnd & HJ & HT). destruct (HT _ _ Htm) as [Hid Hb]. rewrite Hid.
  eapply InvC_update; [by split|done| |].
  - intros k x Hk. by do 2 apply delete_sub in Hk.
  - intros _ _. split; [|by rewrite lookup_delete_eq].
    destruct (cronJobs st !! i) eqn:E; [|done].
    exfalso. eapply (InvC_disjoint b (store st) (cronJobs st) (timers st) i);
      [by split|by eexists..].
Qed.

(** The callback of a stray timeout. *)
Lemma strayTimerFire_Inv send s st f :
  Inv false st ->
  Inv false (ScheduleService.timerFire send s (set_strayTimers f st)).1.
Proof.
  intros HI. unfold Inv, ScheduleService.timerFire in *. unfold_service. simpl_state.
  eapply InvC_update; [done|done|apply delete_sub|done].
Qed.

Lemma shutdown_Inv b st : Inv b st -> Inv b (ScheduleService.onModuleDestroy st).1.
Proof.
  intros (Hnd & _). unfold Inv, ScheduleService.onModuleDestroy, ScheduleService.clearAllJobs.
  unfold_service. simpl_state. by apply InvC_empty.
Qed.

Lemma forEach_sendDigest send kstNow l st :
  forEach l (ScheduleService.sendDigest send kstNow) st =
    (set_outbox (fun o => o ++ digests send kstNow l) st, Return tt).
Proof.
  revert st. induction l as [|g l IH]; intros st.
  - simpl. unfold ret, set_outbox. rewrite app_nil_r. by rewrite State_eta.
  - cbn [forEach]. unfold bind, ScheduleService.sendDigest, digests. cbn [flat_map].
    destruct (ScheduleService.groupDigest kstNow g.2) as [text|].
    + unfold modify. rewrite IH. unfold set_outbox. simpl. by rewrite <- app_assoc.
    + unfold ret. rewrite IH. done.
Qed.

Lemma sendDailySummary_run send now st :
  ScheduleService.sendDailySummary send now st =
    (set_outbox (fun o => o ++ digests send (now + ScheduleService.kstOffset)
       (ScheduleService.groupByChatId
          (List.filter Entity.enabled (Storage.findAll (store st))))) st, Return tt).
Proof.
  unfold ScheduleService.sendDailySummary. unfold_service. simpl_state.
  apply forEach_sendDigest.
Qed.

Lemma In_findAll_prefix rows l1 l2 e :
  Storage.findAll rows = l1 ++ l2 -> In e l1 -> In e rows.
Proof.
  intros Hl He. apply list_elem_of_In.
  rewrite <- (findAll_Permutation rows), Hl. apply list_elem_of_In, in_or_app. by left.
Qed.

Lemma restoreSchedules_Inv now st :
  Inv false st -> Inv false (ScheduleService.restoreSchedules now st).1.
Proof.
  intros HI. unfold Inv, ScheduleService.restoreSchedules in *. unfold_service.
  destruct (forEach_restore now (Storage.findAll (store st)) st)
    as (l1 & l2 & r & Hl & Hrun & _).
  simpl_state. rewrite Hrun. simpl_state.
  apply restore_InvC_any; [done|]. intros e He. exists e. split; [|done].
  apply findById_elem; [by destruct HI|]. by eapply In_findAll_prefix.
Qed.

Lemma onModuleInit_Inv now rows :
  NoDup (map Entity.id rows) ->
  Inv true (ScheduleService.onModuleInit now (initial rows)).1.
Proof.
  intros Hnd. unfold Inv, ScheduleService.onModuleInit, ScheduleService.restoreSchedules,
    ScheduleService.startDailySummary, initial. unfold_service. simpl_state.
  destruct (forEach_restore now (Storage.findAll rows) (mkState rows ∅ ∅ false [] [] []))
    as (l1 & l2 & r & Hl & Hrun & _).
  rewrite Hrun. simpl_state.
  assert (InvC true (storeAfter now l1 rows) (jobsAfter l1 ∅) (timersAfter now l1 ∅)) as H.
  { apply restore_InvC_init.
    - by apply InvC_empty.
    - assert (NoDup (map Entity.id (l1 ++ l2))) as Hn.
      { assert (Permutation (map Entity.id (l1 ++ l2)) (map Entity.id rows)) as HP.
        { rewrite <- Hl. apply Permutation_map, findAll_Permutation. }
        by rewrite HP. }
      rewrite map_app in Hn. by apply NoDup_app in Hn as [? _].
    - intros e He. apply findById_elem; [done|]. by eapply In_findAll_prefix.
    - intros e _. by rewrite !lookup_empty. }
  by destruct r.
Qed.

Lemma exec_Inv b send now op st :
  Inv b st -> admissible st op ->
  (b = true -> isRestore op = false /\ noStrays st) ->
  Inv b (exec send now op st).
Proof.
  intros HI Hadm Hb. destruct op; cbn [exec].
  - by apply create_Inv.
  - done.
  - by apply update_Inv.
  - by apply delete_Inv.
  - by apply toggleEnabled_Inv.
  - destruct b; [by destruct (Hb eq_refl)|]. by apply restoreSchedules_Inv.
  - by apply shutdown_Inv.
  - destruct (timers st !! id) eqn:E; [|done]. by eapply timerFire_Inv.
  - by destruct (cronJobs st !! id).
  - by rewrite sendDailySummary_run.
  - destruct b.
    + destruct (Hb eq_refl) as (_ & _ & ->). done.
    + destruct (strayTimers st !! n); [|done]. by apply strayTimerFire_Inv.
  - by destruct (strayJobs st !! n).
Qed.

Lemma reachable_Inv st : reachable st -> Inv false st.
Proof.
  induction 1 as [rows Hnd|st send now op _ IH Hadm].
  - by apply InvC_empty.
  - by apply exec_Inv.
Qed.

(** On a running service no registration finds an older handle under
    its id, so none is left behind. *)
Lemma no_entry_without_row b st i :
  Inv b st -> Storage.findById (store st) i = None ->
  cronJobs st !! i = None /\ timers st !! i = None.
Proof.
  intros (_ & HJ & HT) Hrow. split.
  - destruct (cronJobs st !! i) as [job|] eqn:E; [|done].
    destruct (HJ _ _ E) as [_ (e & He & _)]. congruence.
  - destruct (timers st !! i) as [tm|] eqn:E; [|done].
    destruct (HT _ _ E) as [_ (e & He & _)]. congruence.
Qed.

Lemma exec_noStrays b send now op st :
  Inv b st -> noStrays st -> isRestore op = false -> admissible st op ->
  noStrays (exec send now op st).
Proof.
  intros HI [HsJ HsT] Hop Hadm. unfold noStrays.
  destruct op; cbn [exec]; try discriminate Hop.
  - destruct (no_entry_without_row _ _ _ HI Hadm) as [HJn HTn].
    unfold ScheduleService.create. unfold_service.
    destruct (ScheduleType_eqb _ _ && _ && _); simpl_state; [done|].
    destruct (dateOrNull_pure (CreateScheduleDto.scheduledAt dto) st) as [[sAt|e] ->];
      simpl_state; [|done].
    match goal with |- context [Storage.create ?a ?b ?c ?d] =>
      set (r := Storage.create a b c d) end.
    assert (Entity.id r.2 = newId) as Hid by done.
    destruct (Entity.type r.2) eqn:Ety; simpl_state.
    + destruct (cronAccepts _); simpl_state; [|done]. by rewrite Hid, HsJ, HJn.
    + destruct (Entity.scheduledAt r.2) as [t|]; simpl_state; [|done].
      destruct (_ <=? 0); simpl_state; [done|]. by rewrite Hid, HsT, HTn.
    + done.
  - done.
  - unfold ScheduleService.update. unfold_service. simpl_state.
    destruct (Storage.findById (store st) id) as [existing|] eqn:Ex; simpl_state; [|done].
    assert (Entity.id existing = id) as Hid by (by apply findById_Some in Ex as [? _]).
    destruct (JSString.truthy_opt _ && _ && _); simpl_state; [done|].
    match goal with |- context [ScheduleService.dateIfDefined ?o ?s] =>
      destruct (dateIfDefined_pure o s) as [[sAt|e] ->] end; simpl_state; [|done].
    destruct (Partial.isEmpty _); simpl_state; [done|].
    match goal with |- context [Storage.updateRows ?a ?b ?c] =>
      set (r := Storage.updateRows a b c) end.
    assert (r.2 = Some (Partial.apply
            (Partial.mk (UpdateScheduleDto.name dto) (UpdateScheduleDto.message dto)
               (UpdateScheduleDto.chatId dto) (UpdateScheduleDto.cron dto) sAt
               (UpdateScheduleDto.enabled dto) (UpdateScheduleDto.eventTime dto)
               (UpdateScheduleDto.description dto)) existing)) as Hr2.
    { unfold r, Storage.updateRows. cbn [snd fst].
      pose proof (findById_update (store st) id
        (Partial.mk (UpdateScheduleDto.name dto) (UpdateScheduleDto.message dto)
               (UpdateScheduleDto.chatId dto) (UpdateScheduleDto.cron dto) sAt
               (UpdateScheduleDto.enabled dto) (UpdateScheduleDto.eventTime dto)
               (UpdateScheduleDto.description dto)) id) as H.
      unfold Storage.updateRows in H. cbn [fst] in H.
      rewrite H, String.eqb_refl, Ex. done. }
    rewrite Hr2. simpl_state.
    set (updated := Partial.apply _ existing) in *.
    assert (Entity.id updated = id) as Hidu by exact Hid.
    destruct (Entity.enabled updated); simpl_state; [|done].
    destruct (Entity.type updated); simpl_state.
    + destruct (cronAccepts _); simpl_state; [|done].
      by rewrite Hidu, HsJ, lookup_delete_eq.
    + destruct (Entity.scheduledAt updated) as [t|]; simpl_state; [|done].
      destruct (t >? now); simpl_state; [|done].
      destruct (_ <=? 0); simpl_state; [done|]. by rewrite Hidu, HsT, lookup_delete_eq.
    + done.
  - unfold ScheduleService.delete. unfold_service. simpl_state.
    by destruct (Storage.findById (store st) id).
  - unfold ScheduleService.toggleEnabled. unfold_service. simpl_state.
    destruct (Storage.findById (store st) id) as [schedule|] eqn:Ex; simpl_state; [|done].
    assert (Entity.id schedule = id) as Hid by (by apply findById_Some in Ex as [? _]).
    destruct (Entity.enabled schedule); cbn [negb]; simpl_state;
      rewrite ?isEmpty_only_enabled; simpl_state; [done|].
    destruct (Entity.type schedule); simpl_state.
    + destruct (cronAccepts _); simpl_state; rewrite ?isEmpty_only_enabled;
        simpl_state; [|done].
      by rewrite Hid, HsJ, lookup_delete_eq.
    + destruct (Entity.scheduledAt schedule) as [t|]; simpl_state; [|done].
      destruct (t <=? now); simpl_state; [done|].
      destruct (_ <=? 0); simpl_state; rewrite ?isEmpty_only_enabled; simpl_state;
        [done|].
      by rewrite Hid, HsT, lookup_delete_eq.
    + by rewrite ?isEmpty_only_enabled; simpl_state.
  - unfold ScheduleService.onModuleDestroy, ScheduleService.clearAllJobs.
    unfold_service. by simpl_state.
  - destruct (timers st !! id) as [tm|] eqn:Htm; [|done].
    destruct HI as (_ & _ & HT). destruct (HT _ _ Htm) as [Hid _].
    unfold ScheduleService.timerFire. unfold_service. simpl_state.
    by rewrite Hid, HsT, lookup_delete_eq.
  - destruct (cronJobs st !! id); [|done].
    unfold ScheduleService.cronTick. unfold_service. by simpl_state.
  - rewrite sendDailySummary_run. by simpl_state.
  - by rewrite HsT.
  - by rewrite HsJ.
Qed.

Lemma onModuleInit_noStrays now rows :
  NoDup (map Entity.id rows) ->
  noStrays (ScheduleService.onModuleInit now (initial rows)).1.
Proof.
  intros Hnd. unfold noStrays, ScheduleService.onModuleInit,
    ScheduleService.restoreSchedules, ScheduleService.startDailySummary, initial.
  unfold_service. simpl_state.
  destruct (forEach_restore now (Storage.findAll rows) (mkState rows ∅ ∅ false [] [] []))
    as (l1 & l2 & r & Hl & Hrun & _).
  rewrite Hrun. simpl_state.
  assert (NoDup (map Entity.id l1)) as Hn1.
  { assert (NoDup (map Entity.id (l1 ++ l2))) as Hn.
    { assert (Permutation (map Entity.id (l1 ++ l2)) (map Entity.id rows)) as HP.
      { rewrite <- Hl. apply Permutation_map, findAll_Permutation. }
      by rewrite HP. }
    rewrite map_app in Hn. by apply NoDup_app in Hn as [? _]. }
  rewrite strayJobsAfter_fresh, strayTimersAfter_fresh by (done || intros; apply lookup_empty).
  by destruct r.
Qed.

Lemma serving_Inv_noStrays st : serving st -> Inv true st /\ noStrays st.
Proof.
  induction 1 as [rows now Hnd|st send now op _ [IH IHs] Hop Hadm].
  - split; [by apply onModuleInit_Inv|by apply onModuleInit_noStrays].
  - split; [by apply exec_Inv|by eapply exec_noStrays].
Qed.

Lemma serving_Inv st : serving st -> Inv true st.
Proof. by intros [? _]%serving_Inv_noStrays. Qed.

Lemma serving_noStrays st : serving st -> noStrays st.
Proof. by intros [_ ?]%serving_Inv_noStrays. Qed.

End Preservation.

(** ** Calendar arithmetic *)

Lemma civil_roundtrip z :
  let '(y, m, d) := JSDate.civil_from_days z in
  JSDate.days_from_civil y m d = z /\ 1 <= m <= 12 /\ 1 <= d <= 31.
Proof.
  unfold JSDate.civil_from_days, JSDate.days_from_civil.
  set (z' := z + 719468).
  set (era := z' / 146097).
  set (doe := z' - era * 146097).
  assert (0 <= doe < 146097) as Hdoe by (unfold doe, era; Z.div_mod_to_equations; lia).
  set (yoe := (doe - doe / 1460 + doe / 36524 - doe / 146096) / 365).
  assert (0 <= yoe <= 399) as Hyoe by (unfold yoe; Z.div_mod_to_equations; lia).
  set (doy := doe - (365 * yoe + yoe / 4 - yoe / 100)).
  assert (0 <= doy <= 365) as Hdoy by (unfold doy, yoe; Z.div_mod_to_equations; lia).
  set (mp := (5 * doy + 2) / 153).
  assert (0 <= mp <= 11) as Hmp by (unfold mp; Z.div_mod_to_equations; lia).
  set (d := doy - (153 * mp + 2) / 5 + 1).
  assert (1 <= d <= 31) as Hd by (unfold d, mp; Z.div_mod_to_equations; lia).
  destruct (mp <? 10) eqn:Emp.
  - apply Z.ltb_lt in Emp.
    assert ((mp + 3 <=? 2) = false) as -> by (Z.div_mod_to_equations; lia).
    assert ((mp + 3 >? 2) = true) as -> by (Z.div_mod_to_equations; lia).
    split; [|lia].
    replace (mp + 3 - 3) with mp by lia.
    assert ((yoe + era * 400) / 400 = era) as -> by (Z.div_mod_to_equations; lia).
    unfold d, doy, doe, z'. Z.div_mod_to_equations. lia.
  - apply Z.ltb_ge in Emp.
    assert ((mp - 9 <=? 2) = true) as -> by (Z.div_mod_to_equations; lia).
    assert ((mp - 9 >? 2) = false) as -> by (Z.div_mod_to_equations; lia).
    split; [|lia].
    replace (mp - 9 + 9) with mp by lia.
    replace (yoe + era * 400 + 1 - 1) with (yoe + era * 400) by lia.
    assert ((yoe + era * 400) / 400 = era) as -> by (Z.div_mod_to_equations; lia).
    unfold d, doy, doe, z'. Z.div_mod_to_equations. lia.
Qed.

Lemma civil_year_lower z : 0 <= z -> 1600 <= (JSDate.civil_from_days z).1.1.
Proof.
  intros Hz. unfold JSDate.civil_from_days. cbn [fst].
  set (z' := z + 719468).
  set (era := z' / 146097).
  set (doe := z' - era * 146097).
  assert (4 <= era) as Hera by (unfold era, z'; Z.div_mod_to_equations; lia).
  assert (0 <= doe < 146097) as Hdoe by (unfold doe, era; Z.div_mod_to_equations; lia).
  set (yoe := (doe - doe / 1460 + doe / 36524 - doe / 146096) / 365).
  assert (0 <= yoe <= 399) as Hyoe by (unfold yoe; Z.div_mod_to_equations; lia).
  destruct (_ <=? 2); lia.
Qed.

Lemma UTC_of_components t :
  0 <= t ->
  JSDate.UTC (JSDate.getUTCFullYear t) (JSDate.getUTCMonth t) (JSDate.getUTCDate t)
    = JSDate.Day t * JSDate.msPerDay.
Proof.
  intros Ht.
  assert (0 <= JSDate.Day t) as Hday.
  { unfold JSDate.Day, JSDate.msPerDay. Z.div_mod_to_equations. lia. }
  pose proof (civil_roundtrip (JSDate.Day t)) as Hrt.
  pose proof (civil_year_lower (JSDate.Day t) Hday) as Hy.
  unfold JSDate.getUTCFullYear, JSDate.getUTCMonth, JSDate.getUTCDate.
  destruct (JSDate.civil_from_days (JSDate.Day t)) as [[y m] d].
  cbn [fst snd] in *. destruct Hrt as (Hrt & Hm & Hd).
  unfold JSDate.UTC.
  assert (((0 <=? y) && (y <=? 99)) = false) as ->.
  { apply andb_false_iff. right. apply Z.leb_gt. lia. }
  assert ((m - 1) / 12 = 0) as -> by (Z.div_mod_to_equations; lia).
  assert ((m - 1) mod 12 = m - 1) as -> by (Z.div_mod_to_equations; lia).
  f_equal. rewrite <- Hrt. unfold JSDate.days_from_civil.
  replace (m - 1 + 1) with m by lia. replace (y + 0) with y by lia.
  destruct (m <=? 2), (m >? 2); lia.
Qed.

(** Two instants have the same UTC year, month and day exactly when they
    fall on the same day number. *)
Lemma same_civil_date_iff a b :
  (JSDate.getUTCFullYear a =? JSDate.getUTCFullYear b)
  && (JSDate.getUTCMonth a =? JSDate.getUTCMonth b)
  && (JSDate.getUTCDate a =? JSDate.getUTCDate b)
  = (JSDate.Day a =? JSDate.Day b).
Proof.
  pose proof (civil_roundtrip (JSDate.Day a)) as Ha.
  pose proof (civil_roundtrip (JSDate.Day b)) as Hb.
  unfold JSDate.getUTCFullYear, JSDate.getUTCMonth, JSDate.getUTCDate.
  destruct (JSDate.civil_from_days (JSDate.Day a)) as [[ya ma] da] eqn:Ea.
  destruct (JSDate.civil_from_days (JSDate.Day b)) as [[yb mb] db] eqn:Eb.
  cbn [fst snd]. destruct Ha as [Ha _]. destruct Hb as [Hb _].
  destruct (Z.eqb_spec (JSDate.Day a) (JSDate.Day b)) as [Heq|Hne].
  - rewrite Heq, Eb in Ea. inversion Ea; subst. by rewrite !Z.eqb_refl.
  - destruct (Z.eqb_spec ya yb) as [->|]; [|done].
    destruct (Z.eqb_spec (ma - 1) (mb - 1)) as [Hm|]; [|done].
    destruct (Z.eqb_spec da db) as [->|]; [|done].
    assert (ma = mb) as -> by lia. congruence.
Qed.

(** ** The restore loop in detail *)

Section RestoreFacts.
Context {env : Env}.

Lemma find_has_id_None l i :
  ~ In i (map Entity.id l) -> find (Storage.has_id i) l = None.
Proof. intros H. by apply findById_None. Qed.

Lemma jobsAfter_cons e l J :
  jobsAfter (e :: l) J =
    jobsAfter l (if registersJob e
                 then <[Entity.id e := {| job_schedule := e |}]> J else J).
Proof. done. Qed.

Lemma timersAfter_cons now e l T :
  timersAfter now (e :: l) T =
    timersAfter now l
      (if registersTimer now e
       then <[Entity.id e := {| timer_schedule := e;
                timer_delay := setTimeoutDelay (default 0 (Entity.scheduledAt e) - now) |}]> T
       else T).
Proof. done. Qed.

Lemma storeAfter_cons now e l rows :
  storeAfter now (e :: l) rows =
    storeAfter now l
      (if expires now e
       then (Storage.updateRows rows (Entity.id e) (Partial.only_enabled false)).1
       else rows).
Proof. done. Qed.

Lemma jobsAfter_lookup l J i :
  NoDup (map Entity.id l) ->
  jobsAfter l J !! i =
    match find (Storage.has_id i) l with
    | Some e => if registersJob e then Some {| job_schedule := e |} else J !! i
    | None => J !! i
    end.
Proof.
  revert J. induction l as [|e l IH]; intros J Hnd; [done|].
  change (map Entity.id (e :: l)) with (Entity.id e :: map Entity.id l) in Hnd.
  apply NoDup_cons in Hnd as [Hne Hnd].
  rewrite jobsAfter_cons, IH by done. cbn [find].
  destruct (Storage.has_id i e) eqn:E.
  - apply has_id_true in E. subst i.
    rewrite find_has_id_None by (by rewrite <- list_elem_of_In).
    destruct (registersJob e); [by rewrite lookup_insert_eq|done].
  - apply has_id_false in E.
    assert ((if registersJob e
             then <[Entity.id e := {| job_schedule := e |}]> J else J) !! i = J !! i) as ->.
    { destruct (registersJob e); [by rewrite lookup_insert_ne|done]. }
    done.
Qed.

Lemma timersAfter_lookup now l T i :
  NoDup (map Entity.id l) ->
  timersAfter now l T !! i =
    match find (Storage.has_id i) l with
    | Some e => if registersTimer now e
                then Some {| timer_schedule := e;
                             timer_delay :=
                               setTimeoutDelay (default 0 (Entity.scheduledAt e) - now) |}
                else T !! i
    | None => T !! i
    end.
Proof.
  revert T. induction l as [|e l IH]; intros T Hnd; [done|].
  change (map Entity.id (e :: l)) with (Entity.id e :: map Entity.id l) in Hnd.
  apply NoDup_cons in Hnd as [Hne Hnd].
  rewrite timersAfter_cons, IH by done. cbn [find].
  destruct (Storage.has_id i e) eqn:E.
  - apply has_id_true in E. subst i.
    rewrite find_has_id_None by (by rewrite <- list_elem_of_In).
    destruct (registersTimer now e); [by rewrite lookup_insert_eq|done].
  - apply has_id_false in E.
    assert ((if registersTimer now e
             then <[Entity.id e := {| timer_schedule := e;
                      timer_delay := setTimeoutDelay (default 0 (Entity.scheduledAt e) - now) |}]> T
             else T) !! i = T !! i) as ->.
    { destruct (registersTimer now e); [by rewrite lookup_insert_ne|done]. }
    done.
Qed.

Lemma storeAfter_findById now l rows i :
  NoDup (map Entity.id l) ->
  Storage.findById (storeAfter now l rows) i =
    match find (Storage.has_id i) l with
    | Some e => if expires now e
                then Partial.apply (Partial.only_enabled false) <$> Storage.findById rows i
                else Storage.findById rows i
    | None => Storage.findById rows i
    end.
Proof.
  revert rows. induction l as [|e l IH]; intros rows Hnd; [done|].
  change (map Entity.id (e :: l)) with (Entity.id e :: map Entity.id l) in Hnd.
  apply NoDup_cons in Hnd as [Hne Hnd].
  rewrite storeAfter_cons, IH by done. cbn [find].
  destruct (Storage.has_id i e) eqn:E.
  - apply has_id_true in E. subst i.
    rewrite find_has_id_None by (by rewrite <- list_elem_of_In).
    destruct (expires now e); [|done].
    by rewrite findById_update, String.eqb_refl.
  - apply has_id_false in E.
    assert (forall rows', Storage.findById
              (if expires now e
               then (Storage.updateRows rows' (Entity.id e) (Partial.only_enabled false)).1
               else rows') i = Storage.findById rows' i) as Hsame.
    { intros rows'. destruct (expires now e); [|done].
      rewrite findById_update. destruct (String.eqb_spec i (Entity.id e)); [congruence|done]. }
    by rewrite Hsame.
Qed.

Lemma jobsAfter_size l J :
  NoDup (map Entity.id l) -> (forall e, In e l -> J !! Entity.id e = None) ->
  size (jobsAfter l J) = (size J + length (List.filter registersJob l))%nat.
Proof.
  revert J. induction l as [|e l IH]; intros J Hnd Hfree; [simpl; lia|].
  change (map Entity.id (e :: l)) with (Entity.id e :: map Entity.id l) in Hnd.
  apply NoDup_cons in Hnd as [Hne Hnd].
  rewrite jobsAfter_cons. cbn [List.filter]. rewrite IH; [|done|].
  - destruct (registersJob e); [|done].
    rewrite map_size_insert_None by (apply Hfree; by left). simpl. lia.
  - intros e' He'. destruct (registersJob e); [|by apply Hfree; right].
    rewrite lookup_insert_ne; [by apply Hfree; right|].
    intros Heq. apply Hne. rewrite Heq. by apply list_elem_of_In, in_map.
Qed.

Lemma timersAfter_size now l T :
  NoDup (map Entity.id l) -> (forall e, In e l -> T !! Entity.id e = None) ->
  size (timersAfter now l T) = (size T + length (List.filter (registersTimer now) l))%nat.
Proof.
  revert T. induction l as [|e l IH]; intros T Hnd Hfree; [simpl; lia|].
  change (map Entity.id (e :: l)) with (Entity.id e :: map Entity.id l) in Hnd.
  apply NoDup_cons in Hnd as [Hne Hnd].
  rewrite timersAfter_cons. cbn [List.filter]. rewrite IH; [|done|].
  - destruct (registersTimer now e); [|done].
    rewrite map_size_insert_None by (apply Hfree; by left). simpl. lia.
  - intros e' He'. destruct (registersTimer now e); [|by apply Hfree; right].
    rewrite lookup_insert_ne; [by apply Hfree; right|].
    intros Heq. apply Hne. rewrite Heq. by apply list_elem_of_In, in_map.
Qed.

Lemma filter_length_Permutation {A} (f : A -> bool) l l' :
  Permutation l l' -> length (List.filter f l) = length (List.filter f l').
Proof.
  induction 1 as [|x l l' _ IH|x y l|l l' l'' _ IH1 _ IH2]; simpl.
  - done.
  - destruct (f x); simpl; congruence.
  - destruct (f x), (f y); simpl; done.
  - congruence.
Qed.

Lemma liveRegistry_length st :
  length (liveRegistry st) = (size (cronJobs st) + size (timers st))%nat.
Proof.
  unfold liveRegistry. rewrite length_app, !length_fmap, !length_map_to_list. done.
Qed.

Lemma filter_disjoint_length {A} (f g : A -> bool) l :
  (forall x, f x = true -> g x = false) ->
  length (List.filter (fun x => f x || g x) l) =
    (length (List.filter f l) + length (List.filter g l))%nat.
Proof.
  intros Hfg. induction l as [|x l IH]; simpl; [done|].
  destruct (f x) eqn:Ef; simpl.
  - rewrite (Hfg _ Ef). simpl. lia.
  - destruct (g x); simpl; lia.
Qed.

End RestoreFacts.

(** ** The scheduler *)


Section SchedulerProperties.
Context {env : Env}.

Lemma running_Inv st : reachable st \/ serving st -> Inv false st.
Proof.
  intros [H|H]; [by apply reachable_Inv|]. by apply InvC_weaken, serving_Inv.
Qed.





(** C3. Creating a Manual schedule whose scheduledAt is not after now,
    updating a Manual schedule to such a scheduledAt, and re-enabling a
    disabled Manual schedule whose scheduledAt is not after now each
    throw the PastScheduledTime error, and the state after the failed
    call (store, registry and the rest) is the state before it. For
    toggleEnabled this is on the states of a running service. *)
Theorem past_scheduled_time_rejected_without_mutation (now : Z) (st : State) :
  (forall newId dto s t,
      CreateScheduleDto.type dto = manual ->
      CreateScheduleDto.scheduledAt dto = Some s -> JSString.truthy s = true ->
      Date_parse s = Some t -> t <= now ->
      ScheduleService.create now newId dto st
        = (st, Throw (BadRequestException MustBeFuture)))
  /\ (forall i dto existing s t,
      Storage.findById (store st) i = Some existing ->
      Entity.type existing = manual ->
      UpdateScheduleDto.scheduledAt dto = Some s -> JSString.truthy s = true ->
      Date_parse s = Some t -> t <= now ->
      ScheduleService.update now i dto st
        = (st, Throw (BadRequestException MustBeFuture)))
  /\ (serving st ->
      forall i schedule t,
      Storage.findById (store st) i = Some schedule ->
      Entity.type schedule = manual -> Entity.enabled schedule = false ->
      Entity.scheduledAt schedule = Some t -> t <= now ->
      ScheduleService.toggleEnabled now i st
        = (st, Throw (BadRequestException CannotReenablePast))).
Proof.
  split; [|split].
  - intros newId dto s t Hty Hs Htr Hp Hle.
    unfold ScheduleService.create. unfold_service.
    unfold ScheduleService.parsed_le_now. rewrite Hty, Hs. simpl. rewrite Htr, Hp. simpl.
    by apply Z.leb_le in Hle as ->.
  - intros i dto existing s t Ex Hty Hs Htr Hp Hle.
    unfold ScheduleService.update. unfold_service. simpl_state. rewrite Ex.
    unfold ScheduleService.parsed_le_now. rewrite Hty, Hs. simpl. rewrite Htr, Hp. simpl.
    by apply Z.leb_le in Hle as ->.
  - intros HI%serving_Inv i schedule t Ex Hty Hen Hat Hle.
    unfold ScheduleService.toggleEnabled. unfold_service. simpl_state.
    rewrite Ex. simpl_state. rewrite Hen, Hty, Hat. cbn [negb].
    apply Z.leb_le in Hle as ->. simpl_state.
    destruct HI as (_ & HJ & HT).
    assert (cronJobs st !! i = None) as Hj.
    { destruct (cronJobs st !! i) eqn:E; [|done].
      destruct (HJ _ _ E) as [_ (e & He & _ & Hen')]. specialize (Hen' eq_refl). congruence. }
    assert (timers st !! i = None) as Ht.
    { destruct (timers st !! i) eqn:E; [|done].
      destruct (HT _ _ E) as [_ (e & He & _ & Hen')]. specialize (Hen' eq_refl). congruence. }
    unfold set_timers, set_cronJobs. simpl_state.
    rewrite !delete_id by done. by rewrite State_eta.
Qed.

(** C10. Creating a Fixed schedule whose cron source the recurring-job
    primitive rejects returns normally: the record is appended to the
    store with enabled = true and returned, and no live job and no timer
    is registered under its id. (The record's other columns are accepted
    by the store.) *)
Theorem create_fixed_with_rejected_cron_persists_silently
    (now : Z) (newId : string) (dto : CreateScheduleDto.t) (st : State) :
  reachable st \/ serving st ->
  Storage.findById (store st) newId = None ->
  CreateScheduleDto.type dto = fixed ->
  cronAccepts (CreateScheduleDto.cron dto) = false ->
  (forall s, CreateScheduleDto.scheduledAt dto = Some s -> JSString.truthy s = true ->
             is_Some (Date_parse s)) ->
  exists schedule,
    ScheduleService.create now newId dto st
      = (set_store (fun rows => rows ++ [schedule]) st, Return schedule)
    /\ Entity.id schedule = newId
    /\ Entity.type schedule = fixed
    /\ Entity.enabled schedule = true
    /\ Entity.cron schedule = CreateScheduleDto.cron dto
    /\ Storage.findById (store (ScheduleService.create now newId dto st).1) newId
       = Some schedule
    /\ cronJobs (ScheduleService.create now newId dto st).1 !! newId = None
    /\ timers (ScheduleService.create now newId dto st).1 !! newId = None.
Proof.
  intros HI%running_Inv Hfresh Hty Hrej Hdate.
  assert (cronJobs st !! newId = None /\ timers st !! newId = None) as [Hj Ht].
  { destruct HI as (_ & HJ & HT). split.
    - destruct (cronJobs st !! newId) eqn:E; [|done].
      destruct (HJ _ _ E) as [_ (e & He & _)]. congruence.
    - destruct (timers st !! newId) eqn:E; [|done].
      destruct (HT _ _ E) as [_ (e & He & _)]. congruence. }
  assert (exists d, ScheduleService.dateOrNull (CreateScheduleDto.scheduledAt dto) st
                    = (st, Return d)) as [d Hd].
  { unfold ScheduleService.dateOrNull, ScheduleService.newDate.
    destruct (CreateScheduleDto.scheduledAt dto) as [s|] eqn:Es; [|by eexists].
    destruct (JSString.truthy s) eqn:Etr; [|by eexists].
    destruct (Hdate s eq_refl Etr) as [t ->]. by eexists. }
  unfold ScheduleService.create. unfold_service. rewrite Hty. simpl. rewrite Hd. simpl_state.
  unfold Storage.create. simpl_state. cbn [Entity.type Entity.cron]. rewrite Hrej. simpl_state.
  eexists. split; [reflexivity|]. cbn [Entity.id Entity.type Entity.enabled Entity.cron].
  repeat (split; [done|]). split; [|done].
  pose proof (findById_create (store st) newId now
    (Draft.mk fixed (CreateScheduleDto.name dto) (CreateScheduleDto.message dto)
       (JSString.or_else (CreateScheduleDto.chatId dto) defaultChatId) true
       (CreateScheduleDto.cron dto) d (CreateScheduleDto.eventTime dto)
       (CreateScheduleDto.description dto)) newId Hfresh) as H.
  rewrite String.eqb_refl in H. exact H.
Qed.

End SchedulerProperties.


Section RestoreAndListing.
Context {env : Env}.

Lemma filter_ext_In {A} (f g : A -> bool) l :
  (forall x, In x l -> f x = g x) -> List.filter f l = List.filter g l.
Proof.
  induction l as [|x l IH]; intros H; simpl; [done|].
  rewrite (H x (or_introl eq_refl)), IH; [done|]. intros y Hy. apply H. by right.
Qed.

Lemma In_findAll rows e : In e (Storage.findAll rows) <-> In e rows.
Proof.
  rewrite <- !list_elem_of_In. by rewrite (findAll_Permutation rows).
Qed.

Lemma findAll_ids_NoDup rows :
  NoDup (map Entity.id rows) -> NoDup (map Entity.id (Storage.findAll rows)).
Proof.
  intros Hnd.
  assert (Permutation (map Entity.id (Storage.findAll rows)) (map Entity.id rows)) as HP
    by apply Permutation_map, findAll_Permutation.
  by rewrite HP.
Qed.

Lemma expires_not_job now e : expires now e = true -> registersJob e = false.
Proof.
  intros H. destruct (registersJob e) eqn:E; [|done].
  by rewrite (registersJob_not_expires now e E) in H.
Qed.

Lemma expires_not_timer now e : expires now e = true -> registersTimer now e = false.
Proof.
  intros H. destruct (registersTimer now e) eqn:E; [|done].
  by rewrite (registersTimer_not_expires now e E) in H.
Qed.

(** C4, amended. On a store with unique ids whose enabled Manual records
    all carry a scheduledAt, restoreSchedules at startup returns and, for
    each record: an enabled Fixed record whose cron the primitive accepts
    gets a recurring job; an enabled Fixed record whose cron the primitive
    rejects gets no live entry and stays stored as it is, enabled; an
    enabled Manual record with a future scheduledAt gets a one-shot timer,
    armed with the delay that setTimeout makes of scheduledAt - now (1 ms
    when that exceeds 2^31-1 ms); an enabled Manual record with a past
    scheduledAt is stored with enabled = false and gets no live entry; a
    disabled record is left as it is with no live entry; every record
    other than an expired Manual one is stored unchanged, and no other
    record than those named gets a job or a timer. Nothing runs outside
    the two maps. With 3 enabled Fixed records of accepted cron
    and 1 enabled future Manual record the registry ends with exactly 4
    entries. *)
Theorem restoreSchedules_registers_accepted_schedules (now : Z) (rows : list Entity.t) :
  NoDup (map Entity.id rows) ->
  forallb restorable rows = true ->
  let run := ScheduleService.restoreSchedules now (initial rows) in
  let st' := run.1 in
  run.2 = Return tt
  /\ (forall e, In e rows ->
        (registersJob e = true ->
           cronJobs st' !! Entity.id e = Some {| job_schedule := e |}
           /\ timers st' !! Entity.id e = None)
        /\ (registersTimer now e = true ->
           timers st' !! Entity.id e
             = Some {| timer_schedule := e;
                       timer_delay := setTimeoutDelay (default 0 (Entity.scheduledAt e) - now) |}
           /\ cronJobs st' !! Entity.id e = None)
        /\ (expires now e = true ->
           Storage.findById (store st') (Entity.id e)
             = Some (Partial.apply (Partial.only_enabled false) e)
           /\ Entity.enabled (Partial.apply (Partial.only_enabled false) e) = false
           /\ cronJobs st' !! Entity.id e = None /\ timers st' !! Entity.id e = None)
        /\ (Entity.enabled e = false ->
           Storage.findById (store st') (Entity.id e) = Some e
           /\ cronJobs st' !! Entity.id e = None /\ timers st' !! Entity.id e = None)
        /\ (isEnabledFixed e = true -> cronAccepts (Entity.cron e) = false ->
           Storage.findById (store st') (Entity.id e) = Some e
           /\ Entity.enabled e = true
           /\ cronJobs st' !! Entity.id e = None /\ timers st' !! Entity.id e = None)
        /\ (expires now e = false ->
           Storage.findById (store st') (Entity.id e) = Some e)
        /\ (registersJob e = false -> cronJobs st' !! Entity.id e = None)
        /\ (registersTimer now e = false -> timers st' !! Entity.id e = None))
  /\ noStrays st'
  /\ length (liveRegistry st')
     = length (List.filter (fun e => registersJob e || registersTimer now e) rows)
  /\ (length (List.filter isEnabledFixed rows) = 3%nat ->
      (forall e, In e rows -> isEnabledFixed e = true ->
                 cronAccepts (Entity.cron e) = true) ->
      length (List.filter (registersTimer now) rows) = 1%nat ->
      length (liveRegistry st') = 4%nat).
Proof.
  intros Hnd Hok. cbn zeta.
  unfold ScheduleService.restoreSchedules, initial. unfold_service. simpl_state.
  set (S := Storage.findAll rows).
  destruct (forEach_restore now S (mkState rows ∅ ∅ false [] [] []))
    as (l1 & l2 & r & Hl & Hrun & Hall).
  destruct Hall as [-> ->].
  { apply forallb_forall. intros e He. apply (proj1 (In_findAll rows e)) in He.
    rewrite forallb_forall in Hok. by apply Hok. }
  rewrite app_nil_r in Hl. subst l1. rewrite Hrun. simpl_state.
  pose proof (findAll_ids_NoDup rows Hnd) as HndS. fold S in HndS.
  assert (forall e, In e rows -> find (Storage.has_id (Entity.id e)) S = Some e) as Hfind.
  { intros e He. apply (findById_elem S e HndS). by apply In_findAll. }
  assert (length (liveRegistry
            (mkState (storeAfter now S rows) (jobsAfter S ∅) (timersAfter now S ∅) false []
               (strayJobsAfter S ∅ []) (strayTimersAfter now S ∅ [])))
          = length (List.filter (fun e => registersJob e || registersTimer now e) rows))
    as Hcount.
  { rewrite liveRegistry_length. simpl_state.
    rewrite jobsAfter_size, timersAfter_size by (done || intros; apply lookup_empty).
    rewrite !map_size_empty. simpl.
    rewrite (filter_length_Permutation registersJob S rows) by apply findAll_Permutation.
    rewrite (filter_length_Permutation (registersTimer now) S rows)
      by apply findAll_Permutation.
    symmetry. apply filter_disjoint_length. intros x. apply registersJob_not_timer. }
  split; [done|]. split; [|split; [|split; [exact Hcount|]]].
  - intros e He. specialize (Hfind e He).
    rewrite jobsAfter_lookup, timersAfter_lookup, storeAfter_findById by done.
    rewrite Hfind, !lookup_empty.
    assert (Storage.findById rows (Entity.id e) = Some e) as -> by by apply findById_elem.
    split; [|split; [|split; [|split; [|split; [|split; [|split]]]]]].
    + intros H. by rewrite H, (registersJob_not_timer now e H).
    + intros H. rewrite H.
      destruct (registersJob e) eqn:E; [|done].
      by rewrite (registersJob_not_timer now e E) in H.
    + intros H. by rewrite H, (expires_not_job now e H), (expires_not_timer now e H).
    + intros H. unfold expires, registersJob, registersTimer. by rewrite H.
    + intros Hf Hrej. unfold expires, registersJob, registersTimer.
      unfold isEnabledFixed in Hf. apply andb_true_iff in Hf as [Hen Hty].
      rewrite Hen, Hrej. by destruct (Entity.type e).
    + intros H. by rewrite H.
    + intros H. by rewrite H.
    + intros H. by rewrite H.
  - unfold noStrays. simpl_state.
    by rewrite strayJobsAfter_fresh, strayTimersAfter_fresh
      by (done || intros; apply lookup_empty).
  - intros H3 Hacc H1. rewrite Hcount.
    rewrite (filter_disjoint_length registersJob (registersTimer now))
      by (intros x; apply registersJob_not_timer).
    rewrite H1. rewrite (filter_ext_In registersJob isEnabledFixed); [by rewrite H3|].
    intros e He. unfold registersJob. fold (isEnabledFixed e).
    destruct (isEnabledFixed e) eqn:E; [|done]. by rewrite (Hacc e He E).
Qed.

Lemma kstMidnightUTC_day t :
  0 <= t -> ScheduleService.kstMidnightUTC t = kstDay t * JSDate.msPerDay.
Proof.
  intros Ht. unfold ScheduleService.kstMidnightUTC, kstDay.
  apply UTC_of_components. unfold ScheduleService.kstOffset. lia.
Qed.

Lemma findAllFilter_rule now type chatId s :
  0 <= now ->
  (forall t, Entity.scheduledAt s = Some t -> 0 <= t) ->
  ScheduleService.findAllFilter now type chatId s
    = passesFilters type chatId s && negb (hidden_as_implemented now s).
Proof.
  intros Hnow Hs.
  unfold ScheduleService.findAllFilter, passesFilters, hidden_as_implemented, elapsed.
  assert (forall t, Entity.scheduledAt s = Some t ->
            (ScheduleService.kstMidnightUTC t =? ScheduleService.kstMidnightUTC now)
            = (kstDay t =? kstDay now)) as Hday.
  { intros t Ht. rewrite !kstMidnightUTC_day by eauto.
    destruct (Z.eqb_spec (kstDay t) (kstDay now)) as [->|Hne]; [apply Z.eqb_refl|].
    apply Z.eqb_neq. unfold JSDate.msPerDay. lia. }
  assert (JSString.truthy_opt chatId
            && negb (String.eqb (Entity.chatId s) (default EmptyString chatId))
          = negb match chatId with
                 | Some c => negb (JSString.truthy c) || String.eqb (Entity.chatId s) c
                 | None => true
                 end) as ->.
  { destruct chatId as [c|]; cbn; [|done]. by destruct (JSString.truthy c). }
  assert (JSString.truthy_opt type
            && negb (String.eqb (typeName (Entity.type s)) (default EmptyString type))
          = negb match type with
                 | Some ty => negb (JSString.truthy ty)
                              || String.eqb (typeName (Entity.type s)) ty
                 | None => true
                 end) as ->.
  { destruct type as [ty|]; cbn; [|done]. by destruct (JSString.truthy ty). }
  generalize (match chatId with
              | Some c => negb (JSString.truthy c) || String.eqb (Entity.chatId s) c
              | None => true
              end) as chatOk.
  generalize (match type with
              | Some ty => negb (JSString.truthy ty)
                           || String.eqb (typeName (Entity.type s)) ty
              | None => true
              end) as typeOk.
  intros typeOk chatOk.
  destruct (Entity.scheduledAt s) as [t|] eqn:E.
  - rewrite (Hday t eq_refl).
    generalize (kstDay t =? kstDay now) as sameDay. generalize (t <=? now) as past.
    intros past sameDay.
    by destruct chatOk, typeOk, (Entity.type s), past, sameDay.
  - by destruct chatOk, typeOk, (Entity.type s).
Qed.

(** C8, amended. findAll returns the stored records, oldest first, that
    pass the type and chat filters and are not hidden, where a Manual
    record is hidden exactly when its scheduledAt has elapsed, enabled or
    not, and an Event record exactly when its Seoul calendar day is not
    today's (instants from 1970 on). *)
Theorem findAll_hides_elapsed_manual_regardless_of_enabled
    (now : Z) (type chatId : option string) (st : State) :
  0 <= now ->
  (forall s t, In s (store st) -> Entity.scheduledAt s = Some t -> 0 <= t) ->
  ScheduleService.findAll now type chatId st
    = (st, Return (List.filter
                     (fun s => passesFilters type chatId s
                               && negb (hidden_as_implemented now s))
                     (Storage.findAll (store st))))
  /\ (forall s found,
        (ScheduleService.findAll now type chatId st).2 = Return found ->
        Entity.type s = manual -> elapsed now s = true -> ~ In s found).
Proof.
  intros Hnow Hst.
  assert (ScheduleService.findAll now type chatId st
    = (st, Return (List.filter
                     (fun s => passesFilters type chatId s
                               && negb (hidden_as_implemented now s))
                     (Storage.findAll (store st))))) as Hrun.
  { unfold ScheduleService.findAll. unfold_service. simpl_state. f_equal. f_equal.
    apply filter_ext_In. intros s Hs. apply (proj1 (In_findAll (store st) s)) in Hs.
    apply findAllFilter_rule; [done|]. intros t. by apply Hst. }
  split; [exact Hrun|].
  intros s found Hf Hty Hel Hin. rewrite Hrun in Hf. simpl in Hf.
  injection Hf as <-. apply filter_In in Hin as [_ Hin].
  unfold hidden_as_implemented in Hin. rewrite Hty, Hel in Hin.
  by rewrite andb_false_r in Hin.
Qed.

End RestoreAndListing.

(** ** The daily summary *)

Section DigestFacts.
Context {env : Env}.
Import ScheduleService.

Lemma classify_empty_iff kstNow s :
  classify kstNow s = ([], []) <-> firesToday kstNow s = false.
Proof.
  unfold classify, firesToday.
  destruct (Entity.type s), (Entity.cron s) as [c|], (Entity.scheduledAt s) as [t|];
    try tauto.
  all: try (destruct (JSString.truthy c); simpl;
            [destruct (Cron.cronMatchesToday _ _ _ _)|]; split; intros; done).
  all: destruct (isDateToday t kstNow); split; intros; done.
Qed.

Lemma today_empty_iff kstNow g :
  todayAlarms kstNow g = [] /\ todayEvents kstNow g = []
  <-> existsb (firesToday kstNow) g = false.
Proof.
  unfold todayAlarms, todayEvents. induction g as [|s g IH]; simpl; [done|].
  rewrite orb_false_iff, <- IH, <- classify_empty_iff.
  destruct (classify kstNow s) as [al el]. simpl.
  split.
  - intros [[-> ?]%app_eq_nil [-> ?]%app_eq_nil]. done.
  - intros [[= -> ->] [? ?]]. done.
Qed.

Lemma groupDigest_None kstNow g :
  groupDigest kstNow g = None <-> existsb (firesToday kstNow) g = false.
Proof.
  rewrite <- today_empty_iff. unfold groupDigest.
  destruct (todayAlarms kstNow g), (todayEvents kstNow g); split; try done.
  all: intros [? ?]; done.
Qed.

Lemma lookupGroup_groupPush k k' s m :
  lookupGroup k (groupPush k' s m) =
    if String.eqb k' k then lookupGroup k m ++ [s] else lookupGroup k m.
Proof.
  unfold lookupGroup. induction m as [|[k0 g0] m IH]; simpl.
  - by destruct (String.eqb k' k).
  - destruct (String.eqb_spec k0 k') as [->|Hne]; simpl.
    + by destruct (String.eqb k' k).
    + destruct (String.eqb_spec k0 k) as [->|Hne']; simpl.
      * destruct (String.eqb_spec k' k) as [->|]; [done|done].
      * apply IH.
Qed.

Lemma groupByChatId_snoc l s :
  groupByChatId (l ++ [s]) = groupPush (effectiveChatId s) s (groupByChatId l).
Proof. unfold groupByChatId. by rewrite fold_left_app. Qed.

Lemma filter_snoc {A} (f : A -> bool) l x :
  List.filter f (l ++ [x]) = List.filter f l ++ (if f x then [x] else []).
Proof. induction l as [|y l IH]; simpl; [done|]. rewrite IH. by destruct (f y). Qed.

Lemma lookupGroup_groupByChatId k l : lookupGroup k (groupByChatId l) = groupOf k l.
Proof.
  induction l as [|s l IH] using rev_ind; [done|].
  rewrite groupByChatId_snoc, lookupGroup_groupPush, IH. unfold groupOf.
  rewrite filter_snoc. destruct (String.eqb (effectiveChatId s) k); [done|].
  by rewrite app_nil_r.
Qed.

Lemma groupPush_key_in k s m x :
  In x (map fst (groupPush k s m)) -> x = k \/ In x (map fst m).
Proof.
  induction m as [|[k0 g0] m IH]; simpl.
  - intros [<-|[]]. by left.
  - destruct (String.eqb k0 k); simpl; intros [<-|Hx]; try tauto.
    all: try (destruct (IH Hx); tauto).
Qed.

Lemma groupPush_keys k s m :
  NoDup (map fst m) -> NoDup (map fst (groupPush k s m)).
Proof.
  induction m as [|[k0 g0] m IH]; simpl; intros Hnd.
  - apply NoDup_singleton.
  - apply NoDup_cons in Hnd as [Hk0 Hnd].
    destruct (String.eqb_spec k0 k) as [->|Hne]; simpl.
    + apply NoDup_cons. by split.
    + apply NoDup_cons. split; [|by apply IH].
      intros Hx%list_elem_of_In. apply groupPush_key_in in Hx as [?|Hm]; [congruence|].
      by apply Hk0, list_elem_of_In.
Qed.

Lemma groupByChatId_keys l : NoDup (map fst (groupByChatId l)).
Proof.
  induction l as [|s l IH] using rev_ind; [constructor|].
  rewrite groupByChatId_snoc. by apply groupPush_keys.
Qed.

Lemma sentTo_digests_absent send kstNow G c :
  ~ In c (map fst G) -> sentTo c (digests send kstNow G) = [].
Proof.
  unfold sentTo, digests. induction G as [|[k g] G IH]; simpl; [done|].
  intros Hc. rewrite List.filter_app, IH by tauto. rewrite app_nil_r.
  destruct (groupDigest kstNow g); simpl; [|done].
  destruct (String.eqb_spec k c) as [->|]; [|done]. exfalso. tauto.
Qed.

Lemma sentTo_digests send kstNow G c :
  NoDup (map fst G) ->
  length (sentTo c (digests send kstNow G)) =
    if existsb (firesToday kstNow) (lookupGroup c G) then 1%nat else 0%nat.
Proof.
  unfold lookupGroup. induction G as [|[k g] G IH]; simpl; [done|].
  intros [Hk Hnd]%NoDup_cons.
  unfold sentTo, digests in *. cbn [flat_map fst snd]. rewrite List.filter_app, length_app.
  destruct (String.eqb_spec k c) as [->|Hne]; cbn [snd].
  - pose proof (sentTo_digests_absent send kstNow G c) as Habs.
    unfold sentTo, digests in Habs. rewrite Habs by (by rewrite <- list_elem_of_In).
    destruct (groupDigest kstNow g) as [text|] eqn:E; simpl.
    + rewrite String.eqb_refl. simpl.
      destruct (existsb (firesToday kstNow) g) eqn:E'; [done|].
      apply groupDigest_None in E'. congruence.
    + apply groupDigest_None in E. by rewrite E.
  - rewrite IH by done.
    destruct (groupDigest kstNow g) as [text|]; simpl; [|done].
    by destruct (String.eqb_spec k c).
Qed.

(** One daily-summary run sends exactly one digest to every destination
    with a qualifying enabled schedule, and none to any other. *)
Lemma daily_summary_one_digest_per_destination send now st c :
  exists new,
    outbox (sendDailySummary send now st).1 = outbox st ++ new
    /\ length (sentTo c new) =
         if existsb (firesToday (now + kstOffset))
              (groupOf c (List.filter Entity.enabled (Storage.findAll (store st))))
         then 1%nat else 0%nat.
Proof.
  rewrite sendDailySummary_run. eexists. split; [reflexivity|].
  rewrite sentTo_digests by apply groupByChatId_keys.
  by rewrite lookupGroup_groupByChatId.
Qed.

(** A one-shot schedule qualifies exactly when its instant falls on
    today's day number in Seoul. *)
Lemma isDateToday_same_day date now :
  isDateToday date (now + kstOffset) = (kstDay date =? kstDay now).
Proof. unfold isDateToday, kstDay. apply same_civil_date_iff. Qed.

End DigestFacts.

(** C9. Two enabled recurring schedules of one chat, due today at 09:00
    and at 10:00: one digest is dispatched to the chat, and it lists the
    10:00 alarm before the 09:00 alarm, because the alarms are ordered by
    comparing their time labels as text. *)
Theorem daily_summary_lists_ten_before_nine :
  let kstNow := Demo.now + ScheduleService.kstOffset in
  let sorted :=
    ScheduleService.sortAlarms
      (ScheduleService.todayAlarms kstNow (store Demo.twoAlarms)) in
  let st' :=
    (ScheduleService.sendDailySummary (env := Demo.env) Demo.delivered Demo.now
       Demo.twoAlarms).1 in
  map Entity.name (store Demo.twoAlarms) = ["standup"; "review"]
  /\ map Entity.cron (store Demo.twoAlarms) = [Some "0 9 * * *"; Some "0 10 * * *"]
  /\ map ScheduleService.alarm_name sorted = ["review"; "standup"]
  /\ map ScheduleService.alarm_time sorted = ["오전 10:00"; "오전 9:00"]
  /\ map sent_chatId (outbox st') = ["C1"]
  /\ map sent_text (outbox st') =
       ["📆 <b>오늘의 알림 요약</b>
📅 2026-11-02 (월)
━━━━━━━━━━━━━━━━━━━━

🔔 <b>예정된 알림</b> (2건)

1. <b>review</b>
   ⏰ 오전 10:00

2. <b>standup</b>
   ⏰ 오전 9:00

━━━━━━━━━━━━━━━━━━━━
총 <b>2건</b> (알림 2, 이벤트 0)"].
Proof. vm_compute. repeat split; reflexivity. Qed.

(** ** Worked instances *)

Lemma demo_scenario_ids cron : NoDup (map Entity.id (Demo.scenarioC cron)).
Proof. apply (bool_decide_unpack _). vm_compute. exact I. Qed.




Lemma demo_served : serving (env := Demo.env) Demo.served.
Proof.
  unfold Demo.served. apply serving_init. apply (bool_decide_unpack _). vm_compute. exact I.
Qed.

(** Yesterday's instant is refused by create, update and toggleEnabled. *)
Lemma past_scheduled_time_rejected_without_mutation_witness :
  ScheduleService.create (env := Demo.env) Demo.now "n1" Demo.pastCreate Demo.served
    = (Demo.served, Throw (BadRequestException MustBeFuture))
  /\ ScheduleService.update (env := Demo.env) Demo.now "m1" Demo.pastUpdate Demo.served
    = (Demo.served, Throw (BadRequestException MustBeFuture))
  /\ ScheduleService.toggleEnabled (env := Demo.env) Demo.now "m3" Demo.served
    = (Demo.served, Throw (BadRequestException CannotReenablePast)).
Proof.
  destruct (past_scheduled_time_rejected_without_mutation (env := Demo.env)
              Demo.now Demo.served) as (Hc & Hu & Ht).
  split; [|split].
  - apply (Hc "n1" Demo.pastCreate "2026-11-01T09:00:00+09:00" (Demo.now - 86400000));
      [reflexivity|reflexivity|reflexivity|vm_compute; reflexivity|unfold Demo.now; lia].
  - apply (Hu "m1" Demo.pastUpdate (Demo.manualRow "m1" (Demo.now + 600000) true)
             "2026-11-01T09:00:00+09:00" (Demo.now - 86400000));
      [vm_compute; reflexivity|reflexivity|reflexivity|reflexivity
      |vm_compute; reflexivity|unfold Demo.now; lia].
  - apply (Ht demo_served "m3" (Demo.manualRow "m3" (Demo.now - 86400000) false)
             (Demo.now - 86400000));
      [vm_compute; reflexivity|reflexivity|reflexivity|reflexivity|unfold Demo.now; lia].
Defined.

(** Scenario C with a cron source that the primitive rejects: one live
    entry, not four. *)
Lemma restoreSchedules_rejected_cron_counterexample :
  let rows := Demo.scenarioC "every morning" in
  let st' := (ScheduleService.restoreSchedules (env := Demo.env) Demo.now (initial rows)).1 in
  length (List.filter isEnabledFixed rows) = 3%nat
  /\ length (List.filter (registersTimer Demo.now) rows) = 1%nat
  /\ length (List.filter (expires Demo.now) rows) = 1%nat
  /\ length rows = 5%nat
  /\ cronJobs st' = ∅
  /\ liveRegistry st' = ["m1"]
  /\ length (liveRegistry st') <> 4%nat.
Proof. vm_compute. repeat split; try reflexivity. discriminate. Qed.

(** Scenario C with an accepted cron source: four live entries. *)
Lemma restoreSchedules_registers_accepted_schedules_witness :
  let rows := Demo.scenarioC "0 9 * * 1-5" in
  let st' := (ScheduleService.restoreSchedules (env := Demo.env) Demo.now (initial rows)).1 in
  length (liveRegistry st') = 4%nat.
Proof.
  cbn zeta.
  destruct (restoreSchedules_registers_accepted_schedules (env := Demo.env) Demo.now
              (Demo.scenarioC "0 9 * * 1-5")) as (_ & _ & _ & _ & Hscen).
  - apply demo_scenario_ids.
  - vm_compute. reflexivity.
  - apply Hscen.
    + vm_compute. reflexivity.
    + intros e He Hf. simpl in He.
      destruct He as [<-|[<-|[<-|[<-|[<-|[]]]]]];
        first [vm_compute; reflexivity | vm_compute in Hf; discriminate Hf].
    + vm_compute. reflexivity.
Defined.

(** An enabled one-shot schedule whose instant has passed is not listed,
    although the rule of the specification would show it. *)
Lemma findAll_hides_enabled_elapsed_manual_counterexample :
  let s := Demo.manualRow "m2" (Demo.now - 86400000) true in
  store Demo.overdue = [s]
  /\ Entity.enabled s = true
  /\ elapsed Demo.now s = true
  /\ hidden_as_specified Demo.now s = false
  /\ passesFilters None None s = true
  /\ (ScheduleService.findAll Demo.now None None Demo.overdue).2 = Return [].
Proof. vm_compute. repeat split; reflexivity. Qed.

(** The same store through the rule that the service applies. *)
Lemma findAll_hides_elapsed_manual_regardless_of_enabled_witness :
  ScheduleService.findAll Demo.now None None Demo.overdue = (Demo.overdue, Return []).
Proof.
  destruct (findAll_hides_elapsed_manual_regardless_of_enabled Demo.now None None
              Demo.overdue) as [Hrun _].
  - unfold Demo.now. lia.
  - intros s t [<-|[]] Ht. simpl in Ht. injection Ht as <-. unfold Demo.now. lia.
  - rewrite Hrun. vm_compute. reflexivity.
Defined.

(** A Fixed schedule with the cron source "every morning". *)
Lemma create_fixed_with_rejected_cron_persists_silently_witness :
  exists schedule,
    (ScheduleService.create (env := Demo.env) Demo.now "n1" Demo.badCronCreate Demo.served).2
      = Return schedule
    /\ Entity.enabled schedule = true
    /\ cronJobs (ScheduleService.create (env := Demo.env) Demo.now "n1"
                   Demo.badCronCreate Demo.served).1 !! "n1" = None.
Proof.
  destruct (create_fixed_with_rejected_cron_persists_silently (env := Demo.env)
              Demo.now "n1" Demo.badCronCreate Demo.served)
    as (schedule & Hrun & _ & _ & Hen & _ & _ & Hj & _).
  - right. apply demo_served.
  - vm_compute. reflexivity.
  - reflexivity.
  - vm_compute. reflexivity.
  - intros s Hs. discriminate Hs.
  - exists schedule. rewrite Hrun. split; [reflexivity|]. split; [exact Hen|].
    rewrite Hrun in Hj. exact Hj.
Defined.

(* ===================================================================== *)
(** * Further properties of the code *)
(* ===================================================================== *)

(** ** The store, operation by operation *)

Section StoreRoundTrips.

Lemma insertBy_In {A} (le : A -> A -> bool) x y l :
  In y (insertBy le x l) -> y = x \/ In y l.
Proof.
  induction l as [|z l IH]; simpl.
  - intros [<-|[]]. by left.
  - destruct (le x z); simpl.
    + intros [<-|[<-|H]]; tauto.
    + intros [<-|H]; [tauto|]. destruct (IH H); tauto.
Qed.

Lemma insertBy_createdAt_sorted x l :
  StronglySorted olderOrSame l ->
  StronglySorted olderOrSame
    (insertBy (fun a b => Entity.createdAt a <=? Entity.createdAt b) x l).
Proof.
  induction 1 as [|y l Hs IH Hy]; simpl.
  - constructor; [constructor|constructor].
  - destruct (Z.leb_spec (Entity.createdAt x) (Entity.createdAt y)) as [Hle|Hgt].
    + constructor; [by constructor|].
      constructor; [done|].
      eapply Forall_impl; [exact Hy|]. intros z Hz. unfold olderOrSame in *. lia.
    + constructor; [done|].
      apply Forall_forall. intros z Hz%list_elem_of_In. apply insertBy_In in Hz as [->|Hz].
      * unfold olderOrSame. lia.
      * rewrite Forall_forall in Hy. by apply Hy, list_elem_of_In.
Qed.

(** X1. [storage.findAll] returns every stored row exactly once, oldest
    first: the result is a permutation of the table and its creation
    timestamps never decrease. *)
Theorem storage_findAll_oldest_first (rows : list Entity.t) :
  Permutation (Storage.findAll rows) rows
  /\ StronglySorted olderOrSame (Storage.findAll rows).
Proof.
  split; [apply findAll_Permutation|].
  unfold Storage.findAll. induction rows as [|x rows IH]; simpl; [constructor|].
  by apply insertBy_createdAt_sorted.
Qed.

Lemma map_no_match rows i (f : Entity.t -> Entity.t) :
  Storage.findById rows i = None ->
  map (fun e => if Storage.has_id i e then f e else e) rows = rows.
Proof.
  unfold Storage.findById. induction rows as [|r rows IH]; simpl; [done|].
  destruct (Storage.has_id i r); [done|]. intros H. by rewrite IH.
Qed.

Lemma filter_no_match rows i :
  Storage.findById rows i = None ->
  List.filter (fun e => negb (Storage.has_id i e)) rows = rows.
Proof.
  unfold Storage.findById. induction rows as [|r rows IH]; simpl; [done|].
  destruct (Storage.has_id i r); [done|]. simpl. intros H. by rewrite IH.
Qed.

Lemma existsb_has_id rows i :
  existsb (Storage.has_id i) rows = bool_decide (is_Some (Storage.findById rows i)).
Proof.
  unfold Storage.findById. induction rows as [|r rows IH]; simpl; [done|].
  by destruct (Storage.has_id i r).
Qed.

(** X2. A row saved by [storage.create] under a primary key that is not
    in the table is the row [storage.findById] returns for that key; it
    carries every column of the draft (type, name, message, chat, enabled
    flag, cron source, instant, event time and description) under the new
    key and the creation timestamp, and no other key reads differently
    than before. *)
Theorem storage_create_then_findById
    (rows : list Entity.t) (newId : string) (now : Z) (data : Draft.t) :
  Storage.findById rows newId = None ->
  let saved := (Storage.create rows newId now data).2 in
  let rows' := (Storage.create rows newId now data).1 in
  Storage.findById rows' newId = Some saved
  /\ Entity.id saved = newId
  /\ Entity.createdAt saved = now
  /\ Entity.type saved = Draft.type data
  /\ Entity.name saved = Draft.name data
  /\ Entity.message saved = Draft.message data
  /\ Entity.chatId saved = Draft.chatId data
  /\ Entity.enabled saved = Draft.enabled data
  /\ Entity.cron saved = Draft.cron data
  /\ Entity.scheduledAt saved = Draft.scheduledAt data
  /\ Entity.eventTime saved = Draft.eventTime data
  /\ Entity.description saved = Draft.description data
  /\ (forall k, k <> newId -> Storage.findById rows' k = Storage.findById rows k)
  /\ length rows' = S (length rows).
Proof.
  intros Hfresh. cbn zeta. split.
  { by rewrite findById_create, String.eqb_refl. }
  repeat (split; [done|]). split.
  - intros k Hk. rewrite findById_create by done.
    by apply String.eqb_neq in Hk as ->.
  - unfold Storage.create. simpl. rewrite length_app. simpl. lia.
Qed.

(** X3. [storage.update] with a partial that names no column throws
    before anything is written. With a partial that names a column, on a
    key that is not in the table it returns null and leaves the table as
    it was; on a stored key it returns the row with the named columns
    overwritten and the others kept, keeps its id, type and creation
    timestamp, and no other key reads differently than before. *)
Theorem storage_update_missing_and_present
    (rows : list Entity.t) (i : string) (partial : Partial.t) :
  (Partial.isEmpty partial = true -> Storage.update rows i partial = None)
  /\ (Partial.isEmpty partial = false ->
      (Storage.findById rows i = None ->
         Storage.update rows i partial = Some (rows, None))
      /\ (forall e, Storage.findById rows i = Some e ->
            exists rows' updated,
              Storage.update rows i partial = Some (rows', Some updated)
              /\ Storage.findById rows' i = Some updated
              /\ Entity.id updated = i
              /\ Entity.type updated = Entity.type e
              /\ Entity.createdAt updated = Entity.createdAt e
              /\ Entity.name updated = default (Entity.name e) (Partial.name partial)
              /\ Entity.message updated
                 = default (Entity.message e) (Partial.message partial)
              /\ Entity.chatId updated = default (Entity.chatId e) (Partial.chatId partial)
              /\ Entity.enabled updated
                 = default (Entity.enabled e) (Partial.enabled partial)
              /\ Entity.cron updated
                 = from_option Some (Entity.cron e) (Partial.cron partial)
              /\ Entity.scheduledAt updated
                 = from_option Some (Entity.scheduledAt e) (Partial.scheduledAt partial)
              /\ Entity.eventTime updated
                 = from_option Some (Entity.eventTime e) (Partial.eventTime partial)
              /\ Entity.description updated
                 = from_option Some (Entity.description e) (Partial.description partial)
              /\ (forall k, k <> i -> Storage.findById rows' k = Storage.findById rows k)
              /\ length rows' = length rows)).
Proof.
  unfold Storage.update. split; [by intros ->|]. intros ->. split.
  - intros Hnone. unfold Storage.updateRows. rewrite map_no_match by done. by rewrite Hnone.
  - intros e He.
    pose proof (findById_update rows i partial i) as Hi.
    rewrite String.eqb_refl, He in Hi. simpl in Hi.
    exists (Storage.updateRows rows i partial).1, (Partial.apply partial e).
    split; [unfold Storage.updateRows in *; cbn [fst snd] in *; by rewrite Hi|].
    split; [exact Hi|]. split; [by apply findById_Some in He as [? _]|].
    do 6 (split; [done|]).
    split; [simpl; by destruct (Partial.cron partial)|].
    split; [simpl; by destruct (Partial.scheduledAt partial)|].
    split; [simpl; by destruct (Partial.eventTime partial)|].
    split; [simpl; by destruct (Partial.description partial)|]. split.
    + intros k Hk. rewrite findById_update. by apply String.eqb_neq in Hk as ->.
    + unfold Storage.updateRows. simpl. by rewrite length_map.
Qed.

(** X4. [storage.delete] reports true exactly when the key was stored;
    afterwards the key is not found, every other key reads as before, and
    deleting it again reports false and changes nothing. *)
Theorem storage_delete_then_findById (rows : list Entity.t) (i : string) :
  let rows' := (Storage.delete rows i).1 in
  ((Storage.delete rows i).2 = true <-> is_Some (Storage.findById rows i))
  /\ Storage.findById rows' i = None
  /\ (forall k, k <> i -> Storage.findById rows' k = Storage.findById rows k)
  /\ Storage.delete rows' i = (rows', false).
Proof.
  cbn zeta.
  assert (Storage.findById (Storage.delete rows i).1 i = None) as Hgone
    by by rewrite findById_delete, String.eqb_refl.
  split; [|split; [exact Hgone|split]].
  - unfold Storage.delete. simpl. rewrite existsb_has_id. apply bool_decide_eq_true.
  - intros k Hk. rewrite findById_delete. by apply String.eqb_neq in Hk as ->.
  - unfold Storage.delete at 1. rewrite filter_no_match by done.
    rewrite existsb_has_id. f_equal. apply bool_decide_eq_false_2.
    rewrite Hgone. by intros [? ?].
Qed.

End StoreRoundTrips.

(** ** Properties kept by every operation *)

Section Keeping.
Context {env : Env}.

Lemma keeps_ret {A} P (a : A) : keeps P (ret a).
Proof. by intros st. Qed.

Lemma keeps_throw {A} P e : keeps P (throw (A := A) e).
Proof. by intros st. Qed.

Lemma keeps_gets {A} P (f : State -> A) : keeps P (gets f).
Proof. by intros st. Qed.

Lemma keeps_modify P f : (forall st, P st -> P (f st)) -> keeps P (modify f).
Proof. intros H st. apply H. Qed.

Lemma keeps_bind {A B} P (c : M A) (k : A -> M B) :
  keeps P c -> (forall a, keeps P (k a)) -> keeps P (bind c k).
Proof.
  intros Hc Hk st HP. unfold bind. specialize (Hc st HP).
  destruct (c st) as [st' [a|e]]; simpl in *; [by apply Hk|done].
Qed.

Lemma keeps_forEach {A} P (l : list A) body :
  (forall x, keeps P (body x)) -> keeps P (forEach l body).
Proof.
  intros H. induction l as [|x l IH]; simpl; [apply keeps_ret|].
  apply keeps_bind; [apply H|done].
Qed.

Lemma keeps_storage_create P newId now data :
  storeBlind P -> keeps P (ScheduleService.storage_create newId now data).
Proof. intros HP st H. by apply HP. Qed.

Lemma keeps_storage_update P i p :
  storeBlind P -> keeps P (ScheduleService.storage_update i p).
Proof.
  intros HP st H. unfold ScheduleService.storage_update.
  destruct (Storage.update _ _ _); [by apply HP|done].
Qed.

Lemma keeps_storage_delete P i :
  storeBlind P -> keeps P (ScheduleService.storage_delete i).
Proof. intros HP st H. by apply HP. Qed.

Lemma keeps_newDate P s : keeps P (ScheduleService.newDate s).
Proof.
  unfold ScheduleService.newDate. destruct (Date_parse s); [apply keeps_ret|apply keeps_throw].
Qed.

End Keeping.

(** One step of a proof that an operation keeps a property: the shape of
    the computation decides. *)
Ltac keeps_step :=
  lazymatch goal with
  | |- keeps _ (bind _ _) => apply keeps_bind; [|intros ?]
  | |- keeps _ (ret _) => apply keeps_ret
  | |- keeps _ (throw _) => apply keeps_throw
  | |- keeps _ (gets _) => apply keeps_gets
  | |- keeps _ (forEach _ _) => apply keeps_forEach; intros ?
  | |- keeps _ (ScheduleService.newDate _) => apply keeps_newDate
  | |- keeps _ (if ?b then _ else _) => destruct b eqn:?
  | |- keeps _ (match ?x with _ => _ end) => destruct x eqn:?
  end.

Ltac unfold_ops :=
  unfold ScheduleService.onModuleInit, ScheduleService.onModuleDestroy,
    ScheduleService.create, ScheduleService.update, ScheduleService.delete,
    ScheduleService.toggleEnabled, ScheduleService.findAll,
    ScheduleService.restoreSchedules, ScheduleService.restoreOne,
    ScheduleService.timerFire, ScheduleService.cronTick,
    ScheduleService.sendDailySummary, ScheduleService.sendDigest,
    ScheduleService.findById, ScheduleService.clearAllJobs,
    ScheduleService.startDailySummary, ScheduleService.sendScheduledMessage,
    ScheduleService.stopJob, ScheduleService.dateOrNull, ScheduleService.dateIfDefined,
    ScheduleService.storage_findAll, ScheduleService.storage_findById.

Section Quiet.
Context {env : Env}.

Lemma outboxIs_storeBlind o : storeBlind (outboxIs o).
Proof. by intros st f. Qed.

Lemma quiet_startCronJob o s : keeps (outboxIs o) (ScheduleService.startCronJob s).
Proof.
  unfold ScheduleService.startCronJob.
  repeat keeps_step. all: by apply keeps_modify.
Qed.

Lemma quiet_startTimer o now s : keeps (outboxIs o) (ScheduleService.startTimer now s).
Proof.
  unfold ScheduleService.startTimer. repeat keeps_step. by apply keeps_modify.
Qed.

Ltac quiet :=
  unfold_ops;
  repeat first
    [ apply quiet_startCronJob | apply quiet_startTimer
    | apply keeps_storage_create, outboxIs_storeBlind
    | apply keeps_storage_update, outboxIs_storeBlind
    | apply keeps_storage_delete, outboxIs_storeBlind
    | by apply keeps_modify
    | keeps_step ].

Lemma quiet_create o now newId dto : keeps (outboxIs o) (ScheduleService.create now newId dto).
Proof. quiet. Qed.

Lemma quiet_findAll o now ty c : keeps (outboxIs o) (ScheduleService.findAll now ty c).
Proof. quiet. Qed.

Lemma quiet_update o now i dto : keeps (outboxIs o) (ScheduleService.update now i dto).
Proof. quiet. Qed.

Lemma quiet_delete o i : keeps (outboxIs o) (ScheduleService.delete i).
Proof. quiet. Qed.

Lemma quiet_toggleEnabled o now i : keeps (outboxIs o) (ScheduleService.toggleEnabled now i).
Proof. quiet. Qed.

Lemma quiet_restoreSchedules o now : keeps (outboxIs o) (ScheduleService.restoreSchedules now).
Proof. quiet. Qed.

Lemma quiet_onModuleInit o now : keeps (outboxIs o) (ScheduleService.onModuleInit now).
Proof. quiet. Qed.

Lemma quiet_onModuleDestroy o : keeps (outboxIs o) ScheduleService.onModuleDestroy.
Proof. quiet. Qed.

End Quiet.

Section CallbacksAndRegistry.
Context {env : Env}.

Lemma timerFire_outbox send s st :
  outbox (ScheduleService.timerFire send s st).1 =
    outbox st ++ [{| sent_chatId := ScheduleService.effectiveChatId s;
                     sent_text := Entity.message s;
                     sent_ok := send (ScheduleService.effectiveChatId s) (Entity.message s) |}].
Proof.
  unfold ScheduleService.timerFire. unfold_service. done.
Qed.

Lemma cronTick_outbox send s st :
  outbox (ScheduleService.cronTick send s st).1 =
    outbox st ++ [{| sent_chatId := ScheduleService.effectiveChatId s;
                     sent_text := Entity.message s;
                     sent_ok := send (ScheduleService.effectiveChatId s) (Entity.message s) |}].
Proof.
  unfold ScheduleService.cronTick. unfold_service. done.
Qed.

(** X5. Messages leave the service only from its callbacks. No client
    operation and no lifecycle hook (create, findAll, update, delete,
    toggleEnabled, restoreSchedules, shutdown) hands anything to the
    dispatcher; a timer callback and a recurring tick hand over at most
    one message; and no step ever removes or rewrites an earlier entry of
    the outbox. *)
Theorem only_callbacks_dispatch (send : Dispatcher) (now : Z) (op : Op) (st : State) :
  (isCallback op = false -> outbox (exec send now op st) = outbox st)
  /\ exists new,
       outbox (exec send now op st) = outbox st ++ new
       /\ match op with
          | OpTimerFire _ | OpCronTick _ | OpStrayTimerFire _ | OpStrayCronTick _ =>
              (length new <= 1)%nat
          | _ => True
          end.
Proof.
  assert (forall A (c : M A), keeps (outboxIs (outbox st)) c -> outbox (c st).1 = outbox st)
    as Hq by (intros A c Hc; by apply Hc).
  assert (isCallback op = false -> outbox (exec send now op st) = outbox st) as Hquiet.
  { destruct op; cbn [exec isCallback]; intros Hop; try discriminate Hop.
    - apply Hq, quiet_create.
    - apply Hq, quiet_findAll.
    - apply Hq, quiet_update.
    - apply Hq, quiet_delete.
    - apply Hq, quiet_toggleEnabled.
    - apply Hq, quiet_restoreSchedules.
    - apply Hq, quiet_onModuleDestroy. }
  split; [exact Hquiet|].
  destruct op; cbn [exec];
    try (exists []; rewrite app_nil_r; split; [by apply Hquiet|exact I]).
  - destruct (timers st !! id) as [tm|].
    + eexists. split; [|shelve].
      apply (timerFire_outbox send (timer_schedule tm) (set_timers (delete id) st)).
      Unshelve. simpl. lia.
    + exists []. rewrite app_nil_r. split; [done|]. simpl. lia.
  - destruct (cronJobs st !! id) as [job|].
    + eexists. split; [apply cronTick_outbox|]. simpl. lia.
    + exists []. rewrite app_nil_r. split; [done|]. simpl. lia.
  - rewrite sendDailySummary_run. eexists. split; [reflexivity|exact I].
  - destruct (strayTimers st !! n) as [tm|].
    + eexists. split; [|shelve].
      apply (timerFire_outbox send (timer_schedule tm) (set_strayTimers (delete n) st)).
      Unshelve. simpl. lia.
    + exists []. rewrite app_nil_r. split; [done|]. simpl. lia.
  - destruct (strayJobs st !! n) as [job|].
    + eexists. split; [apply cronTick_outbox|]. simpl. lia.
    + exists []. rewrite app_nil_r. split; [done|]. simpl. lia.
Qed.

Lemma registryWellFormed_storeBlind : storeBlind registryWellFormed.
Proof. by intros st f. Qed.

Lemma wf_sub st (J : gmap string CronJob) (T : gmap string Timer) s d o sj stm :
  registryWellFormed st ->
  (forall i x, J !! i = Some x -> cronJobs st !! i = Some x) ->
  (forall i x, T !! i = Some x -> timers st !! i = Some x) ->
  registryWellFormed (mkState s J T d o sj stm).
Proof. intros [HJ HT] H1 H2. split; simpl; eauto. Qed.

Lemma wf_startCronJob s :
  Entity.type s = fixed -> keeps registryWellFormed (ScheduleService.startCronJob s).
Proof.
  intros Hty st [HJ HT].
  unfold ScheduleService.startCronJob, ret, modify.
  destruct (cronAccepts (Entity.cron s)) eqn:Hacc; simpl; [|done].
  split; simpl; [|done]. intros i job.
  destruct (decide (Entity.id s = i)) as [<-|Hne].
  - rewrite lookup_insert_eq. intros [= <-]. done.
  - rewrite lookup_insert_ne by done. apply HJ.
Qed.

Lemma wf_startTimer now s :
  Entity.type s = manual -> keeps registryWellFormed (ScheduleService.startTimer now s).
Proof.
  intros Hty st [HJ HT]. unfold ScheduleService.startTimer, ret, throw, modify.
  destruct (Entity.scheduledAt s) as [t|] eqn:Hat; simpl; [|done].
  destruct (Z.leb_spec (t - now) 0) as [Hle|Hgt]; simpl; [done|].
  split; simpl; [done|]. intros i tm.
  destruct (decide (Entity.id s = i)) as [<-|Hne].
  - rewrite lookup_insert_eq. intros [= <-].
    repeat split; simpl; [done|by rewrite Hat|unfold setTimeoutDelay; case_match; lia].
  - rewrite lookup_insert_ne by done. apply HT.
Qed.

Lemma wf_modify_sub f :
  (forall st i x, cronJobs (f st) !! i = Some x -> cronJobs st !! i = Some x) ->
  (forall st i x, timers (f st) !! i = Some x -> timers st !! i = Some x) ->
  keeps registryWellFormed (modify f).
Proof.
  intros H1 H2. apply keeps_modify. intros st [HJ HT]. split.
  - intros i job Hi. by apply HJ, H1.
  - intros i tm Hi. by apply HT, H2.
Qed.

Ltac wf :=
  unfold_ops;
  repeat first
    [ apply wf_startCronJob; assumption
    | apply wf_startTimer; assumption
    | apply keeps_storage_create, registryWellFormed_storeBlind
    | apply keeps_storage_update, registryWellFormed_storeBlind
    | apply keeps_storage_delete, registryWellFormed_storeBlind
    | apply wf_modify_sub; simpl; intros ? ? ?;
      [ first [ by intros [_ ?]%lookup_delete_Some | by rewrite lookup_empty | done ]
      | first [ by intros [_ ?]%lookup_delete_Some | by rewrite lookup_empty | done ] ]
    | keeps_step ].

Lemma wf_exec send now op st :
  registryWellFormed st -> registryWellFormed (exec send now op st).
Proof.
  intros H. destruct op; cbn [exec].
  - assert (keeps registryWellFormed (ScheduleService.create now newId dto)) as K by wf.
    by apply K.
  - assert (keeps registryWellFormed (ScheduleService.findAll now type chatId)) as K by wf.
    by apply K.
  - assert (keeps registryWellFormed (ScheduleService.update now id dto)) as K by wf.
    by apply K.
  - assert (keeps registryWellFormed (ScheduleService.delete id)) as K by wf.
    by apply K.
  - assert (keeps registryWellFormed (ScheduleService.toggleEnabled now id)) as K by wf.
    by apply K.
  - assert (keeps registryWellFormed (ScheduleService.restoreSchedules now)) as K by wf.
    by apply K.
  - assert (keeps registryWellFormed ScheduleService.onModuleDestroy) as K by wf.
    by apply K.
  - destruct (timers st !! id) as [tm|]; [|done].
    assert (keeps registryWellFormed (ScheduleService.timerFire send (timer_schedule tm)))
      as K by wf.
    apply K. destruct H as [HJ HT]. split; simpl; [done|].
    intros i tm' [_ ?]%lookup_delete_Some. by apply HT.
  - destruct (cronJobs st !! id) as [job|]; [|done].
    assert (keeps registryWellFormed (ScheduleService.cronTick send (job_schedule job)))
      as K by wf.
    by apply K.
  - assert (keeps registryWellFormed (ScheduleService.sendDailySummary send now)) as K by wf.
    by apply K.
  - destruct (strayTimers st !! n) as [tm|]; [|done].
    assert (keeps registryWellFormed (ScheduleService.timerFire send (timer_schedule tm)))
      as K by wf.
    by apply K.
  - destruct (strayJobs st !! n) as [job|]; [|done].
    assert (keeps registryWellFormed (ScheduleService.cronTick send (job_schedule job)))
      as K by wf.
    by apply K.
Qed.

Lemma wf_onModuleInit now : keeps registryWellFormed (ScheduleService.onModuleInit now).
Proof. wf. Qed.

(** X6. In every state the service can reach, each live entry is what
    its starter made of it: a recurring job is filed under the id of the
    Fixed schedule it captured, whose cron source the job constructor
    accepted; a one-shot timer is filed under the id of the Manual
    schedule it captured, which has a scheduled instant, and it was armed
    with a strictly positive delay. No entry is ever kept for a rejected
    cron source or armed for an instant that had already passed. *)
Theorem live_entries_are_well_formed (st : State) :
  reachable st \/ serving st -> registryWellFormed st.
Proof.
  assert (forall rows, registryWellFormed (initial rows)) as Hinit.
  { intros rows. split; simpl; intros i x; by rewrite lookup_empty. }
  intros [H|H].
  - induction H as [rows Hnd|st send now op _ IH Hadm]; [apply Hinit|].
    by apply wf_exec.
  - induction H as [rows now Hnd|st send now op _ IH Hop Hadm].
    + by apply wf_onModuleInit.
    + by apply wf_exec.
Qed.

End CallbacksAndRegistry.

(** ** Client operations *)

Section ClientOperations.
Context {env : Env}.

(** X8. Deleting a stored schedule returns normally, removes its row
    and whatever live entry it had, sends nothing, and leaves every other
    row and live entry as it was; a second delete of the same id is
    answered with NotFound. *)
Theorem delete_removes_row_and_live_entry (i : string) (e : Entity.t) (st : State) :
  Storage.findById (store st) i = Some e ->
  let st' := (ScheduleService.delete i st).1 in
  (ScheduleService.delete i st).2 = Return tt
  /\ Storage.findById (store st') i = None
  /\ cronJobs st' !! i = None
  /\ timers st' !! i = None
  /\ (forall k, k <> i ->
        Storage.findById (store st') k = Storage.findById (store st) k
        /\ cronJobs st' !! k = cronJobs st !! k
        /\ timers st' !! k = timers st !! k)
  /\ outbox st' = outbox st
  /\ ScheduleService.delete i st' = (st', Throw (NotFoundException i)).
Proof.
  intros He. cbn zeta.
  assert (ScheduleService.delete i st
          = (mkState (Storage.delete (store st) i).1 (delete i (cronJobs st))
               (delete i (timers st)) (dailySummaryJob st) (outbox st) (strayJobs st)
               (strayTimers st), Return tt)) as Hrun.
  { unfold ScheduleService.delete. unfold_service. by rewrite He. }
  rewrite Hrun. simpl_state.
  assert (Storage.findById (Storage.delete (store st) i).1 i = None) as Hgone
    by by rewrite findById_delete, String.eqb_refl.
  split; [done|]. split; [exact Hgone|].
  split; [by rewrite lookup_delete_eq|]. split; [by rewrite lookup_delete_eq|].
  split; [|split; [done|]].
  - intros k Hk. rewrite findById_delete, !lookup_delete_ne by done.
    by apply String.eqb_neq in Hk as ->.
  - unfold ScheduleService.delete. unfold_service. simpl_state. by rewrite Hgone.
Qed.

Lemma only_row_with_id rows i e x :
  NoDup (map Entity.id rows) -> Storage.findById rows i = Some e ->
  In x rows -> Storage.has_id i x = true -> x = e.
Proof.
  intros Hnd He Hx Hid. apply has_id_true in Hid. subst i.
  rewrite (findById_elem rows x Hnd Hx) in He. congruence.
Qed.

Lemma apply_only_enabled_twice b e :
  Partial.apply (Partial.only_enabled (Entity.enabled e))
    (Partial.apply (Partial.only_enabled b) e) = e.
Proof. by destruct e. Qed.

Lemma update_enabled_back rows i e b :
  NoDup (map Entity.id rows) -> Storage.findById rows i = Some e ->
  (Storage.updateRows (Storage.updateRows rows i (Partial.only_enabled b)).1 i
     (Partial.only_enabled (Entity.enabled e))).1 = rows.
Proof.
  intros Hnd He. unfold Storage.updateRows. cbn [fst]. rewrite map_map.
  rewrite <- (map_id rows) at 2. apply map_ext_in. intros x Hx.
  destruct (Storage.has_id i x) eqn:Hid.
  - rewrite has_id_apply, Hid.
    rewrite (only_row_with_id rows i e x Hnd He Hx Hid). apply apply_only_enabled_twice.
  - by rewrite Hid.
Qed.

(** What a toggle that returned did to the store. *)
Lemma toggleEnabled_returned now i st st' r :
  ScheduleService.toggleEnabled now i st = (st', Return r) ->
  exists e,
    Storage.findById (store st) i = Some e
    /\ store st' = (Storage.updateRows (store st) i
                      (Partial.only_enabled (negb (Entity.enabled e)))).1
    /\ r = Some (Partial.apply (Partial.only_enabled (negb (Entity.enabled e))) e).
Proof.
  unfold ScheduleService.toggleEnabled. unfold_service. simpl_state.
  destruct (Storage.findById (store st) i) as [e|] eqn:He; simpl_state; [|done].
  intros Hrun. exists e. split; [done|].
  assert (Storage.findById
            (Storage.updateRows (store st) i
               (Partial.only_enabled (negb (Entity.enabled e)))).1 i
          = Some (Partial.apply (Partial.only_enabled (negb (Entity.enabled e))) e)) as Hr.
  { by rewrite findById_update, String.eqb_refl, He. }
  unfold Storage.updateRows in Hr at 1. cbn [fst] in Hr.
  revert Hrun. destruct (Entity.enabled e); cbn [negb] in *; simpl_state.
  - unfold Storage.updateRows. cbn [fst snd]. rewrite Hr. by intros [= <- <-].
  - destruct (Entity.type e); simpl_state.
    + destruct (cronAccepts _); simpl_state;
        unfold Storage.updateRows; cbn [fst snd]; rewrite Hr; by intros [= <- <-].
    + destruct (Entity.scheduledAt e) as [t|]; simpl_state; [|done].
      destruct (t <=? now); simpl_state; [done|].
      destruct (_ <=? 0); simpl_state;
        unfold Storage.updateRows; cbn [fst snd]; rewrite Hr; by intros [= <- <-].
    + unfold Storage.updateRows. cbn [fst snd]. rewrite Hr. by intros [= <- <-].
Qed.

(** X9. Two toggles of the same schedule that both return put the
    store back exactly as it was (ids being unique): the first returns the
    record with enabled negated, the second the record as it was stored
    before. *)
Theorem toggleEnabled_twice_restores_store
    (now1 now2 : Z) (i : string) (st st1 st2 : State) (r1 r2 : option Entity.t) :
  NoDup (map Entity.id (store st)) ->
  ScheduleService.toggleEnabled now1 i st = (st1, Return r1) ->
  ScheduleService.toggleEnabled now2 i st1 = (st2, Return r2) ->
  store st2 = store st
  /\ exists e,
       Storage.findById (store st) i = Some e
       /\ r1 = Some (Partial.apply (Partial.only_enabled (negb (Entity.enabled e))) e)
       /\ r2 = Some e.
Proof.
  intros Hnd H1 H2.
  apply toggleEnabled_returned in H1 as (e & He & Hs1 & ->).
  apply toggleEnabled_returned in H2 as (e1 & He1 & Hs2 & ->).
  rewrite Hs1, findById_update, String.eqb_refl, He in He1. simpl in He1.
  injection He1 as <-.
  assert (negb (Entity.enabled
            (Partial.apply (Partial.only_enabled (negb (Entity.enabled e))) e))
          = Entity.enabled e) as Hback by (simpl; apply negb_involutive).
  rewrite Hback in *. split.
  - rewrite Hs2, Hs1. by apply update_enabled_back.
  - exists e. split; [done|]. split; [done|]. f_equal. apply apply_only_enabled_twice.
Qed.

End ClientOperations.

Section UpdateAndCreate.
Context {env : Env}.

Lemma isEmpty_updateData dto :
  UpdateScheduleDto.scheduledAt dto = None ->
  Partial.isEmpty (updateData dto None) = emptyBody dto.
Proof.
  destruct dto as [n m c cr sAt en ev d]. simpl. intros ->.
  by destruct n, m, c, cr, en, ev, d.
Qed.

(** X10. An update that names at least one property never leaves an
    elapsed one-shot schedule enabled. When the body is not empty and
    carries no scheduledAt and the updated record is an enabled Manual
    schedule whose instant is not after now, the call arms no timer and
    stores the record with enabled = false; the record it returns is the
    one read before that correction and still says enabled = true. *)
Theorem update_disables_elapsed_manual_but_returns_it_enabled
    (now : Z) (i : string) (dto : UpdateScheduleDto.t)
    (existing : Entity.t) (t : Z) (st : State) :
  Storage.findById (store st) i = Some existing ->
  Entity.type existing = manual ->
  Entity.scheduledAt existing = Some t -> t <= now ->
  emptyBody dto = false ->
  UpdateScheduleDto.scheduledAt dto = None ->
  default (Entity.enabled existing) (UpdateScheduleDto.enabled dto) = true ->
  let updated := Partial.apply (updateData dto None) existing in
  let st' := (ScheduleService.update now i dto st).1 in
  (ScheduleService.update now i dto st).2 = Return updated
  /\ Entity.enabled updated = true
  /\ Storage.findById (store st') i
     = Some (Partial.apply (Partial.only_enabled false) updated)
  /\ Entity.enabled (Partial.apply (Partial.only_enabled false) updated) = false
  /\ timers st' !! i = None
  /\ cronJobs st' !! i = None
  /\ outbox st' = outbox st.
Proof.
  intros He Hty Hat Hle Hbody Hdto Hen. cbn zeta.
  assert (Entity.id existing = i) as Hid by (by apply findById_Some in He as [? _]).
  unfold ScheduleService.update. unfold_service. simpl_state.
  rewrite He. simpl_state. rewrite Hdto. cbn [JSString.truthy_opt andb].
  unfold ScheduleService.dateIfDefined, ret. simpl_state.
  fold (updateData dto None).
  rewrite (isEmpty_updateData dto Hdto), Hbody. simpl_state.
  pose proof (findById_update (store st) i (updateData dto None) i) as Hr.
  rewrite String.eqb_refl, He in Hr. simpl in Hr.
  unfold Storage.updateRows in *. cbn [fst snd] in *. rewrite Hr.
  set (updated := Partial.apply (updateData dto None) existing) in *.
  assert (Entity.enabled updated = true) as Hen' by exact Hen.
  assert (Entity.type updated = manual) as Hty' by exact Hty.
  assert (Entity.scheduledAt updated = Some t) as Hat'
    by (unfold updated; simpl; by rewrite Hat).
  rewrite Hen', Hty', Hat'.
  assert ((t >? now) = false) as -> by (destruct (Z.gtb_spec t now); [lia|done]).
  simpl_state.
  split; [done|]. split; [done|]. split.
  { pose proof (findById_update
      (map (fun e => if Storage.has_id i e
                     then Partial.apply (updateData dto None) e else e) (store st))
      i (Partial.only_enabled false) i) as H2.
    unfold Storage.updateRows in H2. cbn [fst] in H2.
    rewrite H2, String.eqb_refl, Hr. done. }
  split; [done|]. split; [by rewrite lookup_delete_eq|].
  split; [by rewrite lookup_delete_eq|done].
Qed.

(** X11. After an update that returns an enabled Fixed record with an
    accepted cron source, the recurring job of that id holds the record
    as updated, and its next tick hands the dispatcher the updated message
    for the updated chat: nothing of the record as it was before the
    update is sent any more. *)
Theorem update_then_tick_sends_the_updated_message
    (send : Dispatcher) (now now' : Z) (i : string) (dto : UpdateScheduleDto.t)
    (updated : Entity.t) (st st1 : State) :
  ScheduleService.update now i dto st = (st1, Return updated) ->
  Entity.type updated = fixed ->
  Entity.enabled updated = true ->
  cronAccepts (Entity.cron updated) = true ->
  cronJobs st1 !! i = Some {| job_schedule := updated |}
  /\ timers st1 !! i = None
  /\ Storage.findById (store st1) i = Some updated
  /\ outbox (exec send now' (OpCronTick i) st1) = outbox st ++ [dueMessage send updated].
Proof.
  intros Hrun Hty Hen Hacc.
  assert (outbox st1 = outbox st) as Hout.
  { pose proof (quiet_update (outbox st) now i dto st eq_refl) as H.
    by rewrite Hrun in H. }
  revert Hrun. unfold ScheduleService.update at 1. unfold_service. simpl_state.
  destruct (Storage.findById (store st) i) as [existing|] eqn:He; simpl_state; [|done].
  destruct (JSString.truthy_opt _ && _ && _); simpl_state; [done|].
  match goal with |- context [ScheduleService.dateIfDefined ?o ?s] =>
    destruct (dateIfDefined_pure o s) as [[sAt|e] ->] end; simpl_state; [|done].
  fold (updateData dto sAt).
  destruct (Partial.isEmpty (updateData dto sAt)); simpl_state; [done|].
  pose proof (findById_update (store st) i (updateData dto sAt) i) as Hr.
  rewrite String.eqb_refl, He in Hr. simpl in Hr.
  assert (Entity.id existing = i) as Hid by (by apply findById_Some in He as [? _]).
  unfold Storage.updateRows in *. cbn [fst snd] in *. rewrite Hr.
  set (u := Partial.apply (updateData dto sAt) existing) in *.
  destruct (Entity.enabled u) eqn:Eu; simpl_state.
  2:{ intros [= <- <-]. congruence. }
  destruct (Entity.type u) eqn:Tu; simpl_state.
  - destruct (cronAccepts (Entity.cron u)) eqn:Au; simpl_state.
    + intros [= <- <-]. simpl_state. rewrite Hid.
      split; [by rewrite lookup_insert_eq|]. split; [by rewrite lookup_delete_eq|].
      split; [exact Hr|].
      cbn [exec]. simpl_state. rewrite lookup_insert_eq. cbn [job_schedule].
      by rewrite cronTick_outbox.
    + intros [= <- <-]. congruence.
  - destruct (match Entity.scheduledAt u with Some t => t >? now | None => false end);
      simpl_state.
    + unfold ScheduleService.startTimer, ret, throw, modify.
      destruct (Entity.scheduledAt u); simpl_state; [|done].
      destruct (_ <=? 0); simpl_state; intros [= <- <-]; congruence.
    + intros [= <- <-]. congruence.
  - intros [= <- <-]. congruence.
Qed.

End UpdateAndCreate.

Section CreateSuccess.
Context {env : Env}.


End CreateSuccess.

(** ** Listing and the daily summary *)

Section ListingAndSummary.
Context {env : Env}.

Lemma filter_and {A} (f g : A -> bool) l :
  List.filter (fun x => f x && g x) l = List.filter f (List.filter g l).
Proof.
  induction l as [|x l IH]; simpl; [done|].
  destruct (g x); simpl; rewrite IH; [by destruct (f x)|by rewrite andb_false_r].
Qed.

Lemma typeName_eqb a b : String.eqb (typeName a) (typeName b) = ScheduleType_eqb a b.
Proof. by destruct a, b. Qed.

(** X13. findAll only reads. A type filter selects, among the records
    listed without it, exactly those of that type; a type name that is no
    schedule type lists nothing; and an empty type filter, whatever the
    chat filter, and an empty chat filter, whatever the type filter, are
    no filter at all. *)
Theorem findAll_filters_compose
    (now : Z) (chatId : option string) (st : State) :
  (forall ty, (ScheduleService.findAll now ty chatId st).1 = st)
  /\ (forall ty listed,
        (ScheduleService.findAll now None chatId st).2 = Return listed ->
        (ScheduleService.findAll now (Some (typeName ty)) chatId st).2
          = Return (List.filter (fun s => ScheduleType_eqb (Entity.type s) ty) listed))
  /\ (forall name, JSString.truthy name = true -> (forall ty, typeName ty <> name) ->
        (ScheduleService.findAll now (Some name) chatId st).2 = Return [])
  /\ ScheduleService.findAll now (Some EmptyString) chatId st
     = ScheduleService.findAll now None chatId st
  /\ (forall ty, ScheduleService.findAll now ty (Some EmptyString) st
                 = ScheduleService.findAll now ty None st)
  /\ ScheduleService.findAll now (Some EmptyString) (Some EmptyString) st
     = ScheduleService.findAll now None None st.
Proof.
  unfold ScheduleService.findAll. unfold_service. simpl_state.
  split; [done|]. split; [|split; [|split; [done|split; [done|]]]].
  - intros ty listed [= <-]. f_equal. rewrite <- filter_and.
    apply filter_ext_In. intros s _. unfold ScheduleService.findAllFilter.
    cbn [JSString.truthy_opt default from_option id].
    assert (JSString.truthy (typeName ty) = true) as -> by by destruct ty.
    rewrite typeName_eqb. cbn [andb].
    destruct (JSString.truthy_opt chatId && _); [by rewrite andb_false_r|].
    by destruct (ScheduleType_eqb (Entity.type s) ty).
  - intros name Hname Hno. f_equal.
    induction (Storage.findAll (store st)) as [|s l IH]; [done|]. simpl.
    rewrite IH. unfold ScheduleService.findAllFilter.
    cbn [JSString.truthy_opt default from_option id]. rewrite Hname.
    destruct (String.eqb_spec (typeName (Entity.type s)) name) as [E|E];
      [by apply Hno in E|].
    by destruct (JSString.truthy_opt chatId && _).
  - done.
Qed.




(** X15. [isDateToday] holds exactly when the instant and the current
    instant fall on the same calendar day in Seoul, that is, when their
    day numbers after the nine hour shift are equal; this holds for
    instants before 1970 as well. *)
Theorem isDateToday_iff_same_seoul_day (date now : Z) :
  ScheduleService.isDateToday date (now + ScheduleService.kstOffset) = true
  <-> (date + ScheduleService.kstOffset) / JSDate.msPerDay
      = (now + ScheduleService.kstOffset) / JSDate.msPerDay.
Proof.
  rewrite isDateToday_same_day. unfold kstDay, JSDate.Day. apply Z.eqb_eq.
Qed.

End ListingAndSummary.

(** ** Text helpers of the summary *)

Section SummaryText.
Context {env : Env}.
Import JSString Cron.

Lemma enumerate_clock (P : Z -> Z -> bool) :
  forallb (fun h => forallb (fun m => P (Z.of_nat h) (Z.of_nat m)) (seq 0 60)) (seq 0 24) = true ->
  forall h m, 0 <= h < 24 -> 0 <= m < 60 -> P h m = true.
Proof.
  intros Hall h m Hh Hm. rewrite forallb_forall in Hall.
  specialize (Hall (Z.to_nat h)). rewrite forallb_forall in Hall.
  specialize (Hall ltac:(apply in_seq; lia) (Z.to_nat m) ltac:(apply in_seq; lia)).
  by rewrite !Z2Nat.id in Hall by lia.
Qed.

(** X16. An event time written as zero padded [HH:mm] is shown by
    [formatHHmm] exactly as the summary shows a computed time of the same
    hour and minute: the 12-hour label with its AM or PM marker. *)
Theorem formatHHmm_agrees_with_timeLabel (hour minute : Z) :
  0 <= hour < 24 -> 0 <= minute < 60 ->
  ScheduleService.formatHHmm (clockText hour minute)
    = ScheduleService.timeLabel (Num hour) (Num minute).
Proof.
  intros Hh Hm. apply String.eqb_eq.
  apply (enumerate_clock
           (fun h m => String.eqb (ScheduleService.formatHHmm (clockText h m))
                         (ScheduleService.timeLabel (Num h) (Num m)))); [|done..].
  vm_compute. reflexivity.
Qed.

Lemma includes_replace_newlines s : includes "010" (replace_newlines s) = false.
Proof.
  induction s as [|a s IH]; simpl; [done|]. rewrite IH, orb_false_r.
  destruct (Ascii.eqb_spec a "010"); [done|]. by apply Ascii.eqb_neq.
Qed.

Lemma includes_substring c n m s :
  includes c s = false -> includes c (substring n m s) = false.
Proof.
  revert n m. induction s as [|a s IH]; intros n m; simpl.
  - by destruct n, m.
  - intros [Ha Hs]%orb_false_iff. destruct n as [|n].
    + destruct m as [|m]; simpl; [done|]. by rewrite Ha, IH.
    + by apply IH.
Qed.

Lemma replace_newlines_id s : includes "010" s = false -> replace_newlines s = s.
Proof.
  induction s as [|a s IH]; simpl; [done|].
  intros [Ha Hs]%orb_false_iff. by rewrite Ha, IH.
Qed.

Lemma surrogate_byte_no_newline x :
  Ascii.eqb (ascii_of_N (128 + N.land x 63)) "010" = false.
Proof.
  apply Ascii.eqb_neq. intros H. apply (f_equal N_of_ascii) in H.
  assert (N.land x 63 < 64)%N as Hlt.
  { change 63%N with (N.ones 6). rewrite N.land_ones. by apply N.mod_lt. }
  rewrite N_ascii_embedding in H by lia. simpl in H. lia.
Qed.

Lemma highSurrogate_no_newline a b c d :
  includes "010" (highSurrogate a b c d) = false.
Proof.
  unfold highSurrogate. cbn [includes]. by rewrite !surrogate_byte_no_newline.
Qed.

Lemma take16_no_newline_upto m : forall s n,
  (String.length s <= m)%nat ->
  includes "010" s = false -> includes "010" (take16 n s) = false.
Proof.
  induction m as [|m IH]; intros s n Hlen Hs.
  - destruct s; [done|simpl in Hlen; lia].
  - destruct s as [|a s1]; [done|]. cbn [take16]. cbv zeta.
    cbn [includes] in Hs. apply orb_false_iff in Hs as [Ha H1].
    repeat case_match; subst; cbn [includes] in *;
      repeat match goal with
             | H : _ || _ = false |- _ => apply orb_false_iff in H as [? ?]
             end;
      rewrite ?highSurrogate_no_newline; try done;
      repeat (apply orb_false_iff; split; [done|]);
      apply IH; (done || (simpl in *; lia)).
Qed.

Lemma take16_no_newline s n :
  includes "010" s = false -> includes "010" (take16 n s) = false.
Proof. by apply (take16_no_newline_upto (String.length s)). Qed.

(** X17. Whatever the input and the limit, the text [truncateStr]
    returns holds no line break, so an entry built from it stays on its
    line; and a text without line breaks that is not longer than the
    limit, both counted in UTF-16 code units as the code counts them, is
    returned as it is: twenty Hangul syllables pass a limit of twenty
    unchanged, and a twenty-first one is replaced by the ellipsis. *)
Theorem truncateStr_is_one_line (str : string) (max : nat) :
  includes "010" (ScheduleService.truncateStr str max) = false
  /\ (includes "010" str = false -> (length16 str <= max)%nat ->
      ScheduleService.truncateStr str max = str)
  /\ ScheduleService.truncateStr "가나다라마바사아자차카타파하가나다라마바" 20
     = "가나다라마바사아자차카타파하가나다라마바"
  /\ ScheduleService.truncateStr
       "가나다라마바사아자차카타파하가나다라마바사" 20
     = "가나다라마바사아자차카타파하가나다라마바…".
Proof.
  split; [|split; [|split; reflexivity]].
  - unfold ScheduleService.truncateStr.
    destruct (max <? _)%nat; [|apply includes_replace_newlines].
    rewrite includes_app, take16_no_newline by apply includes_replace_newlines.
    done.
  - unfold ScheduleService.truncateStr.
    intros Hnl Hlen. rewrite replace_newlines_id by done.
    by apply Nat.ltb_ge in Hlen as ->.
Qed.

Lemma is_field_app f w g :
  is_field f = true -> f +:+ w +:+ g <> "".
Proof. intros Hf. destruct (is_field_cons f Hf) as (x & r & -> & _). done. Qed.

Lemma trim_cron6 f1 w1 f2 w2 f3 w3 f4 w4 f5 w5 f6 :
  is_field f1 = true -> is_field f6 = true ->
  trim (cron6 f1 w1 f2 w2 f3 w3 f4 w4 f5 w5 f6) = cron6 f1 w1 f2 w2 f3 w3 f4 w4 f5 w5 f6.
Proof.
  intros H1 H6. unfold cron6.
  pose proof (trim_between f1
    (w1 +:+ f2 +:+ w2 +:+ f3 +:+ w3 +:+ f4 +:+ w4 +:+ f5 +:+ w5) f6 "" ""
    H1 H6 Blank_nil Blank_nil) as H.
  change ("" +:+ ?s) with s in H. rewrite append_empty_r in H.
  rewrite !append_assoc in *. exact H.
Qed.

Lemma split_ws_cron6 f1 w1 f2 w2 f3 w3 f4 w4 f5 w5 f6 :
  is_field f1 = true -> is_field f2 = true -> is_field f3 = true ->
  is_field f4 = true -> is_field f5 = true -> is_field f6 = true ->
  is_gap w1 = true -> is_gap w2 = true -> is_gap w3 = true ->
  is_gap w4 = true -> is_gap w5 = true ->
  split_ws (cron6 f1 w1 f2 w2 f3 w3 f4 w4 f5 w5 f6) = [f1; f2; f3; f4; f5; f6].
Proof.
  intros. unfold split_ws, cron6.
  rewrite <- (append_empty_r f6) at 1.
  rewrite !split_ws_field_gap by done.
  by rewrite append_empty_r, split_ws_last.
Qed.

(** X18. When an expression has six fields, each a run of ASCII
    characters other than white space, with white space of any kind
    ECMAScript knows between them, [cronMatchesToday] still takes the
    third, fourth and fifth field for day of month, month and day of week;
    the first two fields and the sixth never influence the result. *)
Theorem cronMatchesToday_reads_fields_three_to_five
    (f1 w1 f2 w2 f3 w3 f4 w4 f5 w5 f6 : string) (dow date month : Z) :
  is_field f1 = true -> is_field f2 = true -> is_field f3 = true ->
  is_field f4 = true -> is_field f5 = true -> is_field f6 = true ->
  is_gap w1 = true -> is_gap w2 = true -> is_gap w3 = true ->
  is_gap w4 = true -> is_gap w5 = true ->
  Cron.cronMatchesToday (cron6 f1 w1 f2 w2 f3 w3 f4 w4 f5 w5 f6) dow date month
    = Cron.cronFieldMatches f4 month && Cron.cronFieldMatches f3 date
      && Cron.cronDowMatches f5 dow.
Proof.
  intros. unfold Cron.cronMatchesToday.
  rewrite trim_cron6, split_ws_cron6 by done. cbn [length Nat.ltb Nat.leb nth].
  by destruct (Cron.cronFieldMatches f4 month), (Cron.cronFieldMatches f3 date),
    (Cron.cronDowMatches f5 dow).
Qed.

End SummaryText.

(** ** The list commands *)

Section ListCommands.
Context {env : Env}.
Import JSString Cron.

Lemma append_length a b : String.length (a +:+ b) = (String.length a + String.length b)%nat.
Proof.
  induction a as [|x a IH]; [done|].
  change (S (String.length (a +:+ b)) = S (String.length a + String.length b)).
  by rewrite IH.
Qed.

(** X19. For a five-field expression, with any white space around it
    and between its fields (the white space of ECMAScript, U+3000 and the
    like included), [describeCron] is the description of the day-of-week
    field followed by the hour and the minute field, each padded to two
    characters; the day-of-month and month fields never show, so a
    schedule restricted to certain dates is described like one that is
    not. *)
Theorem describeCron_shows_weekday_and_time
    (pre a w1 b w2 c w3 d w4 e post : string) :
  blank pre = true -> blank post = true ->
  is_field a = true -> is_field b = true -> is_field c = true ->
  is_field d = true -> is_field e = true ->
  is_gap w1 = true -> is_gap w2 = true -> is_gap w3 = true -> is_gap w4 = true ->
  ScheduleBotUpdate.describeCron (pre +:+ cron5 a w1 b w2 c w3 d w4 e +:+ post)
    = ScheduleBotUpdate.describeDayOfWeek e +:+ " "
      +:+ padStart 2 "0" b +:+ ":" +:+ padStart 2 "0" a
  /\ (forall c' d', is_field c' = true -> is_field d' = true ->
        ScheduleBotUpdate.describeCron (pre +:+ cron5 a w1 b w2 c' w3 d' w4 e +:+ post)
        = ScheduleBotUpdate.describeCron (pre +:+ cron5 a w1 b w2 c w3 d w4 e +:+ post)).
Proof.
  intros Hpre Hpost Ha Hb Hc Hd He H1 H2 H3 H4.
  assert (forall c d, is_field c = true -> is_field d = true ->
            ScheduleBotUpdate.describeCron (pre +:+ cron5 a w1 b w2 c w3 d w4 e +:+ post)
            = ScheduleBotUpdate.describeDayOfWeek e +:+ " "
              +:+ padStart 2 "0" b +:+ ":" +:+ padStart 2 "0" a) as Hshape.
  { intros c0 d0 Hc0 Hd0. unfold ScheduleBotUpdate.describeCron.
    rewrite trim_padded_cron5, split_ws_cron5 by done.
    cbn [length Nat.ltb Nat.leb nth]. by rewrite ?append_assoc. }
  split; [by apply Hshape|]. intros c' d' Hc' Hd'. by rewrite !Hshape.
Qed.

(** X20. For a day-of-week field that is one of the numbers 0 to 7,
    the day [describeDayOfWeek] names is the weekday on which
    [cronDowMatches] lets the schedule run, under the name the summary
    header uses for it; 0 and 7 both name Sunday. *)
Theorem describeDayOfWeek_names_the_matching_day (d : N) (dow : Z) :
  (d <= 7)%N -> 0 <= dow <= 6 ->
  cronDowMatches (showN d) dow = true ->
  ScheduleBotUpdate.describeDayOfWeek (showN d)
    = "매주 " +:+ nth (Z.to_nat dow) ScheduleService.dayNames EmptyString +:+ "요일".
Proof.
  intros Hd Hdow Hm.
  assert (forallb (fun d =>
            forallb (fun dow =>
              implb (cronDowMatches (showN (N.of_nat d)) (Z.of_nat dow))
                (String.eqb (ScheduleBotUpdate.describeDayOfWeek (showN (N.of_nat d)))
                   ("매주 " +:+ nth dow ScheduleService.dayNames EmptyString +:+ "요일")))
              (seq 0 7)) (seq 0 8) = true) as Hall by (vm_compute; reflexivity).
  rewrite forallb_forall in Hall. specialize (Hall (N.to_nat d)).
  rewrite forallb_forall in Hall.
  specialize (Hall ltac:(apply in_seq; lia) (Z.to_nat dow) ltac:(apply in_seq; lia)).
  rewrite N2Nat.id, Z2Nat.id, Hm in Hall by lia. by apply String.eqb_eq.
Qed.

Lemma soon_is_not_a_remainder s : s +:+ " 남음" <> "곧 발송".
Proof.
  intros H. pose proof (f_equal String.length H) as Hlen.
  rewrite append_length in Hlen. simpl in Hlen.
  destruct s as [|a [|b [|c [|d s]]]]; simpl in Hlen; try lia.
  by injection H.
Qed.

(** X21. [formatRemaining] answers null exactly when the instant is not
    after now, and the words for an imminent dispatch exactly when less
    than a minute is left; with a minute or more left it names, before
    the closing word, the whole days that are left if there are any, then
    the hours beyond them if there are any, then the minutes beyond the
    hours if there are any and less than a day is left, and it always
    names at least one of the three. *)
Theorem formatRemaining_cases (now date : Z) :
  (ScheduleBotUpdate.formatRemaining now date = None <-> date <= now)
  /\ (ScheduleBotUpdate.formatRemaining now date = Some "곧 발송"
      <-> 0 < date - now < 60000)
  /\ (60000 <= date - now ->
      let total := (date - now) / 60000 in
      let parts :=
        (if 0 <? total / 1440 then [ofZ (total / 1440) +:+ "일"] else [])
        ++ (if 0 <? total mod 1440 / 60
            then [ofZ (total mod 1440 / 60) +:+ "시간"] else [])
        ++ (if (0 <? total mod 60) && (total <? 1440)
            then [ofZ (total mod 60) +:+ "분"] else []) in
      parts <> []
      /\ ScheduleBotUpdate.formatRemaining now date
         = Some (join " " parts +:+ " 남음")).
Proof.
  unfold ScheduleBotUpdate.formatRemaining.
  set (diff := date - now).
  set (tm := diff / 60000).
  assert (0 < diff -> 0 <= tm /\ (tm = 0 <-> diff < 60000)) as Htm.
  { intros Hpos. unfold tm. split; [apply Z.div_pos; lia|].
    split; intros H.
    - apply Z.div_small_iff in H; lia.
    - apply Z.div_small. lia. }
  assert (1 <= tm ->
          (if tm / 1440 >? 0 then [ofZ (tm / 1440) +:+ "일"] else [])
          ++ (if Z.rem tm 1440 / 60 >? 0 then [ofZ (Z.rem tm 1440 / 60) +:+ "시간"] else [])
          ++ (if (Z.rem tm 60 >? 0) && (tm / 1440 =? 0)
              then [ofZ (Z.rem tm 60) +:+ "분"] else [])
          = (if 0 <? tm / 1440 then [ofZ (tm / 1440) +:+ "일"] else [])
            ++ (if 0 <? tm mod 1440 / 60 then [ofZ (tm mod 1440 / 60) +:+ "시간"] else [])
            ++ (if (0 <? tm mod 60) && (tm <? 1440)
                then [ofZ (tm mod 60) +:+ "분"] else [])) as Hsame.
  { intros H1. rewrite !Z.rem_mod_nonneg, !Z.gtb_ltb by lia.
    assert ((tm / 1440 =? 0) = (tm <? 1440)) as ->; [|done].
    destruct (Z.eqb_spec (tm / 1440) 0) as [E|E], (Z.ltb_spec tm 1440) as [L|L];
      try done; exfalso; revert E L H1; clear; intros; Z.div_mod_to_equations; lia. }
  assert (1 <= tm ->
          (if 0 <? tm / 1440 then [ofZ (tm / 1440) +:+ "일"] else [])
          ++ (if 0 <? tm mod 1440 / 60 then [ofZ (tm mod 1440 / 60) +:+ "시간"] else [])
          ++ (if (0 <? tm mod 60) && (tm <? 1440)
              then [ofZ (tm mod 60) +:+ "분"] else []) <> []) as Hparts.
  { intros H1.
    destruct (Z.ltb_spec 0 (tm / 1440)) as [Hd|Hd]; [done|].
    destruct (Z.ltb_spec 0 (tm mod 1440 / 60)) as [Hh|Hh]; [done|].
    assert (tm < 1440) as Hd0
      by (revert Hd H1; clear; intros; Z.div_mod_to_equations; lia).
    assert (0 < tm mod 60) as Hm
      by (revert Hd0 Hh H1; clear; intros; Z.div_mod_to_equations; lia).
    destruct (Z.ltb_spec 0 (tm mod 60)); [|lia].
    destruct (Z.ltb_spec tm 1440); [done|lia]. }
  destruct (Z.leb_spec diff 0) as [Hle|Hpos].
  - split; [split; [lia|done]|]. split; [split; [done|lia]|lia].
  - destruct (Htm Hpos) as [Htm0 Hsmall].
    split; [split; [done|lia]|].
    destruct (Z_lt_dec diff 60000) as [Hlt|Hge].
    + apply Hsmall in Hlt as Hz. rewrite Hz. simpl.
      split; [split; [lia|done]|lia].
    + assert (1 <= tm) as H1 by (destruct (Z.eq_dec tm 0) as [E|E]; [apply Hsmall in E|]; lia).
      rewrite (Hsame H1). specialize (Hparts H1). cbv zeta. fold diff. fold tm.
      match type of Hparts with ?X <> [] => set (P := X) in * end.
      clearbody P. destruct P as [|part parts]; [done|].
      cbn [length Nat.ltb Nat.leb]. split.
      * split; [|lia]. intros [= H]. by apply soon_is_not_a_remainder in H.
      * intros _. split; [done|]. done.
Qed.

(** X22. The list shows an instant with the same text pieces as the
    summary: [formatDate] is the date header of the summary for the
    shifted instant, a blank, and the 12-hour time label of its hour and
    minute. *)
Theorem formatDate_is_header_and_time_label (date : Z) :
  let kst := date + ScheduleService.kstOffset in
  ScheduleBotUpdate.formatDate date
    = ScheduleService.dateHeader kst +:+ " "
      +:+ ScheduleService.timeLabel (Num (JSDate.getUTCHours kst))
            (Num (JSDate.getUTCMinutes kst)).
Proof.
  cbn zeta.
  unfold ScheduleBotUpdate.formatDate, ScheduleService.dateHeader,
    ScheduleService.timeLabel, ScheduleBotUpdate.pad, ScheduleService.pad,
    ScheduleService.dayNames, ScheduleService.kstOffset.
  cbn zeta. cbn [ofNum js_lt js_eq js_gt js_sub].
  generalize (JSDate.getUTCFullYear (date + 9 * 60 * 60 * 1000)) as Y.
  generalize (JSDate.getUTCMonth (date + 9 * 60 * 60 * 1000)) as Mo.
  generalize (JSDate.getUTCDate (date + 9 * 60 * 60 * 1000)) as D.
  generalize (JSDate.getUTCDay (date + 9 * 60 * 60 * 1000)) as W.
  generalize (JSDate.getUTCHours (date + 9 * 60 * 60 * 1000)) as h.
  generalize (JSDate.getUTCMinutes (date + 9 * 60 * 60 * 1000)) as mi.
  intros mi h W D Mo Y. rewrite Z.gtb_ltb.
  rewrite !append_assoc.
  change (")" +:+ " " +:+ ?s) with (") " +:+ s).
  by destruct (h <? 12), (h =? 0), (12 <? h).
Qed.

End ListCommands.

(** ** Group chats and immediate notifications *)

Section GroupChats.
Import JSString.

Lemma startsWith_refl s : JSText.startsWith s s = true.
Proof. induction s as [|a s IH]; simpl; [done|]. by rewrite Ascii.eqb_refl. Qed.

Lemma startsWith_app p s : JSText.startsWith p (p +:+ s) = true.
Proof.
  induction p as [|a p IH]; [done|].
  change (String a p +:+ s) with (String a (p +:+ s)). simpl.
  by rewrite Ascii.eqb_refl.
Qed.

Lemma startsWith_app_l p a b :
  JSText.startsWith p a = true -> JSText.startsWith p (a +:+ b) = true.
Proof.
  revert a. induction p as [|x p IH]; intros a; [done|].
  destruct a as [|y a]; [done|].
  change (String y a +:+ b) with (String y (a +:+ b)). simpl.
  intros [-> Hp]%andb_true_iff. by rewrite IH.
Qed.

Lemma text_includes_app_l n a b :
  JSText.includes n a = true -> JSText.includes n (a +:+ b) = true.
Proof.
  induction a as [|y a IH].
  - simpl. rewrite orb_false_r. intros H. destruct n; [|done]. by destruct b.
  - change (String y a +:+ b) with (String y (a +:+ b)).
    cbn [JSText.includes]. intros [H|H]%orb_true_iff.
    + apply (startsWith_app_l n (String y a) b) in H.
      change (String y a +:+ b) with (String y (a +:+ b)) in H. by rewrite H.
    + by rewrite (IH H), orb_true_r.
Qed.

Lemma text_includes_app_r n a b :
  JSText.includes n b = true -> JSText.includes n (a +:+ b) = true.
Proof.
  intros H. induction a as [|y a IH]; [done|].
  change (String y a +:+ b) with (String y (a +:+ b)).
  cbn [JSText.includes]. by rewrite IH, orb_true_r.
Qed.

Lemma text_includes_self n : JSText.includes n n = true.
Proof. destruct n; [done|]. cbn [JSText.includes]. by rewrite startsWith_refl. Qed.

Lemma trimStart_suffix_upto n : forall s,
  (String.length s <= n)%nat -> exists pre, s = pre +:+ trimStart s.
Proof.
  induction n as [|n IH]; intros s Hn.
  - destruct s; [by exists ""|simpl in Hn; lia].
  - destruct s as [|a s1]; [by exists ""|]. cbn [trimStart].
    destruct (is_space a).
    { destruct (IH s1) as [pre Hp]; [simpl in Hn; lia|].
      exists (String a pre). change (String a pre +:+ ?t) with (String a (pre +:+ t)).
      by rewrite <- Hp. }
    destruct s1 as [|b s2]; [by exists ""|]. destruct (is_space2 a b).
    { destruct (IH s2) as [pre Hp]; [simpl in Hn; lia|].
      exists (String a (String b pre)).
      change (String a (String b pre) +:+ ?t) with (String a (String b (pre +:+ t))).
      by rewrite <- Hp. }
    destruct s2 as [|c s3]; [by exists ""|]. destruct (is_space3 a b c); [|by exists ""].
    destruct (IH s3) as [pre Hp]; [simpl in Hn; lia|].
    exists (String a (String b (String c pre))).
    change (String a (String b (String c pre)) +:+ ?t)
      with (String a (String b (String c (pre +:+ t)))).
    by rewrite <- Hp.
Qed.

Lemma trimStart_suffix s : exists pre, s = pre +:+ trimStart s.
Proof. by apply (trimStart_suffix_upto (String.length s)). Qed.

Lemma trimEnd_prefix s : exists post, s = trimEnd s +:+ post.
Proof.
  induction s as [|a s [post IH]]; [by exists ""|]. cbn [trimEnd]. cbv zeta.
  destruct (is_space_char (String a (trimEnd s))).
  - by exists (String a s).
  - exists post. change (String a (trimEnd s) +:+ post) with (String a (trimEnd s +:+ post)).
    by rewrite <- IH.
Qed.

Lemma text_includes_trim n s :
  JSText.includes n (trim s) = true -> JSText.includes n s = true.
Proof.
  unfold trim. intros H.
  destruct (trimStart_suffix s) as [pre Hpre].
  destruct (trimEnd_prefix (trimStart s)) as [post Hpost].
  rewrite Hpre. apply text_includes_app_r. rewrite Hpost. by apply text_includes_app_l.
Qed.

Lemma word_char_not_space_char a s :
  Cron.is_word_char a = true -> is_space_char (String a s) = false.
Proof.
  intros (H1 & H2 & H3)%word_char_no_space.
  destruct s as [|b [|c [|d s]]]; cbn [is_space_char]; auto.
Qed.

Lemma slash_survives_trim s :
  JSText.startsWith "/" s = true -> JSText.startsWith "/" (trim s) = true.
Proof.
  destruct s as [|a s]; [done|]. cbn [JSText.startsWith]. rewrite andb_true_r.
  intros Ha%Ascii.eqb_eq. subst a. unfold trim.
  rewrite (trimStart_word "/" s) by done.
  cbn [trimEnd]. cbv zeta. by rewrite word_char_not_space_char.
Qed.

Lemma utf8_head a s : utf8 (String a s) = true -> continuation a = false.
Proof.
  unfold continuation. cbn [utf8]. cbv zeta.
  destruct (N.ltb_spec (N_of_ascii a) 128) as [H|H].
  - intros _. apply andb_false_iff. left. apply N.leb_gt. lia.
  - destruct (N.ltb_spec (N_of_ascii a) 192) as [H'|H']; [done|].
    intros _. apply andb_false_r.
Qed.

Lemma space_char_continuation a r :
  is_space_char (String a r) = true -> every continuation r = true.
Proof.
  destruct r as [|b [|c [|d r]]]; cbn [is_space_char every]; [done| | |done].
  - unfold is_space2, continuation. intros [_ Hb%N.eqb_eq]%andb_true_iff. by rewrite Hb.
  - unfold is_space3, continuation. cbv zeta. intros H.
    repeat match goal with
           | E : (_ || _)%bool = true |- _ => apply orb_true_iff in E as [E|E]
           | E : (_ && _)%bool = true |- _ => apply andb_true_iff in E as [? ?]
           | E : (_ =? _)%N = true |- _ => apply N.eqb_eq in E
           | E : (_ <=? _)%N = true |- _ => apply N.leb_le in E
           end;
      repeat (apply andb_true_iff; split); try done;
      first [apply N.leb_le | apply N.ltb_lt]; lia.
Qed.

(** The end of a text that holds no blank at its own end stays when
    more text comes before it. *)
Lemma trimEnd_app_boundary p c :
  trimEnd c = c -> utf8 c = true -> c <> "" -> trimEnd (p +:+ c) = p +:+ c.
Proof.
  intros Hc Hu Hne. induction p as [|a p IH]; [done|].
  change (String a p +:+ c) with (String a (p +:+ c)). cbn [trimEnd]. cbv zeta.
  rewrite IH. destruct (is_space_char (String a (p +:+ c))) eqn:E; [|done].
  exfalso. apply space_char_continuation in E. rewrite every_app in E.
  apply andb_true_iff in E as [_ E]. destruct c as [|x c]; [done|].
  apply utf8_head in Hu. cbn [every] in E. apply andb_true_iff in E as [E _].
  congruence.
Qed.

Lemma slice_app p s : JSText.slice (String.length p) (p +:+ s) = s.
Proof. induction p as [|a p IH]; [done|]. exact IH. Qed.

(** X23. In a group chat, with the name of the bot known, a message
    that the middleware lets through and whose text, as the command
    handlers then see it, starts with a slash always carries the mention
    of this bot: a command that is not addressed to the bot never reaches
    a handler. This holds for [onUse], which may rewrite the text, and for
    [groupCommandMiddleware], which never does. *)
Theorem group_gate_passes_only_addressed_commands
    (ctx : BotUpdate.Context) (received u : string) :
  inGroup ctx ->
  BotUpdate.messageText ctx = Some received ->
  BotUpdate.botUsername ctx = Some u -> truthy u = true ->
  (forall visible,
     BotUpdate.visibleText received (BotUpdate.onUse ctx) = Some visible ->
     JSText.startsWith "/" visible = true ->
     JSText.includes ("@" +:+ u) visible = true)
  /\ (forall visible,
        BotUpdate.visibleText received (BotUpdate.groupCommandMiddleware ctx) = Some visible ->
        visible = received
        /\ (JSText.startsWith "/" visible = true ->
            JSText.includes ("@" +:+ u) visible = true)).
Proof.
  unfold inGroup, BotUpdate.onUse, BotUpdate.groupCommandMiddleware.
  intros Hgroup -> -> Hu.
  assert (match BotUpdate.chatType ctx with
          | Some t => String.eqb t "private"
          | None => false
          end = false) as ->.
  { destruct (BotUpdate.chatType ctx) as [t|]; [|done].
    destruct (String.eqb_spec t "private") as [->|]; [by destruct Hgroup|done]. }
  cbn [truthy_opt default from_option id]. rewrite Hu. cbn [negb andb].
  destruct (truthy received) eqn:Hr; cbn [negb].
  2:{ split; intros visible [= <-]; [|split; [done|]]; by destruct received. }
  split; intros visible.
  - destruct (JSText.startsWith ("@" +:+ u) (trim received)).
    + destruct (truthy (trim (JSText.slice _ _))); cbn [negb]; [|done].
      intros [= <-] _.
      change ("/" +:+ ?c +:+ "@" +:+ u) with ("/" +:+ (c +:+ ("@" +:+ u))).
      apply text_includes_app_r, text_includes_app_r, text_includes_self.
    + destruct (JSText.startsWith "/" (trim received)) eqn:Hs;
        destruct (JSText.includes ("@" +:+ u) (trim received)) eqn:Hi;
        cbn [andb negb]; try done.
      * intros [= <-] _. by apply text_includes_trim.
      * intros [= <-] Hv. by rewrite (slash_survives_trim _ Hv) in Hs.
      * intros [= <-] Hv. by rewrite (slash_survives_trim _ Hv) in Hs.
  - destruct (JSText.startsWith "/" received) eqn:Hs;
      destruct (JSText.includes ("@" +:+ u) received) eqn:Hi;
      cbn [negb]; try done; intros [= <-]; split; congruence.
Qed.

(** X24. In a group chat, a text that opens with the mention of the
    bot and goes on with a command name, with or without a slash before
    it and with any or no white space after the mention (the white space
    of ECMAScript, U+3000 and the like included), is rewritten by [onUse]
    to the slash command of that name addressed to the bot, marked as one
    bot-command entity that spans the whole text, counted in UTF-16 code
    units; a mention followed by nothing but white space is dropped. The
    name of the bot and the command name are texts with no white space at
    their ends. *)
Theorem onUse_rewrites_a_mention_into_a_command
    (ctx : BotUpdate.Context) (u w c received : string) :
  inGroup ctx ->
  BotUpdate.botUsername ctx = Some u -> truthy u = true ->
  utf8 u = true -> trimEnd u = u ->
  blank w = true ->
  BotUpdate.messageText ctx = Some received ->
  let rewritten := "/" +:+ c +:+ "@" +:+ u in
  ((received = "@" +:+ u +:+ w +:+ c \/ received = "@" +:+ u +:+ w +:+ "/" +:+ c) ->
   utf8 c = true -> noOuterBlank c -> JSText.startsWith "/" c = false ->
   BotUpdate.onUse ctx
     = BotUpdate.Rewritten rewritten
         [{| BotUpdate.entity_type := "bot_command"; BotUpdate.entity_offset := 0;
             BotUpdate.entity_length := JSString.length16 rewritten |}])
  /\ (received = "@" +:+ u +:+ w -> BotUpdate.onUse ctx = BotUpdate.Dropped).
Proof.
  unfold inGroup, BotUpdate.onUse. intros Hgroup -> Hu Hu8 Hue Hw%blank_Blank ->. cbn zeta.
  assert (match BotUpdate.chatType ctx with
          | Some t => String.eqb t "private"
          | None => false
          end = false) as ->.
  { destruct (BotUpdate.chatType ctx) as [t|]; [|done].
    destruct (String.eqb_spec t "private") as [->|]; [by destruct Hgroup|done]. }
  cbn [truthy_opt default from_option id]. rewrite Hu. cbn [negb].
  assert (u <> "") as Hune by (by destruct u).
  assert (forall rest, ("@" +:+ u) +:+ rest = "@" +:+ u +:+ rest) as Htag by done.
  assert (forall rest, truthy ("@" +:+ u +:+ rest) = true) as Htruthy by done.
  assert (forall rest, trimStart ("@" +:+ u +:+ rest) = "@" +:+ u +:+ rest) as Hstart.
  { intros rest. by apply (trimStart_word "@" (u +:+ rest)). }
  assert (forall rest, trimEnd rest = rest -> utf8 rest = true -> rest <> "" ->
            trim ("@" +:+ u +:+ w +:+ rest) = "@" +:+ u +:+ w +:+ rest) as Htrim.
  { intros rest Hrest Hr8 Hne. unfold trim. rewrite Hstart.
    rewrite <- Htag, <- append_assoc. by apply trimEnd_app_boundary. }
  split.
  - intros Hrec Hc8 (Hc1 & Hc2 & Hc3) Hslash.
    assert (trimEnd ("/" +:+ c) = "/" +:+ c) as Hsc
      by (by apply (trimEnd_app_boundary "/" c)).
    assert (trim (w +:+ c) = c) as Ht1.
    { unfold trim. by rewrite trimStart_blank_app, Hc1. }
    assert (trim (w +:+ "/" +:+ c) = "/" +:+ c) as Ht2.
    { unfold trim. rewrite trimStart_blank_app by done.
      change ("/" +:+ c) with (String "/" c) in *.
      by rewrite (trimStart_word "/" c). }
    destruct Hrec as [-> | ->]; rewrite Htruthy; cbn [negb].
    + rewrite (Htrim c Hc2 Hc8 Hc3), <- (Htag (w +:+ c)), startsWith_app, slice_app, Ht1.
      destruct c as [|x c]; [done|]. cbn [truthy negb]. by rewrite Hslash.
    + rewrite (Htrim ("/" +:+ c) Hsc Hc8 ltac:(done)), <- (Htag (w +:+ "/" +:+ c)).
      by rewrite startsWith_app, slice_app, Ht2.
  - intros ->. rewrite Htruthy. cbn [negb].
    assert (trim ("@" +:+ u +:+ w) = "@" +:+ u) as ->.
    { unfold trim. rewrite Hstart.
      rewrite <- Htag, trimEnd_app_Blank by done.
      by apply (trimEnd_app_boundary "@" u). }
    rewrite startsWith_refl.
    rewrite <- (append_empty_r ("@" +:+ u)) at 2. by rewrite slice_app.
Qed.

End GroupChats.

Section Notifications.
Context {env : Env}.

(** X25. [sendNotification] hands the dispatcher exactly one message,
    addressed to the chat of the body or else to the default chat. When
    the send succeeds it reports success with the chat it used; when the
    send fails it throws the failure on to its caller. A scheduled send of
    the same message to the same chat leaves the same outbox but swallows
    the failure: it always returns. *)
Theorem sendNotification_reports_the_outcome
    (send : Dispatcher) (dto : SendMessageDto.t) (o : list Sent) :
  let chat := JSString.or_else (SendMessageDto.chatId dto) defaultChatId in
  let delivered := send chat (SendMessageDto.message dto) in
  let run := NotificationService.sendNotification send dto o in
  run.1 = o ++ [{| sent_chatId := chat;
                   sent_text := SendMessageDto.message dto;
                   sent_ok := delivered |}]
  /\ run.2 = (if delivered
              then inr {| NotificationService.success := true;
                          NotificationService.chatId := chat |}
              else inl BotService.telegramError)
  /\ forall (s : Entity.t) (st : State),
       Entity.message s = SendMessageDto.message dto ->
       SendMessageDto.chatId dto = Some (Entity.chatId s) ->
       outbox st = o ->
       ScheduleService.sendScheduledMessage send s st
       = (set_outbox (fun _ => run.1) st, Return tt).
Proof.
  cbn zeta. unfold NotificationService.sendNotification, BotService.sendMessage.
  split; [by destruct (send _ _)|]. split; [by destruct (send _ _)|].
  intros s st Hm Hc <-. unfold ScheduleService.sendScheduledMessage. unfold_service.
  rewrite Hc, Hm. by destruct (send _ _).
Qed.

End Notifications.

(** ** Operations in sequence *)

Section Sequences.
Context {env : Env}.

Lemma State_eq st s J T d o sj stm :
  store st = s -> cronJobs st = J -> timers st = T ->
  dailySummaryJob st = d -> outbox st = o ->
  strayJobs st = sj -> strayTimers st = stm -> mkState s J T d o sj stm = st.
Proof. intros <- <- <- <- <- <- <-. by destruct st. Qed.

(** A create under an id that the maps do not hold leaves no handle
    behind. *)
Lemma create_strays now newId dto st :
  cronJobs st !! newId = None -> timers st !! newId = None ->
  strayJobs (ScheduleService.create now newId dto st).1 = strayJobs st
  /\ strayTimers (ScheduleService.create now newId dto st).1 = strayTimers st.
Proof.
  intros HJn HTn. unfold ScheduleService.create. unfold_service.
  destruct (ScheduleType_eqb _ _ && _ && _); simpl_state; [done|].
  destruct (dateOrNull_pure (CreateScheduleDto.scheduledAt dto) st) as [[sAt|e] ->];
    simpl_state; [|done].
  match goal with |- context [Storage.create ?a ?b ?c ?d] =>
    set (r := Storage.create a b c d) end.
  assert (Entity.id r.2 = newId) as Hid by done.
  destruct (Entity.type r.2) eqn:Ety; simpl_state.
  - destruct (cronAccepts _); simpl_state; [|done].
    by rewrite Hid, HJn, app_nil_r.
  - destruct (Entity.scheduledAt r.2) as [t|]; simpl_state; [|done].
    destruct (_ <=? 0); simpl_state; [done|]. by rewrite Hid, HTn, app_nil_r.
  - done.
Qed.

(** What a create that returned did to the state. *)
Lemma create_returned now newId dto st st' schedule :
  ScheduleService.create now newId dto st = (st', Return schedule) ->
  Entity.id schedule = newId
  /\ store st' = store st ++ [schedule]
  /\ dailySummaryJob st' = dailySummaryJob st
  /\ outbox st' = outbox st
  /\ (forall k, k <> newId ->
        cronJobs st' !! k = cronJobs st !! k /\ timers st' !! k = timers st !! k).
Proof.
  unfold ScheduleService.create. unfold_service.
  destruct (ScheduleType_eqb _ _ && _ && _); simpl_state; [done|].
  destruct (dateOrNull_pure (CreateScheduleDto.scheduledAt dto) st) as [[sAt|e] ->];
    simpl_state; [|done].
  unfold Storage.create. simpl_state.
  cbn [Entity.type Entity.id Entity.cron Entity.scheduledAt Draft.type Draft.cron
       Draft.scheduledAt].
  destruct (CreateScheduleDto.type dto); simpl_state.
  - destruct (cronAccepts _); simpl_state; intros [= <- <-]; simpl_state;
      (do 4 (split; [done|])); intros k Hk; by rewrite ?lookup_insert_ne.
  - destruct sAt as [t|]; simpl_state; [|done].
    destruct (_ <=? 0); simpl_state; intros [= <- <-]; simpl_state;
      (do 4 (split; [done|])); intros k Hk; by rewrite ?lookup_insert_ne.
  - intros [= <- <-]. by simpl_state.
Qed.

(** X26. Deleting the schedule a create has just returned undoes the
    create: in a state the service can reach, the store, the registry and
    the outbox are afterwards exactly what they were before the create. *)
Theorem create_then_delete_restores_the_state
    (now : Z) (newId : string) (dto : CreateScheduleDto.t)
    (st st' : State) (schedule : Entity.t) :
  reachable st \/ serving st ->
  Storage.findById (store st) newId = None ->
  ScheduleService.create now newId dto st = (st', Return schedule) ->
  ScheduleService.delete (Entity.id schedule) st' = (st, Return tt).
Proof.
  intros HI%running_Inv Hfresh Hrun.
  destruct (no_entry_without_row _ _ _ HI Hfresh) as [Hj Ht].
  destruct (create_strays now newId dto st Hj Ht) as [HsJ HsT].
  rewrite Hrun in HsJ, HsT. cbn [fst] in HsJ, HsT.
  apply create_returned in Hrun as (Hid & Hstore & Hd & Ho & Hreg). rewrite Hid.
  assert (Storage.findById (store st') newId = Some schedule) as Hfind.
  { rewrite Hstore. unfold Storage.findById. rewrite find_append.
    unfold Storage.findById in Hfresh. rewrite Hfresh. simpl.
    by rewrite (proj2 (has_id_true newId schedule) Hid). }
  unfold ScheduleService.delete. unfold_service. simpl_state. rewrite Hfind. simpl_state.
  f_equal.
  apply State_eq; simpl_state;
    [|apply map_eq; intros j|apply map_eq; intros j|done|done|done|done].
  - rewrite Hstore. unfold Storage.delete. cbn [fst].
    rewrite List.filter_app, filter_no_match by done. simpl.
    rewrite (proj2 (has_id_true newId schedule) Hid). simpl. by rewrite app_nil_r.
  - destruct (decide (j = newId)) as [->|Hne].
    + by rewrite lookup_delete_eq.
    + rewrite lookup_delete_ne by done. symmetry. by apply Hreg.
  - destruct (decide (j = newId)) as [->|Hne].
    + by rewrite lookup_delete_eq.
    + rewrite lookup_delete_ne by done. symmetry. by apply Hreg.
Qed.

(** X27. A one-shot schedule fires once. After the timer of a schedule
    has fired, a restore of the schedules, at whatever instant and
    however far it gets, arms no timer and starts no job for that id: the
    record has been stored as disabled. *)
Theorem fired_timer_is_not_armed_again
    (send send' : Dispatcher) (now now' : Z) (i : string) (tm : Timer) (st : State) :
  reachable st \/ serving st ->
  timers st !! i = Some tm ->
  let fired := exec send now (OpTimerFire i) st in
  let restored := exec send' now' OpRestoreOnStart fired in
  timers restored !! i = None
  /\ cronJobs restored !! i = None
  /\ exists e, Storage.findById (store restored) i = Some e /\ Entity.enabled e = false.
Proof.
  intros HI%running_Inv Htm. cbn zeta.
  pose proof (timerFire_Inv false send i tm st HI Htm) as HIf.
  cbn [exec]. rewrite Htm.
  set (fired := (ScheduleService.timerFire send (timer_schedule tm)
                   (set_timers (delete i) st)).1) in *.
  destruct HI as (Hnd & HJ & HT). destruct (HT _ _ Htm) as [Hid (e & He & Hty & _)].
  assert (cronJobs st !! i = None) as Hj.
  { destruct (cronJobs st !! i) eqn:E; [|done].
    exfalso. eapply (InvC_disjoint false (store st) (cronJobs st) (timers st) i);
      [by split|by eexists..]. }
  assert (store fired = (Storage.updateRows (store st) i (Partial.only_enabled false)).1
          /\ cronJobs fired = cronJobs st /\ timers fired !! i = None)
    as (Hs & Hc & Ht).
  { unfold fired, ScheduleService.timerFire. unfold_service. simpl_state.
    by rewrite Hid, !lookup_delete_eq. }
  assert (Storage.findById (store fired) i
          = Some (Partial.apply (Partial.only_enabled false) e)) as Hrow.
  { by rewrite Hs, findById_update, String.eqb_refl, He. }
  unfold ScheduleService.restoreSchedules. unfold_service.
  destruct (forEach_restore now' (Storage.findAll (store fired)) fired)
    as (l1 & l2 & r & Hl & Hrun & _).
  simpl_state. rewrite Hrun. simpl_state.
  assert (NoDup (map Entity.id l1)) as Hnd1.
  { assert (NoDup (map Entity.id (l1 ++ l2))) as Hn.
    { rewrite <- Hl. apply findAll_ids_NoDup. by destruct HIf. }
    rewrite map_app in Hn. by apply NoDup_app in Hn as [? _]. }
  assert (forall x, find (Storage.has_id i) l1 = Some x ->
            x = Partial.apply (Partial.only_enabled false) e) as Hx.
  { intros x Hf. apply find_some in Hf as [Hin Hxi]. apply has_id_true in Hxi.
    assert (In x (store fired)) as Hin' by (by eapply In_findAll_prefix).
    pose proof (findById_elem (store fired) x ltac:(by destruct HIf) Hin') as Hfx.
    rewrite Hxi, Hrow in Hfx. congruence. }
  rewrite timersAfter_lookup, jobsAfter_lookup, storeAfter_findById by done.
  rewrite Hc, Ht, Hj, Hrow.
  destruct (find (Storage.has_id i) l1) as [x|] eqn:Hf.
  - rewrite (Hx x eq_refl). unfold registersTimer, registersJob, expires. simpl.
    repeat (split; [done|]). by eexists.
  - repeat (split; [done|]). by eexists.
Qed.

End Sequences.

Section ToggleAndRestore.
Context {env : Env}.

(** X28. toggleEnabled switches the live entry with the flag. Turning
    an enabled schedule off never fails, whatever its type, cron source or
    instant: the record is stored disabled and its id has no live entry
    left. Turning a disabled Fixed schedule on stores it enabled and
    starts its job exactly when the cron source is accepted; turning a
    disabled Manual schedule with a future instant on stores it enabled
    and arms its timer with the delay that setTimeout makes of the time
    that is left: that time itself up to 2^31-1 ms, and 1 ms beyond, so
    that a schedule further ahead is sent at once. No toggle sends
    anything. *)
Theorem toggleEnabled_switches_the_live_entry
    (now : Z) (i : string) (e : Entity.t) (st : State) :
  Storage.findById (store st) i = Some e ->
  let flipped := Partial.apply (Partial.only_enabled (negb (Entity.enabled e))) e in
  let run := ScheduleService.toggleEnabled now i st in
  (Entity.enabled e = true ->
     run.2 = Return (Some flipped)
     /\ Storage.findById (store run.1) i = Some flipped
     /\ Entity.enabled flipped = false
     /\ cronJobs run.1 !! i = None /\ timers run.1 !! i = None)
  /\ (Entity.enabled e = false -> Entity.type e = fixed ->
        run.2 = Return (Some flipped)
        /\ Storage.findById (store run.1) i = Some flipped
        /\ Entity.enabled flipped = true
        /\ timers run.1 !! i = None
        /\ cronJobs run.1 !! i
           = if cronAccepts (Entity.cron e) then Some {| job_schedule := e |} else None)
  /\ (forall t, Entity.enabled e = false -> Entity.type e = manual ->
        Entity.scheduledAt e = Some t -> now < t ->
        run.2 = Return (Some flipped)
        /\ Storage.findById (store run.1) i = Some flipped
        /\ Entity.enabled flipped = true
        /\ cronJobs run.1 !! i = None
        /\ timers run.1 !! i
           = Some {| timer_schedule := e; timer_delay := setTimeoutDelay (t - now) |}
        /\ setTimeoutDelay (t - now) = (if 2147483647 <? t - now then 1 else t - now))
  /\ outbox run.1 = outbox st.
Proof.
  intros He. cbn zeta.
  assert (Entity.id e = i) as Hid by (by apply findById_Some in He as [? _]).
  assert (forall b,
            Storage.findById (Storage.updateRows (store st) i (Partial.only_enabled b)).1 i
            = Some (Partial.apply (Partial.only_enabled b) e)) as Hrow.
  { intros b. by rewrite findById_update, String.eqb_refl, He. }
  assert (forall b, (Storage.updateRows (store st) i (Partial.only_enabled b)).2
                    = Some (Partial.apply (Partial.only_enabled b) e)) as Hret.
  { intros b. apply Hrow. }
  split; [|split; [|split]].
  - intros Hen. unfold ScheduleService.toggleEnabled. unfold_service. simpl_state.
    rewrite He. simpl_state. rewrite Hen. cbn [negb]. simpl_state.
    rewrite ?isEmpty_only_enabled. simpl_state.
    rewrite Hret. split; [done|]. split; [apply Hrow|]. split; [done|].
    by rewrite !lookup_delete_eq.
  - intros Hen Hty. unfold ScheduleService.toggleEnabled. unfold_service. simpl_state.
    rewrite He. simpl_state. rewrite Hen, Hty. cbn [negb]. simpl_state.
    destruct (cronAccepts (Entity.cron e)); simpl_state;
      rewrite ?isEmpty_only_enabled; simpl_state; rewrite Hret;
      (split; [done|]); (split; [apply Hrow|]); (split; [done|]);
      rewrite ?Hid, ?lookup_insert_eq, ?lookup_delete_eq; done.
  - intros t Hen Hty Hat Hfut. unfold ScheduleService.toggleEnabled. unfold_service.
    simpl_state. rewrite He. simpl_state. rewrite Hen, Hty, Hat. cbn [negb].
    assert ((t <=? now) = false) as -> by (apply Z.leb_gt; lia).
    assert ((t - now <=? 0) = false) as -> by (apply Z.leb_gt; lia).
    simpl_state. rewrite ?isEmpty_only_enabled. simpl_state. rewrite Hret.
    (split; [done|]); (split; [apply Hrow|]); (split; [done|]).
    split; [by rewrite lookup_delete_eq|].
    split; [by rewrite Hid, lookup_insert_eq|].
    unfold setTimeoutDelay. by destruct (Z.ltb_spec (t - now) 1); [lia|].
  - by apply (quiet_toggleEnabled (outbox st)).
Qed.

Lemma jobsAfter_same l J :
  (forall e, In e l -> registersJob e = true ->
     J !! Entity.id e = Some {| job_schedule := e |}) ->
  jobsAfter l J = J.
Proof.
  unfold jobsAfter. induction l as [|e l IH]; intros H; simpl; [done|].
  destruct (registersJob e) eqn:E.
  - rewrite insert_id by (apply H; [by left|done]). apply IH. intros x Hx. apply H. by right.
  - apply IH. intros x Hx. apply H. by right.
Qed.

Lemma timersAfter_same now l T :
  (forall e, In e l -> registersTimer now e = true ->
     T !! Entity.id e
     = Some {| timer_schedule := e;
               timer_delay := setTimeoutDelay (default 0 (Entity.scheduledAt e) - now) |}) ->
  timersAfter now l T = T.
Proof.
  unfold timersAfter. induction l as [|e l IH]; intros H; simpl; [done|].
  destruct (registersTimer now e) eqn:E.
  - rewrite insert_id by (apply H; [by left|done]). apply IH. intros x Hx. apply H. by right.
  - apply IH. intros x Hx. apply H. by right.
Qed.

Lemma storeAfter_same now l rows :
  (forall e, In e l -> expires now e = false) -> storeAfter now l rows = rows.
Proof.
  unfold storeAfter. induction l as [|e l IH]; intros H; simpl; [done|].
  rewrite (H e (or_introl eq_refl)). apply IH. intros x Hx. apply H. by right.
Qed.

Lemma storeAfter_ids now l rows :
  map Entity.id (storeAfter now l rows) = map Entity.id rows.
Proof.
  unfold storeAfter. revert rows.
  induction l as [|e l IH]; intros rows; cbn [fold_left]; [done|].
  destruct (expires now e); rewrite IH; [apply ids_update|done].
Qed.

(** The rows after a restore, one by one. *)
Lemma storeAfter_row now rows x :
  NoDup (map Entity.id rows) ->
  In x (storeAfter now (Storage.findAll rows) rows) ->
  exists e, In e rows /\ Entity.id e = Entity.id x
            /\ x = if expires now e then Partial.apply (Partial.only_enabled false) e else e.
Proof.
  intros Hnd Hx.
  assert (NoDup (map Entity.id (storeAfter now (Storage.findAll rows) rows))) as Hnd'
    by by rewrite storeAfter_ids.
  pose proof (findById_elem _ x Hnd' Hx) as Hfx.
  rewrite storeAfter_findById in Hfx by by apply findAll_ids_NoDup.
  assert (In (Entity.id x) (map Entity.id rows)) as Hidx.
  { rewrite <- (storeAfter_ids now (Storage.findAll rows) rows). by apply in_map. }
  apply in_map_iff in Hidx as (e & Hide & Hine).
  pose proof (findById_elem rows e Hnd Hine) as Hfe. rewrite Hide in Hfe.
  assert (find (Storage.has_id (Entity.id x)) (Storage.findAll rows) = Some e) as Hfs.
  { rewrite <- Hide. apply (findById_elem (Storage.findAll rows) e).
    - by apply findAll_ids_NoDup.
    - by apply In_findAll. }
  rewrite Hfs, Hfe in Hfx. exists e. split; [done|]. split; [done|].
  destruct (expires now e); simpl in Hfx; congruence.
Qed.

Lemma strayJobsAfter_same l J strays :
  (forall e, In e l -> registersJob e = true ->
     J !! Entity.id e = Some {| job_schedule := e |}) ->
  strayJobsAfter l J strays
    = strays ++ map (fun e => {| job_schedule := e |}) (List.filter registersJob l).
Proof.
  revert strays. induction l as [|e l IH]; intros strays H; cbn [strayJobsAfter List.filter].
  - by rewrite app_nil_r.
  - assert (jobsAfter [e] J = J) as ->.
    { apply jobsAfter_same. intros x [<-|[]]. apply H. by left. }
    rewrite IH by (intros x Hx; apply H; by right).
    destruct (registersJob e) eqn:E; [|done].
    rewrite (H e (or_introl eq_refl) E). cbn [option_list map].
    by rewrite <- app_assoc.
Qed.

Lemma strayTimersAfter_same now l T strays :
  (forall e, In e l -> registersTimer now e = true ->
     T !! Entity.id e
     = Some {| timer_schedule := e;
               timer_delay := setTimeoutDelay (default 0 (Entity.scheduledAt e) - now) |}) ->
  strayTimersAfter now l T strays
    = strays ++ map (fun e => {| timer_schedule := e;
                                 timer_delay :=
                                   setTimeoutDelay (default 0 (Entity.scheduledAt e) - now) |})
                  (List.filter (registersTimer now) l).
Proof.
  revert strays.
  induction l as [|e l IH]; intros strays H; cbn [strayTimersAfter List.filter].
  - by rewrite app_nil_r.
  - assert (timersAfter now [e] T = T) as ->.
    { apply timersAfter_same. intros x [<-|[]]. apply H. by left. }
    rewrite IH by (intros x Hx; apply H; by right).
    destruct (registersTimer now e) eqn:E; [|done].
    rewrite (H e (or_introl eq_refl) E). cbn [option_list map].
    by rewrite <- app_assoc.
Qed.

(** X29. Restoring twice is not restoring once. On a store with
    unique ids whose enabled Manual records all carry a scheduledAt, a
    second run of restoreSchedules at the same instant returns normally
    and leaves the store, the two maps and the outbox as the first run
    left them, but it stops none of the handles of the first run: every
    job and every timer that the first run registered keeps running
    outside the maps, beside the new handle that replaced it. *)
Theorem second_restore_leaves_first_handles_running (now : Z) (st : State) :
  NoDup (map Entity.id (store st)) ->
  forallb restorable (store st) = true ->
  let once := (ScheduleService.restoreSchedules now st).1 in
  let twice := (ScheduleService.restoreSchedules now once).1 in
  (ScheduleService.restoreSchedules now st).2 = Return tt
  /\ (ScheduleService.restoreSchedules now once).2 = Return tt
  /\ store twice = store once
  /\ cronJobs twice = cronJobs once
  /\ timers twice = timers once
  /\ outbox twice = outbox once
  /\ strayJobs twice
     = strayJobs once
       ++ map (fun e => {| job_schedule := e |})
            (List.filter registersJob (Storage.findAll (store once)))
  /\ strayTimers twice
     = strayTimers once
       ++ map (fun e => {| timer_schedule := e;
                           timer_delay :=
                             setTimeoutDelay (default 0 (Entity.scheduledAt e) - now) |})
            (List.filter (registersTimer now) (Storage.findAll (store once))).
Proof.
  intros Hnd Hok. cbn zeta.
  assert (forall s, NoDup (map Entity.id (store s)) -> forallb restorable (store s) = true ->
            ScheduleService.restoreSchedules now s
            = (mkState (storeAfter now (Storage.findAll (store s)) (store s))
                 (jobsAfter (Storage.findAll (store s)) (cronJobs s))
                 (timersAfter now (Storage.findAll (store s)) (timers s))
                 (dailySummaryJob s) (outbox s)
                 (strayJobsAfter (Storage.findAll (store s)) (cronJobs s) (strayJobs s))
                 (strayTimersAfter now (Storage.findAll (store s)) (timers s)
                    (strayTimers s)), Return tt)) as Hrun.
  { intros s Hs Hr. unfold ScheduleService.restoreSchedules. unfold_service.
    destruct (forEach_restore now (Storage.findAll (store s)) s)
      as (l1 & l2 & r & Hl & Hrun & Hall).
    destruct Hall as [-> ->].
    { apply forallb_forall. intros e He. apply (proj1 (In_findAll (store s) e)) in He.
      rewrite forallb_forall in Hr. by apply Hr. }
    rewrite app_nil_r in Hl. subst l1. simpl_state. by rewrite Hrun. }
  rewrite (Hrun st Hnd Hok). simpl_state. split; [done|].
  set (S0 := Storage.findAll (store st)).
  set (rows1 := storeAfter now S0 (store st)).
  assert (NoDup (map Entity.id S0)) as HndS by by apply findAll_ids_NoDup.
  assert (forall x, In x rows1 ->
            exists e, In e (store st) /\ Entity.id e = Entity.id x
              /\ x = if expires now e
                     then Partial.apply (Partial.only_enabled false) e else e) as Hrows
    by (intros x Hx; by apply storeAfter_row).
  assert (forall e, In e (store st) -> find (Storage.has_id (Entity.id e)) S0 = Some e)
    as Hfind.
  { intros e He. apply (findById_elem S0 e HndS). by apply In_findAll. }
  assert (forall x, In x (Storage.findAll rows1) -> registersJob x = true ->
            jobsAfter S0 (cronJobs st) !! Entity.id x = Some {| job_schedule := x |})
    as Hjobs.
  { intros x Hx Hreg. apply (proj1 (In_findAll _ _)) in Hx.
    destruct (Hrows x Hx) as (e & He & Hid & ->).
    destruct (expires now e) eqn:E; [by unfold registersJob in Hreg|].
    rewrite jobsAfter_lookup, (Hfind e He) by done. by rewrite Hreg. }
  assert (forall x, In x (Storage.findAll rows1) -> registersTimer now x = true ->
            timersAfter now S0 (timers st) !! Entity.id x
            = Some {| timer_schedule := x;
                      timer_delay :=
                        setTimeoutDelay (default 0 (Entity.scheduledAt x) - now) |})
    as Htimers.
  { intros x Hx Hreg. apply (proj1 (In_findAll _ _)) in Hx.
    destruct (Hrows x Hx) as (e & He & Hid & ->).
    destruct (expires now e) eqn:E; [by unfold registersTimer in Hreg|].
    rewrite timersAfter_lookup, (Hfind e He) by done. by rewrite Hreg. }
  rewrite Hrun; simpl_state.
  2:{ unfold rows1. by rewrite storeAfter_ids. }
  2:{ apply forallb_forall. intros x Hx. destruct (Hrows x Hx) as (e & He & _ & ->).
      rewrite forallb_forall in Hok. specialize (Hok e He).
      destruct (expires now e); [|done]. unfold restorable. done. }
  fold rows1. split; [done|]. split; [|split; [|split; [|split; [done|split]]]].
  - apply storeAfter_same. intros x Hx. apply (proj1 (In_findAll _ _)) in Hx.
    destruct (Hrows x Hx) as (e & He & _ & ->).
    destruct (expires now e) eqn:E; [|done]. unfold expires. done.
  - by apply jobsAfter_same.
  - by apply timersAfter_same.
  - by apply strayJobsAfter_same.
  - by apply strayTimersAfter_same.
Qed.

End ToggleAndRestore.

(** ** The registry of a running service *)

Section RunningRegistry.
Context {env : Env}.
















End RunningRegistry.

(** ** Worked instances of the further properties *)

Lemma sample_rows_ids : NoDup (map Entity.id Sample.rows).
Proof. apply (bool_decide_unpack _). vm_compute. exact I. Qed.

Lemma sample_running : serving (env := Demo.env) Sample.running.
Proof. unfold Sample.running. apply serving_init, sample_rows_ids. Qed.

Lemma demo_restored : reachable (env := Demo.env) Demo.restored.
Proof.
  unfold Demo.restored. apply reachable_step; [|exact I].
  apply reachable_initial, demo_scenario_ids.
Qed.

(** A fourth row saved under the fresh key "n1". *)
Lemma storage_create_then_findById_witness :
  Storage.findById (Storage.create Sample.rows "n1" Demo.now Sample.draft).1 "n1"
    = Some (Storage.create Sample.rows "n1" Demo.now Sample.draft).2
  /\ length (Storage.create Sample.rows "n1" Demo.now Sample.draft).1 = 4%nat.
Proof.
  pose proof (storage_create_then_findById Sample.rows "n1" Demo.now Sample.draft) as H.
  cbn zeta in H.
  destruct H as (Hfind & _ & _ & _ & _ & _ & _ & _ & _ & _ & _ & _ & _ & Hlen).
  - vm_compute. reflexivity.
  - split; [exact Hfind|]. rewrite Hlen. reflexivity.
Defined.

(** The registry after restoring scenario C. *)
Lemma live_entries_are_well_formed_witness :
  registryWellFormed (env := Demo.env) Demo.restored.
Proof.
  apply (live_entries_are_well_formed (env := Demo.env)). left. apply demo_restored.
Defined.

(** Deleting the pending one-shot schedule "m1" of the running service. *)
Lemma delete_removes_row_and_live_entry_witness :
  let st' := (ScheduleService.delete "m1" Demo.served).1 in
  is_Some (timers Demo.served !! "m1")
  /\ timers st' !! "m1" = None
  /\ Storage.findById (store st') "m1" = None.
Proof.
  pose proof (delete_removes_row_and_live_entry "m1"
                (Demo.manualRow "m1" (Demo.now + 600000) true) Demo.served) as H.
  cbn zeta in *. destruct H as (_ & Hrow & _ & Htm & _).
  - vm_compute. reflexivity.
  - split; [|split; [exact Htm|exact Hrow]]. vm_compute. eexists. reflexivity.
Defined.

(** The pending one-shot schedule "m1", switched off and on again. *)
Lemma toggleEnabled_twice_restores_store_witness :
  let off := (ScheduleService.toggleEnabled (env := Demo.env) Demo.now "m1" Demo.served).1 in
  let on := (ScheduleService.toggleEnabled (env := Demo.env) Demo.now "m1" off).1 in
  store on = store Demo.served.
Proof.
  cbn zeta.
  set (run1 := ScheduleService.toggleEnabled (env := Demo.env) Demo.now "m1" Demo.served).
  set (run2 := ScheduleService.toggleEnabled (env := Demo.env) Demo.now "m1" run1.1).
  assert (exists r, run1 = (run1.1, Return r)) as [r1 E1]
    by (eexists; vm_compute; reflexivity).
  assert (exists r, run2 = (run2.1, Return r)) as [r2 E2]
    by (eexists; vm_compute; reflexivity).
  destruct (toggleEnabled_twice_restores_store (env := Demo.env) Demo.now Demo.now "m1"
              Demo.served run1.1 run2.1 r1 r2) as [Hstore _].
  - apply (bool_decide_unpack _). vm_compute. exact I.
  - exact E1.
  - exact E2.
  - exact Hstore.
Defined.

(** The elapsed one-shot schedule "m3", updated with [enabled: true]. *)
Lemma update_disables_elapsed_manual_but_returns_it_enabled_witness :
  let run := ScheduleService.update (env := Demo.env) Demo.now "m3" Sample.reenable
               Demo.served in
  run.2 = Return (Demo.manualRow "m3" (Demo.now - 86400000) true)
  /\ Storage.findById (store run.1) "m3"
     = Some (Demo.manualRow "m3" (Demo.now - 86400000) false)
  /\ timers run.1 !! "m3" = None.
Proof.
  pose proof (update_disables_elapsed_manual_but_returns_it_enabled (env := Demo.env)
                Demo.now "m3" Sample.reenable
                (Demo.manualRow "m3" (Demo.now - 86400000) false)
                (Demo.now - 86400000) Demo.served) as H.
  cbn zeta in *. destruct H as (Hret & _ & Hrow & _ & Htm & _).
  - vm_compute. reflexivity.
  - reflexivity.
  - reflexivity.
  - unfold Demo.now. lia.
  - reflexivity.
  - reflexivity.
  - reflexivity.
  - split; [exact Hret|]. split; [exact Hrow|exact Htm].
Defined.

(** The recurring schedule "f1" gets the message "pong"; its next tick
    sends it. *)
Lemma update_then_tick_sends_the_updated_message_witness :
  let run := ScheduleService.update (env := Demo.env) Demo.now "f1" Sample.rename
               Sample.running in
  map sent_text
    (outbox (exec (env := Demo.env) Demo.delivered (Demo.now + 60000) (OpCronTick "f1") run.1))
  = ["pong"].
Proof.
  cbn zeta.
  set (run := ScheduleService.update (env := Demo.env) Demo.now "f1" Sample.rename
                Sample.running).
  assert (exists u, run = (run.1, Return u)) as [u E]
    by (eexists; vm_compute; reflexivity).
  assert (u = Partial.apply (updateData Sample.rename None) (Demo.fixedRow "f1" "0 9 * * 1-5"))
    as Hu.
  { assert (run.2 = Return u) as E2 by (by rewrite E).
    vm_compute in E2. injection E2 as <-. vm_compute. reflexivity. }
  destruct (update_then_tick_sends_the_updated_message (env := Demo.env) Demo.delivered
              Demo.now (Demo.now + 60000) "f1" Sample.rename u Sample.running run.1)
    as (_ & _ & _ & Hout).
  - exact E.
  - rewrite Hu. reflexivity.
  - rewrite Hu. reflexivity.
  - rewrite Hu. vm_compute. reflexivity.
  - rewrite Hout, Hu. vm_compute. reflexivity.
Defined.


(** Five past two in the afternoon. *)
Lemma formatHHmm_agrees_with_timeLabel_witness :
  ScheduleService.formatHHmm "14:05" = "오후 2:05".
Proof.
  change "14:05" with (clockText 14 5).
  rewrite (formatHHmm_agrees_with_timeLabel 14 5) by lia.
  vm_compute. reflexivity.
Defined.

(** Six fields, the last two parted by the ideographic space U+3000 and
    a blank: the fifth field, [*], is the day of week, whatever the
    sixth says. *)
Lemma cronMatchesToday_reads_fields_three_to_five_witness :
  Cron.cronMatchesToday "0 0 9 * *　 1-5" 6 9 11 = true
  /\ Cron.cronMatchesToday "0 0 9 * *　 1-5" 3 4 11 = false.
Proof.
  change "0 0 9 * *　 1-5"
    with (cron6 "0" " " "0" " " "9" " " "*" " " "*" "　 " "1-5").
  rewrite !cronMatchesToday_reads_fields_three_to_five by reflexivity.
  split; vm_compute; reflexivity.
Defined.

(** Working days at nine, restricted to the first of the month, with
    the ideographic space U+3000 before and after the expression. *)
Lemma describeCron_shows_weekday_and_time_witness :
  ScheduleBotUpdate.describeCron "　0 9 1 * 1-5　" = "평일(월~금) 09:00".
Proof.
  change "　0 9 1 * 1-5　"
    with ("　" +:+ Cron.cron5 "0" " " "9" " " "1" " " "*" " " "1-5" +:+ "　").
  destruct (describeCron_shows_weekday_and_time
              "　" "0" " " "9" " " "1" " " "*" " " "1-5" "　")
    as [H _]; [reflexivity..|].
  rewrite H. vm_compute. reflexivity.
Defined.

(** The field 7 on a Sunday. *)
Lemma describeDayOfWeek_names_the_matching_day_witness :
  ScheduleBotUpdate.describeDayOfWeek "7" = "매주 일요일".
Proof.
  change "7" with (Cron.showN 7).
  rewrite (describeDayOfWeek_names_the_matching_day 7 0); [|done|lia|vm_compute; reflexivity].
  vm_compute. reflexivity.
Defined.

(** "@alarm_bot ping" in a group: the handlers see an addressed command. *)
Lemma group_gate_passes_only_addressed_commands_witness :
  BotUpdate.visibleText "@alarm_bot ping" (BotUpdate.onUse (Sample.groupText "@alarm_bot ping"))
    = Some "/ping@alarm_bot"
  /\ JSText.includes "@alarm_bot" "/ping@alarm_bot" = true.
Proof.
  destruct (group_gate_passes_only_addressed_commands (Sample.groupText "@alarm_bot ping")
              "@alarm_bot ping" "alarm_bot")
    as [H _]; [intros E; discriminate E|reflexivity..|].
  split; [vm_compute; reflexivity|].
  apply (H "/ping@alarm_bot"); vm_compute; reflexivity.
Defined.

(** The mention, the ideographic space U+3000 and "ping", in a group. *)
Lemma onUse_rewrites_a_mention_into_a_command_witness :
  BotUpdate.onUse (Sample.groupText "@alarm_bot　ping")
    = BotUpdate.Rewritten "/ping@alarm_bot"
        [{| BotUpdate.entity_type := "bot_command"; BotUpdate.entity_offset := 0;
            BotUpdate.entity_length := 15 |}].
Proof.
  pose proof (onUse_rewrites_a_mention_into_a_command
                (Sample.groupText "@alarm_bot　ping") "alarm_bot" "　" "ping"
                "@alarm_bot　ping") as H.
  cbn zeta in H.
  destruct H as [H _]; [intros E; discriminate E|reflexivity..|].
  apply H; [by left|reflexivity| |reflexivity]. repeat split; done.
Defined.

(** A schedule created on the running service and deleted again. *)
Lemma create_then_delete_restores_the_state_witness :
  exists schedule,
    (ScheduleService.create (env := Demo.env) Demo.now "n2" Sample.futureCreate
       Demo.served).2 = Return schedule
    /\ ScheduleService.delete (Entity.id schedule)
         (ScheduleService.create (env := Demo.env) Demo.now "n2" Sample.futureCreate
            Demo.served).1
       = (Demo.served, Return tt).
Proof.
  set (run := ScheduleService.create (env := Demo.env) Demo.now "n2" Sample.futureCreate
                Demo.served).
  assert (exists s, run = (run.1, Return s)) as [s E]
    by (eexists; vm_compute; reflexivity).
  exists s. split; [by rewrite E|].
  apply (create_then_delete_restores_the_state (env := Demo.env) Demo.now "n2"
           Sample.futureCreate Demo.served run.1 s).
  - right. apply demo_served.
  - vm_compute. reflexivity.
  - exact E.
Defined.

(** The timer of "m1" fires; a restore eleven minutes later leaves it
    alone. *)
Lemma fired_timer_is_not_armed_again_witness :
  let fired := exec (env := Demo.env) Demo.undelivered Demo.now (OpTimerFire "m1")
                 Demo.restored in
  is_Some (timers Demo.restored !! "m1")
  /\ timers (exec (env := Demo.env) Demo.delivered (Demo.now + 660000) OpRestoreOnStart fired)
       !! "m1" = None.
Proof.
  pose proof (fired_timer_is_not_armed_again (env := Demo.env) Demo.undelivered
                Demo.delivered Demo.now (Demo.now + 660000) "m1"
                {| timer_schedule := Demo.manualRow "m1" (Demo.now + 600000) true;
                   timer_delay := 600000 |} Demo.restored) as H.
  cbn zeta in *. destruct H as (Htm & _).
  - left. apply demo_restored.
  - vm_compute. reflexivity.
  - split; [|exact Htm]. eexists. vm_compute. reflexivity.
Defined.

(** Restoring the rows of [Sample] twice: the first job of "f1" and the
    first timer of "m1" are still running. *)
Lemma second_restore_leaves_first_handles_running_witness :
  let once := (ScheduleService.restoreSchedules (env := Demo.env) Demo.now
                 (initial Sample.rows)).1 in
  let twice := (ScheduleService.restoreSchedules (env := Demo.env) Demo.now once).1 in
  cronJobs twice = cronJobs once
  /\ strayJobs once = []
  /\ map (fun j => Entity.id (job_schedule j)) (strayJobs twice) = ["f1"]
  /\ map (fun t => Entity.id (timer_schedule t)) (strayTimers twice) = ["m1"].
Proof.
  pose proof (second_restore_leaves_first_handles_running (env := Demo.env) Demo.now
                (initial Sample.rows)) as H.
  cbn zeta in *. destruct H as (_ & _ & _ & HJ & _ & _ & HsJ & HsT).
  - apply sample_rows_ids.
  - vm_compute. reflexivity.
  - split; [exact HJ|]. split; [reflexivity|]. rewrite HsJ, HsT.
    split; vm_compute; reflexivity.
Defined.

(** The enabled recurring schedule "f1" of the running service, turned
    off. *)
Lemma toggleEnabled_switches_the_live_entry_witness :
  let run := ScheduleService.toggleEnabled (env := Demo.env) Demo.now "f1" Sample.running in
  is_Some (cronJobs Sample.running !! "f1") /\ cronJobs run.1 !! "f1" = None.
Proof.
  pose proof (toggleEnabled_switches_the_live_entry (env := Demo.env) Demo.now "f1"
                (Demo.fixedRow "f1" "0 9 * * 1-5") Sample.running) as H.
  cbn zeta in *. destruct H as (Hoff & _).
  - vm_compute. reflexivity.
  - destruct (Hoff eq_refl) as (_ & _ & _ & Hj & _). split; [|exact Hj].
    eexists. vm_compute. reflexivity.
Defined.

